(** * anypp: pick-points XML <-> AnyScript point conversion

    A shallow embedding of [src/anypp/cli.py] and the properties of its
    conversion functions.

    Layout of the development:
    - [PyStr]      Python [str] values and the [str] methods the program calls;
    - [PyExn]      exceptions and the result monad;
    - [PyFloat]    [float] values, [float(s)] and [format(x, "")];
    - [PyRe]       the backtracking matcher of the [re] module, for the
                   constructs the two patterns of the program use;
    - [PyAst]      [ast.literal_eval];
    - [ETree]      [xml.etree.ElementTree.fromstring] and [Element.iter];
    - [Cli]        the functions of [cli.py] themselves;
    - [Command]    the command [convert] of [cli.py], with what it writes;
    - [Spec]       the vocabulary of the statements, then that of the proofs;
    - the lemmas and theorems: the formatters, the sanitizer, the literal
                   parser, the pick-points reader, the line pattern, the
                   float texts, and the two formats written and read back;
    - further properties of the same functions, of [format_anyscript],
                   [signal_last], [_recursive_replace] and [convert].

    Library code ([str], [float], [re], [ast], [ElementTree], [numpy]) is
    outside the repository.  Each library function is modelled on a
    documented fragment of its inputs; outside that fragment the model
    answers [Raise NotModelled], which no handler of the program catches, so
    that a definite result of the model is always a result of the library. *)

From Stdlib Require Import List Ascii ZArith NArith Lia Bool Arith.
From Stdlib Require String.
Import ListNotations.

Set Warnings "-via-type-mismatch,-register-all".

(* ================================================================== *)
(** * Python strings *)
(* ================================================================== *)

(** A Python [str] is a sequence of code points.  The model keeps the code
    points below U+0100 (Latin-1), one [ascii] value per code point; the
    classification of characters follows the Unicode database on that
    range. *)
Definition str := list ascii.

Declare Scope str_scope.
Delimit Scope str_scope with str.
Bind Scope str_scope with str.
String Notation list String.string_of_list_byte String.list_byte_of_string
  (via String.string mapping [[nil] => String.EmptyString, [cons] => String.String])
  : str_scope.
Open Scope char_scope.
Open Scope list_scope.
Open Scope str_scope.

Module PyStr.

Definition ord (c : ascii) : N := N_of_ascii c.
Definition chr (n : N) : ascii := ascii_of_N n.

Definition in_range (lo hi : N) (c : ascii) : bool :=
  (lo <=? ord c)%N && (ord c <=? hi)%N.

(** ASCII digits, ASCII letters. *)
Definition is_ascii_digit (c : ascii) : bool := in_range 48 57 c.
Definition is_ascii_alpha (c : ascii) : bool :=
  in_range 65 90 c || in_range 97 122 c.
Definition is_ascii_alnum (c : ascii) : bool :=
  is_ascii_digit c || is_ascii_alpha c.

(** [c.isalpha()]: general category L*.  Below U+0100 these are the ASCII
    letters, U+00AA, U+00B5, U+00BA and U+00C0..U+00FF without the two
    operators U+00D7 and U+00F7. *)
Definition isalpha (c : ascii) : bool :=
  is_ascii_alpha c
  || (ord c =? 170)%N || (ord c =? 181)%N || (ord c =? 186)%N
  || in_range 192 214 c || in_range 216 246 c || in_range 248 255 c.

(** [c.isdecimal() or c.isdigit() or c.isnumeric()]: the ASCII digits, the
    superscripts U+00B2, U+00B3, U+00B9 and the fractions U+00BC..U+00BE. *)
Definition isnumeric (c : ascii) : bool :=
  is_ascii_digit c
  || (ord c =? 178)%N || (ord c =? 179)%N || (ord c =? 185)%N
  || in_range 188 190 c.

(** [c.isalnum()]. *)
Definition isalnum (c : ascii) : bool := isalpha c || isnumeric c.

(** [c.isspace()], which is also the class [\s] of [re] on [str] patterns. *)
Definition isspace (c : ascii) : bool :=
  in_range 9 13 c || in_range 28 32 c || (ord c =? 133)%N || (ord c =? 160)%N.

(** The line boundaries of [str.splitlines]. *)
Definition is_linebreak (c : ascii) : bool :=
  in_range 10 13 c || in_range 28 30 c || (ord c =? 133)%N.

(** [s.startswith(p)], [s.endswith(p)]. *)
Fixpoint startswith (p s : str) : bool :=
  match p, s with
  | [], _ => true
  | _ :: _, [] => false
  | a :: p', b :: s' => Ascii.eqb a b && startswith p' s'
  end.

Definition endswith (p s : str) : bool := startswith (rev p) (rev s).

(** [sub in s]. *)
Fixpoint contains (sub s : str) : bool :=
  startswith sub s
  || match s with
     | [] => false
     | _ :: s' => contains sub s'
     end.

(** [s.replace(old, new)] for a non-empty [old]: the occurrences of [old]
    are replaced from left to right and do not overlap.  [skip] counts the
    characters of an occurrence that are still to be dropped. *)
Fixpoint replace_from (skip : nat) (old new s : str) : str :=
  match s with
  | [] => []
  | c :: s' =>
      match skip with
      | S k => replace_from k old new s'
      | O =>
          if startswith old s
          then new ++ replace_from (length old - 1) old new s'
          else c :: replace_from 0 old new s'
      end
  end.

Definition replace (old new s : str) : str := replace_from 0 old new s.

(** [s.splitlines()]: a ["\r\n"] pair is one boundary, and a boundary at
    the very end opens no further line. *)
Fixpoint splitlines (s : str) : list str :=
  match s with
  | [] => []
  | c :: s' =>
      if is_linebreak c then
        match s' with
        | c' :: s'' =>
            if Ascii.eqb c "013" && Ascii.eqb c' "010"
            then [] :: splitlines s''
            else [] :: splitlines s'
        | [] => [[]]
        end
      else
        match splitlines s' with
        | [] => [[c]]
        | l :: ls => (c :: l) :: ls
        end
  end.

(** [s[1:-1]]. *)
Definition slice_1_m1 (s : str) : str := removelast (tl s).

(** [(s == t)] on strings. *)
Definition str_eqb (s t : str) : bool :=
  if list_eq_dec ascii_dec s t then true else false.

End PyStr.

Import PyStr.

(** Characters that have no escape in a string literal. *)
Definition NL : ascii := "010"%char.   (* line feed *)
Definition DQ : ascii := "034"%char.   (* double quote *)
Definition SQ : ascii := "039"%char.   (* single quote *)

(* ================================================================== *)
(** * Exceptions *)
(* ================================================================== *)

Module PyExn.

(** The exception classes the program raises or handles.  Messages are
    kept where the program builds them; the message of a [SyntaxError] and
    the message of the [ValueError] of [ast.literal_eval] are not part of
    the model; of the message of an [ElementTree.ParseError] the model
    keeps the diagnostic and leaves out the line and column that follow
    it.  [NotModelled] is not a Python exception: it marks an input
    on which a library model gives no answer. *)
Inductive exn : Type :=
| SyntaxError
| ValueError (msg : str)
| KeyError (key : str)
| RuntimeError (msg : str)
| IndexError
| TypeError
| ParseError (msg : str)
| NotModelled.

Inductive result (A : Type) : Type :=
| Ok (a : A)
| Raise (e : exn).
Arguments Ok {A} a.
Arguments Raise {A} e.

Definition bind {A B : Type} (m : result A) (k : A -> result B) : result B :=
  match m with
  | Ok a => k a
  | Raise e => Raise e
  end.

(** [try: body  except classes: handler]. *)
Definition try_except {A : Type} (body : result A) (classes : exn -> bool)
    (handler : exn -> result A) : result A :=
  match body with
  | Ok a => Ok a
  | Raise e => if classes e then handler e else Raise e
  end.

(** The class tuple [(SyntaxError, ValueError)], and [ValueError] alone. *)
Definition syntax_or_value_error (e : exn) : bool :=
  match e with
  | SyntaxError | ValueError _ => true
  | _ => false
  end.

Definition value_error (e : exn) : bool :=
  match e with
  | ValueError _ => true
  | _ => false
  end.

Definition is_ok {A : Type} (m : result A) : bool :=
  match m with
  | Ok _ => true
  | Raise _ => false
  end.

End PyExn.

Import PyExn.

Notation "'let*' x ':=' m 'in' k" := (bind m (fun x => k))
  (at level 10, x pattern, m at level 100, k at level 200).

(* ================================================================== *)
(** * Python floats *)
(* ================================================================== *)

Module PyFloat.

(** The program never computes with a coordinate: it reads a float from
    text ([float(s)], a float literal) and writes one back
    ([format(x, "")], the shortest decimal text that reads back as [x]).
    A float is therefore modelled by the decimal number its text denotes:
    sign, significant digits and position of the decimal point.  The
    rounding of a text of more than seventeen significant digits to the
    nearest binary64 value, and overflow and underflow of the exponent,
    are not part of the model. *)
Inductive digit : Type := d0 | d1 | d2 | d3 | d4 | d5 | d6 | d7 | d8 | d9.

(** [Finite neg ds pt] is [(-1)^neg * 0.ds * 10^pt]. *)
Inductive pyfloat : Type :=
| Finite (neg : bool) (ds : list digit) (pt : Z)
| Infinity (neg : bool)
| NaN.

Definition digit_char (d : digit) : ascii :=
  match d with
  | d0 => "0" | d1 => "1" | d2 => "2" | d3 => "3" | d4 => "4"
  | d5 => "5" | d6 => "6" | d7 => "7" | d8 => "8" | d9 => "9"
  end%char.

Definition char_digit (c : ascii) : option digit :=
  match c with
  | "0" => Some d0 | "1" => Some d1 | "2" => Some d2 | "3" => Some d3
  | "4" => Some d4 | "5" => Some d5 | "6" => Some d6 | "7" => Some d7
  | "8" => Some d8 | "9" => Some d9 | _ => None
  end%char.

Definition digit_N (d : digit) : N :=
  match d with
  | d0 => 0 | d1 => 1 | d2 => 2 | d3 => 3 | d4 => 4
  | d5 => 5 | d6 => 6 | d7 => 7 | d8 => 8 | d9 => 9
  end%N.

Definition N_digit (n : N) : digit :=
  match n with
  | 0 => d0 | 1 => d1 | 2 => d2 | 3 => d3 | 4 => d4
  | 5 => d5 | 6 => d6 | 7 => d7 | 8 => d8 | _ => d9
  end%N.

Definition is_d0 (d : digit) : bool :=
  match d with
  | d0 => true
  | _ => false
  end.

Definition digits_str (ds : list digit) : str := map digit_char ds.

(** The number a digit sequence denotes, and the digits of a number. *)
Definition N_of_digits (ds : list digit) : N :=
  fold_left (fun acc d => (10 * acc + digit_N d)%N) ds 0%N.

Fixpoint digits_of_N_fuel (fuel : nat) (n : N) : list digit :=
  match fuel with
  | O => []
  | S f =>
      if (n <? 10)%N then [N_digit n]
      else digits_of_N_fuel f (n / 10)%N ++ [N_digit (n mod 10)%N]
  end.

Definition digits_of_N (n : N) : list digit :=
  digits_of_N_fuel (S (N.to_nat (N.log2 n))) n.

Fixpoint drop_zeros (ds : list digit) : list digit :=
  match ds with
  | d :: ds' => if is_d0 d then drop_zeros ds' else ds
  | [] => []
  end.

Definition drop_trailing_zeros (ds : list digit) : list digit :=
  rev (drop_zeros (rev ds)).

(** The value of the digits [ip.fp] scaled by [10^e]: zeros at either end
    carry no information and are dropped, so that equal numbers are equal
    values.  A number of [10^309] or more is beyond every binary64 value
    and reads as an infinity, a number below [10^-324] reads as zero. *)
Definition mk_finite (neg : bool) (ip fp : list digit) (e : Z) : pyfloat :=
  let ds := ip ++ fp in
  let sig := drop_zeros ds in
  match drop_trailing_zeros sig with
  | [] => Finite neg [] 0
  | ds' =>
      let pt := (Z.of_nat (length ip) + e
                 - Z.of_nat (length ds - length sig))%Z in
      if (309 <? pt)%Z then Infinity neg
      else if (pt <? -323)%Z then Finite neg [] 0
      else Finite neg ds' pt
  end.

(** A value is canonical when it is the result of [mk_finite]: the first
    and the last significant digit are not zero, and the decimal point is
    where a binary64 value can have it. *)
Definition canonical (x : pyfloat) : Prop :=
  match x with
  | Finite _ [] pt => pt = 0%Z
  | Finite _ (d :: ds) pt =>
      d <> d0 /\ last (d :: ds) d1 <> d0 /\ (-323 <= pt <= 309)%Z
  | _ => True
  end.

Definition isfinite (x : pyfloat) : bool :=
  match x with
  | Finite _ _ _ => true
  | _ => false
  end.

Definition isnan (x : pyfloat) : bool :=
  match x with
  | NaN => true
  | _ => false
  end.

Definition float_neg (x : pyfloat) : pyfloat :=
  match x with
  | Finite neg ds pt => Finite (negb neg) ds pt
  | Infinity neg => Infinity (negb neg)
  | NaN => NaN
  end.

(** ** [format(x, "")], which is [repr(x)] *)

Definition zeros (n : Z) : str := repeat "0"%char (Z.to_nat n).

(** The exponent of the scientific form: a sign and at least two digits. *)
Definition exp_text (e : Z) : str :=
  (if (e <? 0)%Z then "-" else "+")
  ++ match digits_of_N (Z.abs_N e) with
     | [d] => digits_str [d0; d]
     | ds => digits_str ds
     end.

(** The text switches to the scientific form when the decimal point lies
    more than sixteen places right or more than three places left of the
    first digit. *)
Definition repr_finite (ds : list digit) (pt : Z) : str :=
  match ds with
  | [] => "0.0"
  | d :: rest =>
      let k := Z.of_nat (length ds) in
      if (-4 <? pt)%Z && (pt <=? 16)%Z then
        if (pt <=? 0)%Z then "0." ++ zeros (- pt) ++ digits_str ds
        else if (pt <? k)%Z then
          digits_str (firstn (Z.to_nat pt) ds) ++ "."
          ++ digits_str (skipn (Z.to_nat pt) ds)
        else digits_str ds ++ zeros (pt - k) ++ ".0"
      else
        [digit_char d]
        ++ match rest with
           | [] => ""
           | _ => "." ++ digits_str rest
           end
        ++ "e" ++ exp_text (pt - 1)
  end.

Definition float_repr (x : pyfloat) : str :=
  match x with
  | NaN => "nan"
  | Infinity neg => (if neg then "-" else "") ++ "inf"
  | Finite neg ds pt => (if neg then "-" else "") ++ repr_finite ds pt
  end.

(** ** Reading a decimal number *)

Fixpoint span_digits (s : str) : list digit * str :=
  match s with
  | c :: s' =>
      match char_digit c with
      | Some d => let (ds, r) := span_digits s' in (d :: ds, r)
      | None => ([], s)
      end
  | [] => ([], [])
  end.

Definition read_sign (s : str) : bool * str :=
  match s with
  | "-"%char :: r => (true, r)
  | "+"%char :: r => (false, r)
  | _ => (false, s)
  end.

(** An exponent part [e[+-]digits]; without a digit after the [e] there is
    no exponent part and nothing is consumed. *)
Definition read_exponent (s : str) : Z * str :=
  match s with
  | c :: r =>
      if Ascii.eqb c "e" || Ascii.eqb c "E" then
        let (neg, r1) := read_sign r in
        match span_digits r1 with
        | ([], _) => (0%Z, s)
        | (ds, r2) =>
            let n := Z.of_N (N_of_digits ds) in
            ((if neg then - n else n)%Z, r2)
        end
      else (0%Z, s)
  | [] => (0%Z, s)
  end.

(** [digits [. digits] [exponent]] or [. digits [exponent]]: the integer
    digits, the fraction digits, the exponent and the unread rest. *)
Definition read_decimal (s : str) : option (list digit * list digit * Z * str) :=
  let (ip, r1) := span_digits s in
  let (fp, r2) :=
    match r1 with
    | "."%char :: r => span_digits r
    | _ => ([], r1)
    end in
  match ip, fp with
  | [], [] => None
  | _, _ => let (e, r3) := read_exponent r2 in Some (ip, fp, e, r3)
  end.

(** The value of a float literal of the source text of an expression. *)
Definition float_of_literal (text : str) : option pyfloat :=
  match read_decimal text with
  | Some (ip, fp, e, []) => Some (mk_finite false ip fp e)
  | _ => None
  end.

(** ** [float(s)] on a string *)

Definition lower (c : ascii) : ascii :=
  if in_range 65 90 c then chr (ord c + 32) else c.

(** [inf], [infinity] and [nan] in any case. *)
Definition read_inf_nan (neg : bool) (s : str) : option pyfloat :=
  let t := map lower s in
  if str_eqb t "inf" || str_eqb t "infinity" then Some (Infinity neg)
  else if str_eqb t "nan" then Some NaN
  else None.

(** White space and digits beyond ASCII are folded into ASCII first; on
    the code points of the model that concerns U+0085 and U+00A0, and any
    other code point from U+0080 on makes the conversion fail. *)
Fixpoint fold_to_ascii (s : str) : option str :=
  match s with
  | [] => Some []
  | c :: s' =>
      if (ord c <? 128)%N then option_map (cons c) (fold_to_ascii s')
      else if isspace c then option_map (cons " "%char) (fold_to_ascii s')
      else None
  end.

(** An underscore may stand between two digits, and is then dropped. *)
Fixpoint drop_underscores (prev : ascii) (s : str) : option str :=
  match s with
  | [] => if Ascii.eqb prev "_" then None else Some []
  | c :: s' =>
      if Ascii.eqb c "_" then
        if is_ascii_digit prev then drop_underscores c s' else None
      else if Ascii.eqb prev "_" && negb (is_ascii_digit c) then None
      else option_map (cons c) (drop_underscores c s')
  end.

Definition c_isspace (c : ascii) : bool :=
  in_range 9 13 c || (ord c =? 32)%N.

Fixpoint lstrip (s : str) : str :=
  match s with
  | c :: s' => if c_isspace c then lstrip s' else s
  | [] => []
  end.

Definition strip (s : str) : str := rev (lstrip (rev (lstrip s))).

(** [float(s)]; [None] stands for the [ValueError] of a text that is not a
    number. *)
Definition float_of_str (s : str) : option pyfloat :=
  match fold_to_ascii s with
  | None => None
  | Some s1 =>
      match drop_underscores "000"%char s1 with
      | None => None
      | Some s2 =>
          let (neg, body) := read_sign (strip s2) in
          match read_decimal body with
          | Some (ip, fp, e, []) => Some (mk_finite neg ip fp e)
          | Some _ => None
          | None => read_inf_nan neg body
          end
      end
  end.

End PyFloat.

Import PyFloat.

(* ================================================================== *)
(** * Regular expressions *)
(* ================================================================== *)

Module PyRe.

(** The constructs the two patterns of the program are written with.  Every
    repetition in them is a repetition of one character class, and every
    repetition is greedy. *)
Inductive regex : Type :=
| Chr (p : ascii -> bool)        (* one character of a class *)
| Star (p : ascii -> bool)       (* C*  *)
| Plus (p : ascii -> bool)       (* C+  *)
| Opt (r : regex)                (* r?  *)
| Seq (r1 r2 : regex)            (* r1 r2 *)
| Group (i : nat) (r : regex).   (* ( r ), the group number [i] *)

(** The text each group matched, latest first. *)
Definition captures := list (nat * str).

(** Greedy repetition with backtracking: take as many characters of the
    class as there are, and give one back at a time until the rest of the
    pattern ([k]) matches. *)
Fixpoint star {R : Type} (p : ascii -> bool) (s : str)
    (k : str -> option R) : option R :=
  match s with
  | c :: s' =>
      if p c then
        match star p s' k with
        | Some x => Some x
        | None => k s
        end
      else k s
  | [] => k []
  end.

(** [rmatch r s c k]: match [r] at the start of [s], then the rest of the
    pattern [k] on what [r] has left. *)
Fixpoint rmatch {R : Type} (r : regex) (s : str) (c : captures)
    (k : str -> captures -> option R) : option R :=
  match r with
  | Chr p =>
      match s with
      | a :: s' => if p a then k s' c else None
      | [] => None
      end
  | Star p => star p s (fun s' => k s' c)
  | Plus p =>
      match s with
      | a :: s' => if p a then star p s' (fun s' => k s' c) else None
      | [] => None
      end
  | Opt r1 =>
      match rmatch r1 s c k with
      | Some x => Some x
      | None => k s c
      end
  | Seq r1 r2 => rmatch r1 s c (fun s' c' => rmatch r2 s' c' k)
  | Group i r1 =>
      rmatch r1 s c
        (fun s' c' => k s' ((i, firstn (length s - length s') s) :: c'))
  end.

(** [pattern.match(s)]: the pattern must match at the start of [s] and need
    not reach its end.  The result holds the captures and the unmatched
    rest. *)
Definition re_match (r : regex) (s : str) : option (captures * str) :=
  rmatch r s [] (fun s' c => Some (c, s')).

Fixpoint group (i : nat) (c : captures) : option str :=
  match c with
  | (j, t) :: c' => if Nat.eqb i j then Some t else group i c'
  | [] => None
  end.

(** [m.groups()] of a pattern with [n] groups. *)
Definition groups (n : nat) (c : captures) : list (option str) :=
  map (fun i => group i c) (seq 1 n).

(** [pattern.sub(repl, s)] for a pattern that matches no empty string: the
    matches are found from left to right and do not overlap.  A pattern
    that matches the empty string is outside the model. *)
Fixpoint sub_from (skip : nat) (r : regex) (repl : captures -> str)
    (s : str) : result str :=
  match s with
  | [] =>
      match re_match r [] with
      | Some _ => Raise NotModelled
      | None => Ok []
      end
  | c :: s' =>
      match skip with
      | S k => sub_from k r repl s'
      | O =>
          match re_match r s with
          | Some (cs, rest) =>
              match length s - length rest with
              | O => Raise NotModelled
              | S n =>
                  let* t := sub_from n r repl s' in Ok (repl cs ++ t)
              end
          | None => let* t := sub_from 0 r repl s' in Ok (c :: t)
          end
      end
  end.

Definition sub (r : regex) (repl : captures -> str) (s : str) : result str :=
  sub_from 0 r repl s.

(** The character classes of the patterns. *)
Definition is_char (a : ascii) : ascii -> bool := Ascii.eqb a.

(** [.] : any character but a line feed. *)
Definition dot (c : ascii) : bool := negb (Ascii.eqb c NL).

(** [\w] : alphanumeric or underscore; [\W] : any other character. *)
Definition word (c : ascii) : bool := isalnum c || Ascii.eqb c "_".
Definition nonword (c : ascii) : bool := negb (word c).

End PyRe.

Import PyRe.

(* ================================================================== *)
(** * Python values and numpy arrays *)
(* ================================================================== *)

Module PyVal.

(** The values [ast.literal_eval] builds from the literals of the model,
    and the array [numpy.array] makes of a list. *)
Inductive pyval : Type :=
| VNone
| VBool (b : bool)
| VInt (z : Z)
| VFloat (f : pyfloat)
| VStr (s : str)
| VList (l : list pyval)
| VTuple (l : list pyval)
| VArray (l : list pyval).

Definition is_float (v : pyval) : bool :=
  match v with
  | VFloat _ => true
  | _ => false
  end.

Definition is_int (v : pyval) : bool :=
  match v with
  | VInt _ => true
  | _ => false
  end.

Definition is_str (v : pyval) : bool :=
  match v with
  | VStr _ => true
  | _ => false
  end.

(** [float(z)] for an integer that binary64 holds exactly. *)
Definition float_of_int (z : Z) : option pyfloat :=
  if (Z.abs z <=? 2 ^ 53)%Z
  then Some (mk_finite (z <? 0)%Z (digits_of_N (Z.abs_N z)) [] 0)
  else None.

Definition as_float (v : pyval) : option pyval :=
  match v with
  | VFloat f => Some (VFloat f)
  | VInt z => option_map VFloat (float_of_int z)
  | _ => None
  end.

Fixpoint all_some {A : Type} (l : list (option A)) : option (list A) :=
  match l with
  | [] => Some []
  | Some a :: l' => option_map (cons a) (all_some l')
  | None :: _ => None
  end.

Definition in_int64 (v : pyval) : bool :=
  match v with
  | VInt z => (- 2 ^ 63 <=? z)%Z && (z <? 2 ^ 63)%Z
  | _ => false
  end.

(** [numpy.array(l)] for a flat list [l] of floats, of integers, of both, or
    of strings.  A list of floats is stored as it is; in a list of floats
    and integers the integers become floats.  Nested lists and the other
    element types are outside the model. *)
Definition np_array (l : list pyval) : result pyval :=
  if forallb is_float l then Ok (VArray l)
  else if forallb is_int l then
    if forallb in_int64 l then Ok (VArray l) else Raise NotModelled
  else if forallb is_str l then Ok (VArray l)
  else
    match all_some (map as_float l) with
    | Some l' => Ok (VArray l')
    | None => Raise NotModelled
    end.

End PyVal.

Import PyVal.

(* ================================================================== *)
(** * [ast.literal_eval] *)
(* ================================================================== *)

Module PyAst.

(** The model covers the expressions written with decimal integer and
    float literals, string literals without a backslash or a prefix, names,
    square brackets, commas and the signs [+] and [-], with blanks between
    them.  This is the whole expression syntax of Python over these tokens:
    lists, bare tuples, subscripts, sums and signed operands.  Any other
    character outside a string literal, a keyword, a line break and leading
    white space are outside the model. *)
Inductive token : Type :=
| TInt (n : N)
| TFloat (f : pyfloat)
| TStr (s : str)
| TName (s : str)
| TLBrack
| TRBrack
| TComma
| TPlus
| TMinus.

Inductive expr : Type :=
| EInt (n : N)
| EFloat (f : pyfloat)
| EStr (s : str)
| EName (s : str)
| EList (es : list expr)
| ETuple (es : list expr)
| EUnary (minus : bool) (e : expr)
| EBinOp (minus : bool) (e1 e2 : expr)
| ESubscript (e : expr) (index : expr).

(** ** The tokenizer *)

Definition is_blank (c : ascii) : bool :=
  Ascii.eqb c " " || Ascii.eqb c "009".

Definition is_ident_start (c : ascii) : bool :=
  is_ascii_alpha c || Ascii.eqb c "_".

Definition is_ident_char (c : ascii) : bool :=
  is_ascii_alnum c || Ascii.eqb c "_".

Fixpoint span (p : ascii -> bool) (s : str) : str * str :=
  match s with
  | c :: s' => if p c then let (a, r) := span p s' in (c :: a, r) else ([], s)
  | [] => ([], [])
  end.

Definition keywords : list str :=
  ["and"; "as"; "assert"; "async"; "await"; "break"; "class"; "continue";
   "def"; "del"; "elif"; "else"; "except"; "finally"; "for"; "from";
   "global"; "if"; "import"; "in"; "is"; "lambda"; "nonlocal"; "not"; "or";
   "pass"; "raise"; "return"; "try"; "while"; "with"; "yield"].

Definition string_prefixes : list str :=
  ["r"; "u"; "b"; "f"; "br"; "rb"; "fr"; "rf"].

Definition mem (s : str) (l : list str) : bool := existsb (str_eqb s) l.

Definition is_quote (c : ascii) : bool := Ascii.eqb c DQ || Ascii.eqb c SQ.

Definition head_is (p : ascii -> bool) (s : str) : bool :=
  match s with
  | c :: _ => p c
  | [] => false
  end.

(** A number at the start of [s]: the token and the number of characters
    it takes.  A literal that runs into a letter or an underscore (an
    imaginary, hexadecimal, octal or binary literal, a digit separator, or
    a keyword) is outside the model. *)
Definition lex_number (s : str) : result (token * nat) :=
  match read_decimal s with
  | None => Raise NotModelled
  | Some (ip, fp, e, rest) =>
      let n := length s - length rest in
      let text := firstn n s in
      if head_is (fun c => is_ident_start c || (128 <=? ord c)%N) rest
      then Raise NotModelled
      else if existsb (fun c => Ascii.eqb c "." || Ascii.eqb c "e"
                                || Ascii.eqb c "E") text
      then Ok (TFloat (mk_finite false ip fp e), n)
      else
        match drop_zeros ip with
        | [] => Ok (TInt 0, n)
        | sig =>
            if head_is (Ascii.eqb "0") s then Raise SyntaxError
            else Ok (TInt (N_of_digits sig), n)
        end
  end.

(** The text of a string literal up to its closing quote(s) [close]: the
    text and its length.  [one_line] holds for a literal in single quotes,
    which a line break ends.  A backslash and a NUL are outside the
    model. *)
Fixpoint lex_string_body (close : str) (one_line : bool) (s : str)
    : result (str * nat) :=
  if startswith close s then Ok ([], 0)
  else
    match s with
    | [] => Raise SyntaxError
    | c :: s' =>
        if Ascii.eqb c "\" || Ascii.eqb c "000" then Raise NotModelled
        else if one_line && (Ascii.eqb c NL || Ascii.eqb c "013")
        then Raise SyntaxError
        else
          let* (t, n) := lex_string_body close one_line s' in
          Ok (c :: t, S n)
    end.

(** A string literal at the start of [s], which starts with the quote
    [q]. *)
Definition lex_string (q : ascii) (s : str) : result (token * nat) :=
  if startswith [q; q; q] s then
    let* (t, n) := lex_string_body [q; q; q] false (skipn 3 s) in
    Ok (TStr t, n + 6)
  else
    let* (t, n) := lex_string_body [q] true (skipn 1 s) in
    Ok (TStr t, n + 2).

Definition lex_name (s : str) : result (token * nat) :=
  let (name, rest) := span is_ident_char s in
  if mem name keywords then Raise NotModelled
  else if head_is is_quote rest && mem (map lower name) string_prefixes
  then Raise NotModelled
  else Ok (TName name, length name).

(** The token at the start of [s] and its length. *)
Definition lex_one (s : str) : result (token * nat) :=
  match s with
  | [] => Raise NotModelled
  | c :: s' =>
      if is_ascii_digit c then lex_number s
      else if Ascii.eqb c "." && head_is is_ascii_digit s' then lex_number s
      else if is_quote c then lex_string c s
      else if is_ident_start c then lex_name s
      else if Ascii.eqb c "[" then Ok (TLBrack, 1)
      else if Ascii.eqb c "]" then Ok (TRBrack, 1)
      else if Ascii.eqb c "," then Ok (TComma, 1)
      else if Ascii.eqb c "+" then Ok (TPlus, 1)
      else if Ascii.eqb c "-" then Ok (TMinus, 1)
      else Raise NotModelled
  end.

(** The tokens of [s]; [skip] counts the characters of the current token
    that are still to be passed over. *)
Fixpoint tokens_from (skip : nat) (s : str) : result (list token) :=
  match s with
  | [] => Ok []
  | c :: s' =>
      match skip with
      | S k => tokens_from k s'
      | O =>
          if is_blank c then tokens_from 0 s'
          else
            let* (t, n) := lex_one s in
            let* ts := tokens_from (n - 1) s' in
            Ok (t :: ts)
      end
  end.

(** ** The parser *)

(** Adjacent string literals are one string. *)
Fixpoint join_strings (acc : str) (ts : list token) : str * list token :=
  match ts with
  | TStr s :: ts' => join_strings (acc ++ s) ts'
  | _ => (acc, ts)
  end.

Definition tuple_or_single (es : list expr) (comma : bool) : expr :=
  match es, comma with
  | [e], false => e
  | _, _ => ETuple es
  end.

Fixpoint parse_sum (fuel : nat) (ts : list token) : result (expr * list token) :=
  match fuel with
  | O => Raise NotModelled
  | S f =>
      let* (e, ts1) := parse_factor f ts in
      parse_sum_rest f e ts1
  end

with parse_sum_rest (fuel : nat) (e : expr) (ts : list token)
    : result (expr * list token) :=
  match fuel with
  | O => Raise NotModelled
  | S f =>
      match ts with
      | TPlus :: ts1 =>
          let* (e2, ts2) := parse_factor f ts1 in
          parse_sum_rest f (EBinOp false e e2) ts2
      | TMinus :: ts1 =>
          let* (e2, ts2) := parse_factor f ts1 in
          parse_sum_rest f (EBinOp true e e2) ts2
      | _ => Ok (e, ts)
      end
  end

with parse_factor (fuel : nat) (ts : list token) : result (expr * list token) :=
  match fuel with
  | O => Raise NotModelled
  | S f =>
      match ts with
      | TPlus :: ts1 =>
          let* (e, ts2) := parse_factor f ts1 in Ok (EUnary false e, ts2)
      | TMinus :: ts1 =>
          let* (e, ts2) := parse_factor f ts1 in Ok (EUnary true e, ts2)
      | _ =>
          let* (e, ts1) := parse_atom f ts in
          parse_trailers f e ts1
      end
  end

with parse_trailers (fuel : nat) (e : expr) (ts : list token)
    : result (expr * list token) :=
  match fuel with
  | O => Raise NotModelled
  | S f =>
      match ts with
      | TLBrack :: ts1 =>
          let* (es, comma, ts2) := parse_items f ts1 in
          match es with
          | [] => Raise SyntaxError
          | _ => parse_trailers f (ESubscript e (tuple_or_single es comma)) ts2
          end
      | _ => Ok (e, ts)
      end
  end

with parse_atom (fuel : nat) (ts : list token) : result (expr * list token) :=
  match fuel with
  | O => Raise NotModelled
  | S f =>
      match ts with
      | TInt n :: ts1 => Ok (EInt n, ts1)
      | TFloat x :: ts1 => Ok (EFloat x, ts1)
      | TStr s :: ts1 => let (s', ts2) := join_strings s ts1 in Ok (EStr s', ts2)
      | TName n :: ts1 => Ok (EName n, ts1)
      | TLBrack :: ts1 =>
          let* (es, _, ts2) := parse_items f ts1 in Ok (EList es, ts2)
      | _ => Raise SyntaxError
      end
  end

(** The expressions up to the closing bracket, separated by commas, with
    an optional comma after the last one. *)
with parse_items (fuel : nat) (ts : list token)
    : result (list expr * bool * list token) :=
  match fuel with
  | O => Raise NotModelled
  | S f =>
      match ts with
      | TRBrack :: ts1 => Ok ([], false, ts1)
      | _ =>
          let* (e, ts1) := parse_sum f ts in
          match ts1 with
          | TRBrack :: ts2 => Ok ([e], false, ts2)
          | TComma :: ts2 =>
              let* (es, _, ts3) := parse_items f ts2 in Ok (e :: es, true, ts3)
          | _ => Raise SyntaxError
          end
      end
  end.

(** The whole input: one expression, or a bare tuple. *)
Fixpoint parse_top (fuel : nat) (ts : list token) : result (list expr * bool) :=
  match fuel with
  | O => Raise NotModelled
  | S f =>
      let* (e, ts1) := parse_sum fuel ts in
      match ts1 with
      | [] => Ok ([e], false)
      | [TComma] => Ok ([e], true)
      | TComma :: ts2 =>
          let* (es, _) := parse_top f ts2 in Ok (e :: es, true)
      | _ => Raise SyntaxError
      end
  end.

Definition parse (ts : list token) : result expr :=
  let* (es, comma) := parse_top (5 * length ts + 5) ts in
  Ok (tuple_or_single es comma).

(** ** The evaluation of the syntax tree *)

(** The message of the [ValueError] of [literal_eval] names the offending
    node; the model keeps the fixed part of it. *)
Definition malformed : exn := ValueError "malformed node or string".

Definition convert_num (minus : bool) (e : expr) : result pyval :=
  match e with
  | EInt n => Ok (VInt (if minus then - Z.of_N n else Z.of_N n))
  | EFloat x => Ok (VFloat (if minus then float_neg x else x))
  | _ => Raise malformed
  end.

Fixpoint convert (e : expr) : result pyval :=
  let convert_all :=
    fix convert_all (es : list expr) : result (list pyval) :=
      match es with
      | [] => Ok []
      | e1 :: es' =>
          let* v := convert e1 in
          let* vs := convert_all es' in
          Ok (v :: vs)
      end in
  match e with
  | EInt n => Ok (VInt (Z.of_N n))
  | EFloat x => Ok (VFloat x)
  | EStr s => Ok (VStr s)
  | EName n =>
      if str_eqb n "None" then Ok VNone
      else if str_eqb n "True" then Ok (VBool true)
      else if str_eqb n "False" then Ok (VBool false)
      else Raise malformed
  | EList es => let* vs := convert_all es in Ok (VList vs)
  | ETuple es => let* vs := convert_all es in Ok (VTuple vs)
  | EUnary minus e1 => convert_num minus e1
  | EBinOp _ _ _ => Raise malformed
  | ESubscript _ _ => Raise malformed
  end.

(** [ast.literal_eval(s)]. *)
Definition literal_eval (s : str) : result pyval :=
  if head_is (fun c => Ascii.eqb c " " || Ascii.eqb c "009") s
  then Raise NotModelled
  else
    let* ts := tokens_from 0 s in
    match ts with
    | [] => Raise SyntaxError
    | _ => let* e := parse ts in convert e
    end.

End PyAst.

Import PyAst.

(* ================================================================== *)
(** * [xml.etree.ElementTree] *)
(* ================================================================== *)

Module ETree.

(** An element: its tag, its attributes in document order and its child
    elements.  Text is not kept, the program does not read it. *)
Inductive element : Type :=
| Element (tag : str) (attrib : list (str * str)) (children : list element).

Definition tag (e : element) : str :=
  match e with
  | Element t _ _ => t
  end.

Definition attrib (e : element) : list (str * str) :=
  match e with
  | Element _ a _ => a
  end.

Definition children (e : element) : list element :=
  match e with
  | Element _ _ c => c
  end.

(** [e.iter(t)]: [e] and its descendants in document order, those with
    the tag [t]. *)
Fixpoint descendants (e : element) : list element :=
  match e with
  | Element _ _ cs =>
      e :: (fix all (l : list element) : list element :=
              match l with
              | [] => []
              | c :: l' => descendants c ++ all l'
              end) cs
  end.

Definition iter (t : str) (e : element) : list element :=
  filter (fun x => str_eqb (tag x) t) (descendants e).

(** [d[k]] on the [attrib] dictionary. *)
Fixpoint lookup (k : str) (d : list (str * str)) : option str :=
  match d with
  | [] => None
  | (k', v) :: d' => if str_eqb k k' then Some v else lookup k d'
  end.

(** ** The parser

    The model reads a document made of an optional
    [<!DOCTYPE name>], comments, and one element with attributes, text,
    comments and child elements.  Names are written with ASCII letters,
    digits, [_], [-] and [.].  Entity and character references ([&]),
    processing instructions and the XML declaration ([<?]), CDATA
    sections, namespaces (a colon in a name, an [xmlns] attribute), names
    with characters beyond ASCII, the NUL character, other forms of the
    document type declaration and text outside the root element are
    outside the model. *)

(** The diagnostics of the parser.  The text of a [ParseError] of
    [ElementTree] is the diagnostic followed by the place of the error,
    [: line L, column C].  The model does not count lines and columns: its
    [ParseError] holds the diagnostic alone, which is how the text of the
    library starts.  What is stated of such a text is therefore stated of
    its start. *)
Definition no_element : exn := ParseError "no element found".
Definition unclosed_token : exn := ParseError "unclosed token".
Definition invalid_token : exn := ParseError "not well-formed (invalid token)".
Definition mismatched_tag : exn := ParseError "mismatched tag".
Definition duplicate_attribute : exn := ParseError "duplicate attribute".
Definition junk_after_document : exn :=
  ParseError "junk after document element".

Definition attrs := list (str * str).

(** What the parser is reading. *)
Inductive mode : Type :=
| Text (brackets : nat)          (* text; the number of ] just read *)
| Lt                             (* <  *)
| TagName (n : str)              (* <n  *)
| TagSpace (n : str) (a : attrs) (* white space in a start tag *)
| AttrName (n : str) (a : attrs) (k : str)
| AttrEq (n : str) (a : attrs) (k : str)      (* k, white space, = to come *)
| AttrQuote (n : str) (a : attrs) (k : str)   (* k=, the quote to come *)
| AttrValue (n : str) (a : attrs) (k : str) (q : ascii) (v : str) (cr : bool)
| AttrEnd (n : str) (a : attrs)  (* the closing quote of a value *)
| EmptySlash (n : str) (a : attrs)            (* the / of  />  *)
| LtSlash                        (* </  *)
| EndName (n : str)              (* </n  *)
| EndSpace (n : str)             (* </n and white space *)
| Bang                           (* <!  *)
| BangDash                       (* <!-  *)
| Comment (dashes : nat)         (* a comment; the number of - just read *)
| DoctypeKw (rest : str)         (* <!D, the rest of the keyword to come *)
| DoctypeSpace (some : bool)     (* white space after the keyword *)
| DoctypeName
| DoctypeEnd.                    (* white space after the name *)

(** An open element: tag, attributes, and the children read so far, latest
    first. *)
Definition frame := (str * attrs * list element)%type.

Record state : Type := State {
  st_mode : mode;
  st_stack : list frame;           (* the open elements, innermost first *)
  st_root : option element;        (* the root element, once closed *)
  st_doctype : bool                (* a document type declaration was read *)
}.

Definition is_xml_space (c : ascii) : bool :=
  Ascii.eqb c " " || Ascii.eqb c "009" || Ascii.eqb c "010" || Ascii.eqb c "013".

Definition is_name_start (c : ascii) : bool :=
  is_ascii_alpha c || Ascii.eqb c "_".

Definition is_name_char (c : ascii) : bool :=
  is_ascii_alnum c || Ascii.eqb c "_" || Ascii.eqb c "-" || Ascii.eqb c ".".

(** Control characters that no XML document holds. *)
Definition is_invalid_char (c : ascii) : bool :=
  (ord c <? 32)%N && negb (is_xml_space c).

(** Characters of markup the model does not read. *)
Definition unread (c : ascii) : bool :=
  Ascii.eqb c "000" || Ascii.eqb c ":" || (128 <=? ord c)%N.

Definition set_mode (st : state) (m : mode) : state :=
  State m (st_stack st) (st_root st) (st_doctype st).

Definition has_key (k : str) (a : attrs) : bool :=
  existsb (fun kv => str_eqb (fst kv) k) a.

Fixpoint has_duplicate (a : attrs) : bool :=
  match a with
  | [] => false
  | (k, _) :: a' => has_key k a' || has_duplicate a'
  end.

Definition check_attrs (a : attrs) : result unit :=
  if has_duplicate a then Raise duplicate_attribute
  else if has_key "xmlns" a then Raise NotModelled
  else Ok tt.

(** The start tag [<n a>] is complete. *)
Definition open_element (st : state) (n : str) (a : attrs) : result state :=
  let* _ := check_attrs a in
  Ok (State (Text 0) ((n, a, []) :: st_stack st) (st_root st) (st_doctype st)).

(** The element [e] is complete: it is the root, or a child of the
    innermost open element. *)
Definition close_element (st : state) (e : element) (outer : list frame)
    : state :=
  match outer with
  | [] => State (Text 0) [] (Some e) (st_doctype st)
  | (n, a, kids) :: outer' =>
      State (Text 0) ((n, a, e :: kids) :: outer') (st_root st) (st_doctype st)
  end.

(** The empty-element tag [<n a/>] is complete. *)
Definition empty_element (st : state) (n : str) (a : attrs) : result state :=
  let* _ := check_attrs a in
  Ok (close_element st (Element n a []) (st_stack st)).

(** The end tag [</n>] is complete. *)
Definition end_element (st : state) (n : str) : result state :=
  match st_stack st with
  | (n', a, kids) :: outer =>
      if str_eqb n n'
      then Ok (close_element st (Element n' a (rev kids)) outer)
      else Raise mismatched_tag
  | [] => Raise invalid_token
  end.

Definition in_content (st : state) : bool :=
  match st_stack st with
  | [] => false
  | _ => true
  end.

Definition in_epilog (st : state) : bool :=
  match st_stack st, st_root st with
  | [], Some _ => true
  | _, _ => false
  end.

Definition in_prolog (st : state) : bool :=
  match st_stack st, st_root st with
  | [], None => true
  | _, _ => false
  end.

(** The tail of a start tag after its name or an attribute. *)
Definition tag_tail (st : state) (n : str) (a : attrs) (c : ascii)
    (otherwise : result state) : result state :=
  if is_xml_space c then Ok (set_mode st (TagSpace n a))
  else if Ascii.eqb c "/" then Ok (set_mode st (EmptySlash n a))
  else if Ascii.eqb c ">" then open_element st n a
  else otherwise.

Definition bad_markup (c : ascii) : result state :=
  if unread c then Raise NotModelled else Raise invalid_token.

(** One character. *)
Definition step (st : state) (c : ascii) : result state :=
  match st_mode st with
  | Text k =>
      if Ascii.eqb c "<" then Ok (set_mode st Lt)
      else if Ascii.eqb c "000" || Ascii.eqb c "&" then Raise NotModelled
      else if is_invalid_char c then Raise invalid_token
      else if in_content st then
        if Ascii.eqb c "]" then Ok (set_mode st (Text (Nat.min 2 (S k))))
        else if Ascii.eqb c ">" && Nat.eqb k 2 then Raise invalid_token
        else Ok (set_mode st (Text 0))
      else if is_xml_space c then Ok st
      else Raise NotModelled
  | Lt =>
      if is_name_start c then
        if in_epilog st then Raise junk_after_document
        else Ok (set_mode st (TagName [c]))
      else if Ascii.eqb c "/" then
        if in_content st then Ok (set_mode st LtSlash) else Raise invalid_token
      else if Ascii.eqb c "!" then Ok (set_mode st Bang)
      else if Ascii.eqb c "?" then Raise NotModelled
      else bad_markup c
  | TagName n =>
      if is_name_char c then Ok (set_mode st (TagName (n ++ [c])))
      else tag_tail st n [] c (bad_markup c)
  | TagSpace n a =>
      if is_name_start c then Ok (set_mode st (AttrName n a [c]))
      else tag_tail st n a c (bad_markup c)
  | AttrName n a k =>
      if is_name_char c then Ok (set_mode st (AttrName n a (k ++ [c])))
      else if is_xml_space c then Ok (set_mode st (AttrEq n a k))
      else if Ascii.eqb c "=" then Ok (set_mode st (AttrQuote n a k))
      else bad_markup c
  | AttrEq n a k =>
      if is_xml_space c then Ok st
      else if Ascii.eqb c "=" then Ok (set_mode st (AttrQuote n a k))
      else bad_markup c
  | AttrQuote n a k =>
      if is_xml_space c then Ok st
      else if Ascii.eqb c DQ || Ascii.eqb c SQ
      then Ok (set_mode st (AttrValue n a k c [] false))
      else bad_markup c
  | AttrValue n a k q v cr =>
      if Ascii.eqb c q then Ok (set_mode st (AttrEnd n (a ++ [(k, v)])))
      else if Ascii.eqb c "<" then Raise invalid_token
      else if Ascii.eqb c "000" || Ascii.eqb c "&" then Raise NotModelled
      else if Ascii.eqb c "013"
      then Ok (set_mode st (AttrValue n a k q (v ++ " ") true))
      else if Ascii.eqb c "010" then
        if cr then Ok (set_mode st (AttrValue n a k q v false))
        else Ok (set_mode st (AttrValue n a k q (v ++ " ") false))
      else if Ascii.eqb c "009"
      then Ok (set_mode st (AttrValue n a k q (v ++ " ") false))
      else if is_invalid_char c then Raise invalid_token
      else Ok (set_mode st (AttrValue n a k q (v ++ [c]) false))
  | AttrEnd n a => tag_tail st n a c (bad_markup c)
  | EmptySlash n a =>
      if Ascii.eqb c ">" then empty_element st n a else bad_markup c
  | LtSlash =>
      if is_name_start c then Ok (set_mode st (EndName [c])) else bad_markup c
  | EndName n =>
      if is_name_char c then Ok (set_mode st (EndName (n ++ [c])))
      else if is_xml_space c then Ok (set_mode st (EndSpace n))
      else if Ascii.eqb c ">" then end_element st n
      else bad_markup c
  | EndSpace n =>
      if is_xml_space c then Ok st
      else if Ascii.eqb c ">" then end_element st n
      else bad_markup c
  | Bang =>
      if Ascii.eqb c "-" then Ok (set_mode st BangDash)
      else if Ascii.eqb c "D" && in_prolog st && negb (st_doctype st)
      then Ok (set_mode st (DoctypeKw "OCTYPE"))
      else Raise NotModelled
  | BangDash =>
      if Ascii.eqb c "-" then Ok (set_mode st (Comment 0))
      else Raise NotModelled
  | Comment k =>
      if Nat.eqb k 2 then
        if Ascii.eqb c ">" then Ok (set_mode st (Text 0))
        else if Ascii.eqb c "000" then Raise NotModelled
        else Raise invalid_token
      else if Ascii.eqb c "-" then Ok (set_mode st (Comment (S k)))
      else if Ascii.eqb c "000" then Raise NotModelled
      else if is_invalid_char c then Raise invalid_token
      else Ok (set_mode st (Comment 0))
  | DoctypeKw rest =>
      match rest with
      | r :: rest' =>
          if Ascii.eqb c r then
            match rest' with
            | [] => Ok (set_mode st (DoctypeSpace false))
            | _ => Ok (set_mode st (DoctypeKw rest'))
            end
          else Raise NotModelled
      | [] => Raise NotModelled
      end
  | DoctypeSpace some =>
      if is_xml_space c then Ok (set_mode st (DoctypeSpace true))
      else if some && is_name_start c then Ok (set_mode st DoctypeName)
      else Raise NotModelled
  | DoctypeName =>
      if is_name_char c then Ok st
      else if is_xml_space c then Ok (set_mode st DoctypeEnd)
      else if Ascii.eqb c ">"
      then Ok (State (Text 0) (st_stack st) (st_root st) true)
      else Raise NotModelled
  | DoctypeEnd =>
      if is_xml_space c then Ok st
      else if Ascii.eqb c ">"
      then Ok (State (Text 0) (st_stack st) (st_root st) true)
      else Raise NotModelled
  end.

Fixpoint run (st : state) (s : str) : result state :=
  match s with
  | [] => Ok st
  | c :: s' => let* st' := step st c in run st' s'
  end.

(** The end of the input. *)
Definition finish (st : state) : result element :=
  match st_mode st with
  | Text _ =>
      match st_stack st, st_root st with
      | [], Some e => Ok e
      | _, _ => Raise no_element
      end
  | DoctypeKw _ | DoctypeSpace _ | DoctypeName | DoctypeEnd => Raise NotModelled
  | _ => Raise unclosed_token
  end.

Definition initial : state := State (Text 0) [] None false.

(** [ElementTree.fromstring(text)]. *)
Definition fromstring (text : str) : result element :=
  let* st := run initial text in finish st.

End ETree.

Import ETree.

(* ================================================================== *)
(** * The program: [src/anypp/cli.py] *)
(* ================================================================== *)

Module Cli.

(** A [dict] with string keys keeps its items in insertion order;
    [d[k] = v] on a key that is present replaces the value where the key
    stands. *)
Definition dict (V : Type) := list (str * V).

Fixpoint dict_set {V : Type} (k : str) (v : V) (d : dict V) : dict V :=
  match d with
  | [] => [(k, v)]
  | (k', v') :: d' =>
      if str_eqb k k' then (k', v) :: d' else (k', v') :: dict_set k v d'
  end.

Fixpoint dict_get {V : Type} (k : str) (d : dict V) : option V :=
  match d with
  | [] => None
  | (k', v) :: d' => if str_eqb k k' then Some v else dict_get k d'
  end.

(** [val[i]] and [f"{x}"] on the values of the model. *)
Definition getitem (v : pyval) (i : nat) : result pyval :=
  match v with
  | VArray l | VList l | VTuple l =>
      match nth_error l i with
      | Some x => Ok x
      | None => Raise IndexError
      end
  | VStr s =>
      match nth_error s i with
      | Some c => Ok (VStr [c])
      | None => Raise IndexError
      end
  | _ => Raise TypeError
  end.

Definition int_str (z : Z) : str :=
  (if (z <? 0)%Z then "-" else "") ++ digits_str (digits_of_N (Z.abs_N z)).

Definition format_value (v : pyval) : result str :=
  match v with
  | VFloat x => Ok (float_repr x)
  | VInt z => Ok (int_str z)
  | VStr s => Ok s
  | _ => Raise NotModelled
  end.

(** [f"{val[i]}"]. *)
Definition fmt_item (val : pyval) (i : nat) : result str :=
  let* x := getitem val i in format_value x.

(** [float(elem.attrib[k])]. *)
Definition float_attr (elem : element) (k : str) : result pyfloat :=
  match lookup k (attrib elem) with
  | None => Raise (KeyError k)
  | Some s =>
      match float_of_str s with
      | Some x => Ok x
      | None => Raise (ValueError "could not convert string to float")
      end
  end.

(** A [for] loop whose body may raise: [body] takes the state of the loop
    and the current item. *)
Fixpoint for_each {A S : Type} (body : S -> A -> result S) (s : S)
    (l : list A) : result S :=
  match l with
  | [] => Ok s
  | a :: l' => let* s' := body s a in for_each body s' l'
  end.

(** ** [parse_pp_file] (lines 116-131) *)

(** The body of the loop: a point whose coordinates do not read as floats
    is passed over ([continue]). *)
Definition parse_pp_point (allpoints : dict pyval) (elem : element)
    : result (dict pyval) :=
  let* point :=
    try_except
      (let* x := float_attr elem "x" in
       let* y := float_attr elem "y" in
       let* z := float_attr elem "z" in
       let* a := np_array [VFloat x; VFloat y; VFloat z] in
       Ok (Some a))
      value_error
      (fun _ => Ok None) in
  match point with
  | None => Ok allpoints
  | Some a =>
      match lookup "name" (attrib elem) with
      | None => Raise (KeyError "name")
      | Some name => Ok (dict_set name a allpoints)
      end
  end.

Definition parse_pp_file (data : str) : result (dict pyval) :=
  let* etree :=
    match fromstring data with
    | Raise (ParseError e) =>
        Raise (ValueError ("Could not parse XML file: " ++ e))
    | r => r
    end in
  for_each parse_pp_point [] (iter "point" etree).

(** ** [signal_last] (lines 134-140) *)

(** The items of [it] after the first one, each paired with the flag that
    tells whether it is the last; [ret_var] is the item held back. *)
Fixpoint signal_last_from {A : Type} (ret_var : A) (iterable : list A)
    : list (bool * A) :=
  match iterable with
  | [] => [(true, ret_var)]
  | val :: iterable' => (false, ret_var) :: signal_last_from val iterable'
  end.

(** The generator asks for a first item with [next]; on an empty input
    [next] raises [StopIteration] inside the generator, which Python (3.7
    and later) turns into a [RuntimeError] at the first step of the loop
    that consumes the generator. *)
Definition signal_last {A : Type} (it : list A) : result (list (bool * A)) :=
  match it with
  | [] => Raise (RuntimeError "generator raised StopIteration")
  | ret_var :: iterable => Ok (signal_last_from ret_var iterable)
  end.

(** ** The formatters (lines 145-162, 183-187) *)

(** ["".join(c if c.isalnum() else "_" for c in name)], the expression of
    lines 150 and 160. *)
Definition sanitize_char (c : ascii) : ascii :=
  if isalnum c then c else "_"%char.

Definition sanitize (name : str) : str := map sanitize_char name.

Definition pointcloud_line (anyscript : str) (item : bool * (str * pyval))
    : result str :=
  let '(is_last, (name, val)) := item in
  let name := sanitize name in
  let comma := if is_last then "" else "," in
  let* v0 := fmt_item val 0 in
  let* v1 := fmt_item val 1 in
  let* v2 := fmt_item val 2 in
  Ok (anyscript ++ "{" ++ v0 ++ ", " ++ v1 ++ ", " ++ v2 ++ "}" ++ comma
      ++ " // " ++ name ++ " " ++ [NL]).

Definition format_anyscript_pointcloud (points : dict pyval) : result str :=
  let* items := signal_last points in
  for_each pointcloud_line "" items.

Definition anyscript_line (anyscript : str) (item : str * pyval) : result str :=
  let '(name, val) := item in
  let name := sanitize name in
  let* v0 := fmt_item val 0 in
  let* v1 := fmt_item val 1 in
  let* v2 := fmt_item val 2 in
  Ok (anyscript ++ "AnyFloat " ++ name ++ " = {" ++ v0 ++ "," ++ v1 ++ ", "
      ++ v2 ++ "};" ++ [NL]).

Definition format_anyscript (points : dict pyval) : result str :=
  for_each anyscript_line "" points.

Definition ppfile_line (output : str) (item : str * pyval) : result str :=
  let '(name, val) := item in
  let* v0 := fmt_item val 0 in
  let* v1 := fmt_item val 1 in
  let* v2 := fmt_item val 2 in
  Ok (output ++ "<point x=" ++ [DQ] ++ v0 ++ [DQ] ++ " y=" ++ [DQ] ++ v1
      ++ [DQ] ++ " z=" ++ [DQ] ++ v2 ++ [DQ] ++ " active=" ++ [DQ] ++ "1"
      ++ [DQ] ++ " name=" ++ [DQ] ++ name ++ [DQ] ++ " />" ++ [NL]).

Definition format_ppfile (points : dict pyval) : result str :=
  for_each ppfile_line "" points.

(** ** The literal parser (lines 190-227) *)

(** [_recursive_replace(iterable, old, new)] for a string [old], as the
    program calls it.  The function changes [iterable] in place; the model
    returns the changed value. *)
Fixpoint replace_elem (old : str) (new : pyval) (elem : pyval) : pyval :=
  match elem with
  | VList l => VList (map (replace_elem old new) l)
  | VStr s => if str_eqb s old then new else elem
  | _ => elem
  end.

Definition equals_str (old : str) (elem : pyval) : bool :=
  match elem with
  | VStr s => str_eqb s old
  | _ => false
  end.

Definition _recursive_replace (iterable : pyval) (old : str) (new : pyval)
    : result pyval :=
  match iterable with
  | VList l => Ok (VList (map (replace_elem old new) l))
  | VTuple l =>
      (* a tuple takes no item assignment *)
      if existsb (equals_str old) l then Raise TypeError
      else Ok (VTuple (map (replace_elem old new) l))
  | VStr s =>
      (* the items of a string are its characters *)
      if existsb (fun c => str_eqb [c] old) s then Raise TypeError
      else Ok (VStr s)
  | _ => Raise TypeError
  end.

(** [TRIPEL_QUOTE_WRAP] (line 198): one group, a run of characters
    that are neither a square bracket, a double quote, a comma nor white
    space. *)
Definition bare_char (c : ascii) : bool :=
  negb (Ascii.eqb c "[" || Ascii.eqb c "]" || Ascii.eqb c DQ
        || Ascii.eqb c "," || isspace c).

Definition TRIPEL_QUOTE_WRAP : regex := Group 1 (Plus bare_char).

(** The replacement: group 1 between two runs of three single quotes. *)
Definition triple_quoted (c : captures) : str :=
  "'''" ++ match group 1 c with
           | Some t => t
           | None => ""
           end ++ "'''".

Definition _parse_anyscript (val : str) : result pyval :=
  let val :=
    if startswith "{" val && endswith "}" val
    then replace "}" "]" (replace "{" "[" val)
    else val in
  let val := if str_eqb val "[...]" then [DQ] ++ "..." ++ [DQ] else val in
  let* out :=
    try_except (literal_eval val) syntax_or_value_error (fun _ =>
      try_except
        (if contains "nan," val then
           let val2 := replace "nan," (" " ++ [DQ] ++ "nan" ++ [DQ] ++ ",") val in
           let* out := literal_eval val2 in
           _recursive_replace out "nan" (VFloat NaN)
         else Raise SyntaxError)
        syntax_or_value_error (fun _ =>
          let* val := sub TRIPEL_QUOTE_WRAP triple_quoted val in
          let val := if str_eqb val "" then "None" else val in
          let val :=
            if startswith [DQ] val && endswith [DQ] val
            then "'''" ++ slice_1_m1 val ++ "'''"
            else val in
          literal_eval val)) in
  match out with
  | VList l => np_array l
  | _ => Ok out
  end.

(** ** The line matcher (lines 166-180) *)

(** [ANYSCRIPT_POINT_LINE] (line 166), part by part:
    [\s+] white space, at least one character;
    [({.+})] group 1, a brace, at least one character, a brace;
    [\s*,?\s*] white space, a comma or none, white space;
    [[//]?] one slash or none (the class holds the slash twice);
    [\W*] characters that are no word characters;
    group 2, the rest of the line ([.] repeated). *)
Definition ANYSCRIPT_POINT_LINE : regex :=
  Seq (Plus isspace)
 (Seq (Group 1 (Seq (Chr (is_char "{")) (Seq (Plus dot) (Chr (is_char "}")))))
 (Seq (Star isspace)
 (Seq (Opt (Chr (is_char ",")))
 (Seq (Star isspace)
 (Seq (Opt (Chr (is_char "/")))
 (Seq (Star nonword)
      (Group 2 (Star dot)))))))).

(** The body of the loop: a line that does not match, or whose value the
    literal parser rejects, is passed over. *)
Definition parse_anyscript_line (points : dict pyval) (line : str)
    : result (dict pyval) :=
  match re_match ANYSCRIPT_POINT_LINE line with
  | Some (m, _) =>
      match groups 2 m with
      | [Some val; Some name] =>
          try_except
            (let* v := _parse_anyscript val in Ok (dict_set name v points))
            syntax_or_value_error
            (fun _ => Ok points)
      | _ => Raise TypeError
      end
  | None => Ok points
  end.

Definition parse_anyanyscript (data : str) : result (dict pyval) :=
  for_each parse_anyscript_line [] (splitlines data).

(** ** Point sets *)

(** A point is a numpy array of three floats, a point set a dictionary of
    points. *)
Definition point : Type := (pyfloat * pyfloat * pyfloat)%type.

Definition point_value (p : point) : pyval :=
  let '(x, y, z) := p in VArray [VFloat x; VFloat y; VFloat z].

Definition PointSet : Type := list (str * point).

Definition as_dict (points : PointSet) : dict pyval :=
  map (fun kv => (fst kv, point_value (snd kv))) points.

End Cli.

Import Cli.

(* ================================================================== *)
(** * The command [convert] of [src/anypp/cli.py] *)
(* ================================================================== *)

Module Command.

(** [s.lstrip()] and [s.strip()] of [str]: the white space of
    [str.isspace] is taken away at the ends. *)
Fixpoint str_lstrip (s : str) : str :=
  match s with
  | c :: s' => if isspace c then str_lstrip s' else s
  | [] => []
  end.

Definition str_strip (s : str) : str := rev (str_lstrip (rev (str_lstrip s))).

(** [sep.join(lines)]. *)
Fixpoint join (sep : str) (lines : list str) : str :=
  match lines with
  | [] => []
  | [l] => l
  | l :: lines' => l ++ sep ++ join sep lines'
  end.

(** A command writes to the standard output and then returns or raises:
    it takes the text written so far and gives the text written when it
    stops, with its outcome.  What was written before an exception
    stays written. *)
Definition io (A : Type) : Type := str -> str * result A.

Definition io_ret {A : Type} (a : A) : io A := fun out => (out, Ok a).

Definition io_bind {A B : Type} (m : io A) (k : A -> io B) : io B :=
  fun out =>
    match m out with
    | (out', Ok a) => k a out'
    | (out', Raise e) => (out', Raise e)
    end.

(** A call that writes nothing. *)
Definition lift {A : Type} (r : result A) : io A := fun out => (out, r).

Notation "'do*' x ':=' m 'in' k" := (io_bind m (fun x => k))
  (at level 10, x pattern, m at level 100, k at level 200).

(** [print(x)] writes the text and a line feed. *)
Definition print (x : str) : io unit := fun out => (out ++ x ++ [NL], Ok tt).

(** [click.echo(x)] writes the text and a line feed as well; when the
    output is no terminal it first takes the ANSI escape sequences out of
    the text.  A text that holds the escape character U+001B is outside
    the model. *)
Definition echo (x : str) : io unit :=
  if existsb (Ascii.eqb "027"%char) x then lift (Raise NotModelled)
  else print x.

(** ** The text typed at the prompt (lines 83-91)

    [first] is the answer to [click.prompt], [typed] the lines that the
    calls of [getpass] return one after the other.  The loop takes lines
    up to the first empty one.  The end of the input is outside the
    model. *)
Fixpoint paste_loop (lines : list str) (typed : list str)
    : result (list str) :=
  match typed with
  | [] => Raise NotModelled
  | line :: typed' =>
      match line with
      | _ :: _ => paste_loop (lines ++ [line]) typed'
      | [] => Ok lines
      end
  end.

Definition pasted_data (first : str) (typed : list str) : result str :=
  let* lines := paste_loop [first] typed in
  Ok (join [NL] lines).

(** ** [convert] once the text [data] is read (lines 92-105) *)

Definition ruler : str := "================================".

Definition convert (data : str) : io unit :=
  do* _ := print [NL; NL] in
  if startswith "<!DOCTYPE PickedPoints>" data then
    do* points := lift (parse_pp_file data) in
    do* _ := print ([NL; NL] ++ " Point cloud:") in
    do* _ := print ruler in
    do* cloud := lift (format_anyscript_pointcloud points) in
    do* _ := echo cloud in
    do* _ := print ([NL; NL] ++ " Anyscript values:") in
    do* _ := print ruler in
    do* values := lift (format_anyscript points) in
    echo values
  else if contains "=" data && startswith "{" (str_strip data) then
    do* points := lift (parse_anyanyscript data) in
    do* pp := lift (format_ppfile points) in
    echo pp
  else io_ret tt.

End Command.

(* ================================================================== *)
(** * Vocabulary of the statements *)
(* ================================================================== *)

Module Spec.

(** One line of the point cloud form, without its line feed. *)
Definition cloud_line (comma : str) (name : str) (p : point) : str :=
  let '(x, y, z) := p in
  "{" ++ float_repr x ++ ", " ++ float_repr y ++ ", " ++ float_repr z ++ "}"
  ++ comma ++ " // " ++ sanitize name ++ " ".

(** The lines of the point cloud form of a point set: a comma on every
    line but the last. *)
Fixpoint cloud_lines (points : PointSet) : list str :=
  match points with
  | [] => []
  | [(name, p)] => [cloud_line "" name p]
  | (name, p) :: rest => cloud_line "," name p :: cloud_lines rest
  end.

(** A text from its lines, each closed by a line feed. *)
Definition unlines (lines : list str) : str :=
  concat (map (fun l => l ++ [NL]) lines).

(** The characters of the text of a float. *)
Definition repr_char (c : ascii) : bool :=
  is_ascii_digit c
  || existsb (Ascii.eqb c) ".e+-naif".

(** A name the sanitizer leaves as it is. *)
Definition sanitizer_stable (name : str) : Prop := sanitize name = name.

(** A point with three finite coordinates in canonical form. *)
Definition finite_point (p : point) : Prop :=
  let '(x, y, z) := p in
  (isfinite x = true /\ canonical x)
  /\ (isfinite y = true /\ canonical y)
  /\ (isfinite z = true /\ canonical z).

(** The name under which the line matcher stores a line of the point cloud
    form: the name with the blank that the formatter writes after it.
    After an empty name the pattern takes that blank with the comment
    marker, and the name stored is empty. *)
Definition stored_name (name : str) : str :=
  match name with
  | [] => []
  | _ :: _ => name ++ " "
  end.

(** The reader refuses the text [data] with the diagnostic [diagnostic]:
    [ElementTree] raises a [ParseError] whose text starts with the
    diagnostic, and [parse_pp_file] raises a [ValueError] whose message is
    [Could not parse XML file: ] followed by that text. *)
Definition refused (diagnostic : str) (data : str) : Prop :=
  exists e,
    fromstring data = Raise (ParseError e)
    /\ startswith diagnostic e = true
    /\ parse_pp_file data
       = Raise (ValueError ("Could not parse XML file: " ++ e)).

End Spec.

Import Spec.

(* ================================================================== *)
(** * Vocabulary of the proofs *)
(* ================================================================== *)

(** The XML parser raises its own [ParseError] and nothing else. *)
Definition xml_exn (e : exn) : Prop :=
  match e with
  | ParseError _ | NotModelled => True
  | _ => False
  end.

(** The name a line ends with: it is empty or starts a word. *)
Definition starts_word (name : str) : Prop :=
  match name with
  | [] => True
  | c :: _ => word c = true
  end.

(** The parts of the line pattern after group 1. *)
Definition tail5 : regex := Seq (Star nonword) (Group 2 (Star dot)).
Definition tail4 : regex := Seq (Opt (Chr (is_char "/"))) tail5.
Definition tail3 : regex := Seq (Star isspace) tail4.
Definition tail2 : regex := Seq (Opt (Chr (is_char ","))) tail3.
Definition tail1 : regex := Seq (Star isspace) tail2.

(** The end of the pattern: the match is the captures and the rest. *)
Definition accept (s : str) (c : captures) : option (captures * str) :=
  Some (c, s).

(** No closing brace in [s]. *)
Definition no_brace (s : str) : bool :=
  forallb (fun c => negb (is_char "}" c)) s.

(** The rest of a text starts with no digit. *)
Definition no_digit_ahead (s : str) : Prop :=
  match s with
  | [] => True
  | c :: _ => char_digit c = None
  end.

(** The digits of the exponent as [exp_text] writes them. *)
Definition exp_digits (e : Z) : list digit :=
  match digits_of_N (Z.abs_N e) with
  | [d] => [d0; d]
  | ds => ds
  end.

(** The rest of a text starts with no digit and no exponent marker. *)
Definition number_ends (rest : str) : Prop :=
  match rest with
  | [] => True
  | c :: _ => char_digit c = None /\ c <> "e"%char /\ c <> "E"%char
  end.

(** A character that an attribute value keeps as it is. *)
Definition attr_plain (c : ascii) : bool :=
  negb (Ascii.eqb c DQ || Ascii.eqb c "<" || Ascii.eqb c "&"
        || (ord c <? 32)%N).

(** The text of one point, as [format_ppfile] writes it, and the element
    that [ElementTree] builds from it. *)
Definition point_tag (x y z name : str) : str :=
  "<point x=" ++ [DQ] ++ x ++ [DQ] ++ " y=" ++ [DQ] ++ y ++ [DQ] ++ " z="
  ++ [DQ] ++ z ++ [DQ] ++ " active=" ++ [DQ] ++ "1" ++ [DQ] ++ " name="
  ++ [DQ] ++ name ++ [DQ] ++ " />" ++ [NL].

Definition point_text (name : str) (p : point) : str :=
  let '(x, y, z) := p in
  point_tag (float_repr x) (float_repr y) (float_repr z) name.

Definition point_attrib (x y z name : str) : list (str * str) :=
  [("x", x); ("y", y); ("z", z); ("active", "1"); ("name", name)].

Definition point_element (name : str) (p : point) : element :=
  let '(x, y, z) := p in
  Element "point"
    (point_attrib (float_repr x) (float_repr y) (float_repr z) name) [].

(** The text that [format_ppfile] writes for a point set. *)
Definition ppfile_text (points : PointSet) : str :=
  concat (map (fun kv => point_text (fst kv) (snd kv)) points).

(** What may follow a number in the text of a list. *)
Definition after_number (rest : str) : Prop :=
  number_ends rest
  /\ head_is (fun c => is_ident_start c || (128 <=? ord c)%N) rest = false.

(** The tokens of the text of a float: a sign or none, and the number. *)
Definition float_tokens (x : pyfloat) : list token :=
  match x with
  | Finite neg ds pt =>
      (if neg then [TMinus] else []) ++ [TFloat (Finite false ds pt)]
  | _ => []
  end.

(** The text of a point in square brackets. *)
Definition list_text (p : point) : str :=
  let '(x, y, z) := p in
  "[" ++ float_repr x ++ ", " ++ float_repr y ++ ", " ++ float_repr z ++ "]".

(** The brace group of a line of the point cloud. *)
Definition brace_text (p : point) : str :=
  let '(x, y, z) := p in
  "{" ++ float_repr x ++ ", " ++ float_repr y ++ ", " ++ float_repr z ++ "}".

(** The entry that the loop stores for a point. *)
Definition store_point (d : dict pyval) (kv : str * point) : dict pyval :=
  dict_set (stored_name (sanitize (fst kv))) (point_value (snd kv)) d.

(** One line of the value form, without its line feed. *)
Definition anyfloat_line (name : str) (p : point) : str :=
  let '(x, y, z) := p in
  "AnyFloat " ++ sanitize name ++ " = {" ++ float_repr x ++ "," ++ float_repr y
  ++ ", " ++ float_repr z ++ "};".

Definition anyfloat_lines (points : PointSet) : list str :=
  map (fun kv => anyfloat_line (fst kv) (snd kv)) points.

(** The string [old] is an item of [v], or of a list inside [v], at any
    depth of lists. *)
Fixpoint occurs (old : str) (v : pyval) : bool :=
  match v with
  | VStr s => str_eqb s old
  | VList l => existsb (occurs old) l
  | _ => false
  end.

(** A pick-points document around the text [body]: the document type
    declaration and the element [PickedPoints]. *)
Definition pp_document (body : str) : str :=
  "<!DOCTYPE PickedPoints>" ++ [NL] ++ "<PickedPoints>" ++ [NL] ++ body
  ++ "</PickedPoints>" ++ [NL].

(** The loop of the reader on the points of a document. *)
Definition store_read (d : dict pyval) (kv : str * point) : dict pyval :=
  dict_set (fst kv) (point_value (snd kv)) d.

(** The last point of the name [name]. *)
Definition last_named (name : str) (points : PointSet) : option point :=
  option_map snd (find (fun kv => str_eqb name (fst kv)) (rev points)).

(** The names of a list, each once, in the order in which they first
    stand in the list. *)
Fixpoint first_seen (names : list str) : list str :=
  match names with
  | [] => []
  | n :: rest => n :: filter (fun m => negb (str_eqb m n)) (first_seen rest)
  end.

(** The characters of the text of the point cloud. *)
Definition cloud_char (c : ascii) : bool :=
  repr_char c || word c || existsb (Ascii.eqb c) ("{}, /" ++ [NL]).

(** The tokens and the syntax tree of a list of floats. *)
Fixpoint items_tokens (xs : list pyfloat) : list token :=
  match xs with
  | [] => []
  | [x] => float_tokens x
  | x :: xs' => float_tokens x ++ TComma :: items_tokens xs'
  end.

Definition float_expr (x : pyfloat) : expr :=
  match x with
  | Finite true ds pt => EUnary true (EFloat (Finite false ds pt))
  | _ => EFloat x
  end.

(** The texts of floats, with a comma and a blank between them. *)
Definition floats_text (xs : list pyfloat) : str :=
  Command.join ", " (map float_repr xs).

(** A point element with the flag [act] in its attribute [active], as
    MeshLab writes it, and the text of a list of such points. *)
Definition flagged_tag (act x y z name : str) : str :=
  "<point x=" ++ [DQ] ++ x ++ [DQ] ++ " y=" ++ [DQ] ++ y ++ [DQ] ++ " z="
  ++ [DQ] ++ z ++ [DQ] ++ " active=" ++ [DQ] ++ act ++ [DQ] ++ " name="
  ++ [DQ] ++ name ++ [DQ] ++ " />" ++ [NL].

Definition flagged_point_text (item : str * (str * point)) : str :=
  let '(act, (name, (x, y, z))) := item in
  flagged_tag act (float_repr x) (float_repr y) (float_repr z) name.

Definition flagged_text (items : list (str * (str * point))) : str :=
  concat (map flagged_point_text items).

Definition flagged_element (item : str * (str * point)) : element :=
  let '(act, (name, (x, y, z))) := item in
  Element "point"
    [("x", float_repr x); ("y", float_repr y); ("z", float_repr z);
     ("active", act); ("name", name)] [].

(** An item of a list in the text of a value: its text, its tokens and
    its syntax tree. *)
Record item : Type := Item {
  item_text : str;
  item_tokens : list token;
  item_tree : expr
}.

(** What follows an item: the comma of the next one, or the closing
    bracket. *)
Definition item_end (rest : str) : Prop :=
  exists r, rest = ","%char :: r \/ rest = "]"%char :: r.

(** The tokenizer and the parser read the item as its tokens and its
    tree. *)
Definition item_ok (i : item) : Prop :=
  (forall rest, item_end rest ->
     tokens_from 0 (item_text i ++ rest)
     = let* ts := tokens_from 0 rest in Ok (item_tokens i ++ ts))
  /\ (forall g rest,
        parse_sum (4 + g) (item_tokens i ++ TComma :: rest)
        = Ok (item_tree i, TComma :: rest)
        /\ parse_sum (4 + g) (item_tokens i ++ TRBrack :: rest)
           = Ok (item_tree i, TRBrack :: rest))
  /\ (forall rest r, item_tokens i ++ rest <> TRBrack :: r).

Fixpoint items_tokens_of (items : list item) : list token :=
  match items with
  | [] => []
  | [i] => item_tokens i
  | i :: items' => item_tokens i ++ TComma :: items_tokens_of items'
  end.

Definition items_text (items : list item) : str :=
  Command.join ", " (map item_text items).

(** The items of a list of floats as the text has them, a NaN being the
    name [nan], and as the text has them once [nan,] is replaced, a NaN
    being the string [nan] after a blank. *)
Definition float_item (x : pyfloat) : item :=
  Item (float_repr x) (float_tokens x) (float_expr x).

Definition named_item (x : pyfloat) : item :=
  match x with
  | NaN => Item "nan" [TName "nan"] (EName "nan")
  | _ => float_item x
  end.

Definition quoted_item (x : pyfloat) : item :=
  match x with
  | NaN => Item (" " ++ [DQ] ++ "nan" ++ [DQ]) [TStr "nan"] (EStr "nan")
  | _ => float_item x
  end.

(** The characters of the text of a finite float. *)
Definition num_char (c : ascii) : bool :=
  is_ascii_digit c || existsb (Ascii.eqb c) ".e+-".

(** The value the literal of a quoted item has. *)
Definition quoted_value (x : pyfloat) : pyval :=
  match x with
  | NaN => VStr "nan"
  | _ => VFloat x
  end.

(** A float that is finite, or a NaN. *)
Definition finite_or_nan (x : pyfloat) : Prop :=
  (isfinite x = true /\ canonical x) \/ x = NaN.

(** The item of a float once its text stands in triple quotes. *)
Definition string_item (x : pyfloat) : item :=
  Item ("'''" ++ float_repr x ++ "'''") [TStr (float_repr x)]
    (EStr (float_repr x)).

(** The items of a list once [nan,] is replaced: the last item keeps its
    text. *)
Fixpoint half_quoted (xs : list pyfloat) : list item :=
  match xs with
  | [] => []
  | [x] => [named_item x]
  | x :: xs' => quoted_item x :: half_quoted xs'
  end.

(* ================================================================== *)
(** * Characters and strings *)
(* ================================================================== *)

(** Case analysis on the 256 characters. *)
Ltac each_char c :=
  destruct c as [[] [] [] [] [] [] [] []].

Lemma repr_char_not_linebreak (c : ascii) :
  repr_char c = true -> is_linebreak c = false.
Proof. each_char c; vm_compute; congruence. Qed.

Lemma word_not_linebreak (c : ascii) :
  word c = true -> is_linebreak c = false.
Proof. each_char c; vm_compute; congruence. Qed.

Lemma sanitize_char_word (c : ascii) : word (sanitize_char c) = true.
Proof. each_char c; vm_compute; reflexivity. Qed.

Lemma digit_char_repr (d : digit) : repr_char (digit_char d) = true.
Proof. destruct d; reflexivity. Qed.

Lemma forallb_map_const {A B : Type} (p : B -> bool) (f : A -> B) (l : list A) :
  (forall a, p (f a) = true) -> forallb p (map f l) = true.
Proof.
  intros H. induction l as [|a l IH]; simpl; [reflexivity|].
  now rewrite H, IH.
Qed.

Lemma forallb_repeat {A : Type} (p : A -> bool) (a : A) (n : nat) :
  p a = true -> forallb p (repeat a n) = true.
Proof.
  intros H. induction n as [|n IH]; simpl; [reflexivity|].
  now rewrite H, IH.
Qed.

Lemma forallb_impl {A : Type} (p q : A -> bool) (l : list A) :
  (forall a, p a = true -> q a = true) ->
  forallb p l = true -> forallb q l = true.
Proof.
  intros H. induction l as [|a l IH]; simpl; [reflexivity|].
  intros Hl. apply andb_true_iff in Hl as [Ha Hl].
  now rewrite (H _ Ha), (IH Hl).
Qed.

Lemma digits_str_repr (ds : list digit) : forallb repr_char (digits_str ds) = true.
Proof. apply forallb_map_const, digit_char_repr. Qed.

Lemma sanitize_word (name : str) : forallb word (sanitize name) = true.
Proof. apply forallb_map_const, sanitize_char_word. Qed.

Lemma exp_text_repr (e : Z) : forallb repr_char (exp_text e) = true.
Proof.
  unfold exp_text. rewrite forallb_app. apply andb_true_iff. split.
  - destruct (e <? 0)%Z; reflexivity.
  - destruct (digits_of_N (Z.abs_N e)) as [|d [|d' ds]] eqn:E.
    + reflexivity.
    + apply digits_str_repr.
    + apply digits_str_repr.
Qed.

Lemma repr_finite_repr (ds : list digit) (pt : Z) :
  forallb repr_char (repr_finite ds pt) = true.
Proof.
  unfold repr_finite, zeros. destruct ds as [|d rest]; [reflexivity|].
  destruct ((-4 <? pt)%Z && (pt <=? 16)%Z).
  - destruct (pt <=? 0)%Z; [|destruct (pt <? _)%Z];
      rewrite !forallb_app, ?digits_str_repr, ?forallb_repeat by reflexivity;
      reflexivity.
  - rewrite !forallb_app, exp_text_repr.
    assert (H : forallb repr_char
                  match rest with
                  | [] => ""
                  | _ :: _ => "." ++ digits_str rest
                  end = true).
    { destruct rest; [reflexivity|].
      now rewrite forallb_app, digits_str_repr. }
    rewrite H. simpl. now rewrite digit_char_repr.
Qed.

(** The text of a float is written with digits and the characters of
    [.e+-naif]. *)
Lemma float_repr_chars (x : pyfloat) : forallb repr_char (float_repr x) = true.
Proof.
  destruct x as [neg ds pt|neg|]; simpl.
  - rewrite forallb_app, repr_finite_repr. now destruct neg.
  - now destruct neg.
  - reflexivity.
Qed.

(** A text made of lines without a line boundary splits into these
    lines. *)
Lemma splitlines_line (l rest : str) :
  forallb (fun c => negb (is_linebreak c)) l = true ->
  splitlines (l ++ NL :: rest) = l :: splitlines rest.
Proof.
  induction l as [|c l IH]; intros Hl.
  - simpl. destruct rest; reflexivity.
  - simpl in Hl. apply andb_true_iff in Hl as [Hc Hl].
    apply negb_true_iff in Hc.
    change ((c :: l) ++ NL :: rest) with (c :: (l ++ NL :: rest)).
    cbn [splitlines]. rewrite Hc, (IH Hl). reflexivity.
Qed.

Lemma splitlines_unlines (lines : list str) :
  Forall (fun l => forallb (fun c => negb (is_linebreak c)) l = true) lines ->
  splitlines (unlines lines) = lines.
Proof.
  induction 1 as [|l lines Hl _ IH]; [reflexivity|].
  unfold unlines in *. cbn [map concat]. rewrite <- app_assoc.
  cbn [app]. now rewrite splitlines_line, IH.
Qed.

Lemma unlines_app (a b : list str) : unlines (a ++ b) = unlines a ++ unlines b.
Proof. unfold unlines. now rewrite map_app, concat_app. Qed.

(* ================================================================== *)
(** * The point cloud formatter *)
(* ================================================================== *)

Lemma fmt_item_point (p : point) :
  let '(x, y, z) := p in
  fmt_item (point_value p) 0 = Ok (float_repr x)
  /\ fmt_item (point_value p) 1 = Ok (float_repr y)
  /\ fmt_item (point_value p) 2 = Ok (float_repr z).
Proof. destruct p as [[x y] z]. repeat split. Qed.

Lemma pointcloud_line_point (acc : str) (is_last : bool) (name : str) (p : point) :
  pointcloud_line acc (is_last, (name, point_value p))
  = Ok (acc ++ cloud_line (if is_last then "" else ",") name p ++ [NL]).
Proof.
  destruct p as [[x y] z]. unfold pointcloud_line, cloud_line. cbn.
  repeat (rewrite <- ?app_assoc; cbn [app]). reflexivity.
Qed.

(** The loop of the formatter over the items [signal_last] yields. *)
Lemma pointcloud_loop (rest : PointSet) (acc : str) (name : str) (p : point) :
  for_each pointcloud_line acc
    (signal_last_from (name, point_value p) (as_dict rest))
  = Ok (acc ++ unlines (cloud_lines ((name, p) :: rest))).
Proof.
  revert acc name p.
  induction rest as [|[name' p'] rest IH]; intros acc name p.
  - cbn [as_dict map signal_last_from for_each].
    rewrite pointcloud_line_point. cbn [bind cloud_lines unlines map concat].
    now rewrite app_nil_r.
  - cbn [as_dict map signal_last_from for_each fst snd].
    rewrite pointcloud_line_point. cbn [bind].
    change (map (fun kv => (fst kv, point_value (snd kv))) rest)
      with (as_dict rest).
    rewrite IH. f_equal.
    change (cloud_lines ((name, p) :: (name', p') :: rest))
      with (cloud_line "," name p :: cloud_lines ((name', p') :: rest)).
    unfold unlines at 2. cbn [map concat]. fold (unlines (cloud_lines ((name', p') :: rest))).
    now rewrite <- !app_assoc.
Qed.

(** The output of the formatter on a point set that is not empty. *)
Lemma format_pointcloud_nonempty (points : PointSet) :
  points <> [] ->
  format_anyscript_pointcloud (as_dict points) = Ok (unlines (cloud_lines points)).
Proof.
  destruct points as [|[name p] rest]; [congruence|]. intros _.
  unfold format_anyscript_pointcloud. cbn [as_dict map signal_last bind fst snd].
  change (map (fun kv => (fst kv, point_value (snd kv))) rest) with (as_dict rest).
  now rewrite pointcloud_loop.
Qed.

Lemma cloud_lines_length (points : PointSet) :
  length (cloud_lines points) = length points.
Proof.
  induction points as [|[name p] [|q rest] IH]; [reflexivity|reflexivity|].
  change (cloud_lines ((name, p) :: q :: rest))
    with (cloud_line "," name p :: cloud_lines (q :: rest)).
  cbn [length]. now rewrite IH.
Qed.

Lemma cloud_lines_nth (points : PointSet) (i : nat) (name : str) (p : point) :
  nth_error points i = Some (name, p) ->
  nth_error (cloud_lines points) i
  = Some (cloud_line (if (S i <? length points)%nat then "," else "") name p).
Proof.
  revert i. induction points as [|[n0 p0] [|q rest] IH]; intros i H.
  - destruct i; discriminate.
  - destruct i as [|[|i]]; try discriminate. now injection H as -> ->.
  - change (cloud_lines ((n0, p0) :: q :: rest))
      with (cloud_line "," n0 p0 :: cloud_lines (q :: rest)).
    destruct i as [|i].
    + injection H as -> ->. reflexivity.
    + cbn [nth_error] in H |- *. rewrite (IH i H).
      change (length ((n0, p0) :: q :: rest)) with (S (length (q :: rest))).
      reflexivity.
Qed.

Lemma cloud_line_no_linebreak (comma name : str) (p : point) :
  comma = "" \/ comma = "," ->
  forallb (fun c => negb (is_linebreak c)) (cloud_line comma name p) = true.
Proof.
  intros Hc. destruct p as [[x y] z]. unfold cloud_line.
  assert (Hr : forall f, forallb (fun c => negb (is_linebreak c)) (float_repr f) = true).
  { intros f. apply forallb_impl with (p := repr_char); [|apply float_repr_chars].
    intros a Ha. now rewrite (repr_char_not_linebreak a Ha). }
  assert (Hs : forallb (fun c => negb (is_linebreak c)) (sanitize name) = true).
  { apply forallb_impl with (p := word); [|apply sanitize_word].
    intros a Ha. now rewrite (word_not_linebreak a Ha). }
  rewrite !forallb_app, !Hr, Hs.
  destruct Hc as [-> | ->]; reflexivity.
Qed.

Lemma cloud_lines_no_linebreak (points : PointSet) :
  Forall (fun l => forallb (fun c => negb (is_linebreak c)) l = true)
    (cloud_lines points).
Proof.
  induction points as [|[name p] [|q rest] IH].
  - constructor.
  - constructor; [|constructor]. apply cloud_line_no_linebreak. now left.
  - change (cloud_lines ((name, p) :: q :: rest))
      with (cloud_line "," name p :: cloud_lines (q :: rest)).
    constructor; [|exact IH]. apply cloud_line_no_linebreak. now right.
Qed.

(** C9.  For a point set of [n >= 1] points the point cloud output has
    exactly [n] lines.  Line [i] is the brace group of point [i], a comma
    when another point follows and nothing when the point is the last,
    then the comment marker and the sanitized name: the first [n - 1]
    lines carry the comma between the closing brace and the comment
    marker, the last line does not. *)
Theorem C9_pointcloud_trailing_comma (points : PointSet) (Hne : points <> []) :
  exists (out : str) (lines : list str),
    format_anyscript_pointcloud (as_dict points) = Ok out
    /\ splitlines out = lines
    /\ length lines = length points
    /\ forall i name x y z,
         nth_error points i = Some (name, (x, y, z)) ->
         exists comma,
           nth_error lines i
           = Some ("{" ++ float_repr x ++ ", " ++ float_repr y ++ ", "
                   ++ float_repr z ++ "}" ++ comma ++ " // " ++ sanitize name
                   ++ " ")
           /\ (S i < length points -> comma = ",")
           /\ (S i = length points -> comma = "").
Proof.
  exists (unlines (cloud_lines points)), (cloud_lines points).
  split; [now apply format_pointcloud_nonempty|].
  split; [apply splitlines_unlines, cloud_lines_no_linebreak|].
  split; [apply cloud_lines_length|].
  intros i name x y z Hi.
  exists (if (S i <? length points)%nat then "," else "").
  split; [exact (cloud_lines_nth points i name (x, y, z) Hi)|].
  split; intros H.
  - apply Nat.ltb_lt in H. now rewrite H.
  - assert (H' : (S i <? length points)%nat = false)
      by (apply Nat.ltb_ge; lia).
    now rewrite H'.
Qed.

Lemma C9_witness :
  exists (out : str) (lines : list str),
    format_anyscript_pointcloud
      (as_dict [("P 1", (Finite false [d1] 1, Finite true [d2; d5] 1, NaN));
                ("Q", (Finite false [d3] (-4), Finite false [] 0,
                       Finite false [d1] 17))]) = Ok out
    /\ splitlines out = lines
    /\ length lines = 2
    /\ forall i name x y z,
         nth_error
           [("P 1", (Finite false [d1] 1, Finite true [d2; d5] 1, NaN));
            ("Q", (Finite false [d3] (-4), Finite false [] 0,
                   Finite false [d1] 17))] i = Some (name, (x, y, z)) ->
         exists comma,
           nth_error lines i
           = Some ("{" ++ float_repr x ++ ", " ++ float_repr y ++ ", "
                   ++ float_repr z ++ "}" ++ comma ++ " // " ++ sanitize name
                   ++ " ")
           /\ (S i < 2 -> comma = ",")
           /\ (S i = 2 -> comma = "").
Proof.
  apply (C9_pointcloud_trailing_comma
           [("P 1", (Finite false [d1] 1, Finite true [d2; d5] 1, NaN));
            ("Q", (Finite false [d3] (-4), Finite false [] 0,
                   Finite false [d1] 17))]).
  discriminate.
Defined.

(** C10.  On the empty point set the point cloud formatter returns no
    string: [signal_last] asks its input for a first item, and the request
    fails, which surfaces as a [RuntimeError].  On every point set that is
    not empty the formatter returns a string. *)
Theorem C10_pointcloud_total_on_nonempty :
  signal_last (as_dict []) = Raise (RuntimeError "generator raised StopIteration")
  /\ format_anyscript_pointcloud (as_dict [])
     = Raise (RuntimeError "generator raised StopIteration")
  /\ forall points : PointSet,
       points <> [] ->
       exists out, format_anyscript_pointcloud (as_dict points) = Ok out.
Proof.
  split; [reflexivity|]. split; [reflexivity|].
  intros points Hne. eexists. now apply format_pointcloud_nonempty.
Qed.

Lemma C10_witness :
  exists out,
    format_anyscript_pointcloud
      (as_dict [("P1", (Finite false [d1] 1, Finite false [d2] 1,
                        Finite false [d3] 1))]) = Ok out.
Proof.
  apply (proj2 (proj2 C10_pointcloud_total_on_nonempty)
           [("P1", (Finite false [d1] 1, Finite false [d2] 1,
                    Finite false [d3] 1))]).
  discriminate.
Defined.

(* ================================================================== *)
(** * The name sanitizer *)
(* ================================================================== *)

Lemma sanitize_char_idempotent (c : ascii) :
  sanitize_char (sanitize_char c) = sanitize_char c.
Proof. each_char c; vm_compute; reflexivity. Qed.

Lemma ascii_alnum_isalnum (c : ascii) :
  is_ascii_alnum c = true -> isalnum c = true.
Proof. each_char c; vm_compute; congruence. Qed.

(** C8, as the claim states it, at the name made of the letter U+00E9
    (e with acute accent): the character is no ASCII letter or digit, and
    the sanitizer keeps it. *)
Lemma C8_counterexample :
  is_ascii_alnum (chr 233) = false
  /\ sanitize [chr 233] = [chr 233]
  /\ sanitize [chr 233] <> "_".
Proof. repeat split. discriminate. Qed.

(** C8, amended.  The sanitizer maps every character on its own: a
    character that [str.isalnum] accepts is kept, every other character
    becomes an underscore.  The ASCII letters and digits are among the
    characters kept, and so are the letters and numeric characters beyond
    ASCII.  Sanitizing a sanitized name changes nothing. *)
Theorem C8_sanitize_per_character (name : str) :
  length (sanitize name) = length name
  /\ (forall i c,
        nth_error name i = Some c ->
        nth_error (sanitize name) i = Some (if isalnum c then c else "_"%char))
  /\ (forall c, is_ascii_alnum c = true -> sanitize [c] = [c])
  /\ sanitize (sanitize name) = sanitize name.
Proof.
  split; [apply length_map|].
  split.
  { intros i c H. unfold sanitize. now rewrite nth_error_map, H. }
  split.
  { intros c H. unfold sanitize, sanitize_char. cbn.
    now rewrite (ascii_alnum_isalnum c H). }
  unfold sanitize. rewrite map_map. apply map_ext.
  intros c. apply sanitize_char_idempotent.
Qed.

(* ================================================================== *)
(** * The literal parser on the two texts of the specification *)
(* ================================================================== *)

(** C6.  The literal parser turns the text [{1.0, nan, 3.0}] into an array
    of three floats: the first is the float of the text [1.0], the third
    the float of [3.0], and the second is a NaN.  No error is raised and no
    element is a string. *)
Theorem C6_nan_literal :
  exists x y z,
    _parse_anyscript "{1.0, nan, 3.0}" = Ok (VArray [VFloat x; VFloat y; VFloat z])
    /\ float_of_str "1.0" = Some x
    /\ isnan y = true
    /\ float_of_str "3.0" = Some z.
Proof.
  exists (Finite false [d1] 1), NaN, (Finite false [d3] 1).
  repeat split; vm_compute; reflexivity.
Qed.

(** C7.  The literal parser turns the text [[...]] into the string [...]
    and raises no error. *)
Theorem C7_ellipsis_placeholder :
  _parse_anyscript "[...]" = Ok (VStr "...").
Proof. vm_compute. reflexivity. Qed.

(* ================================================================== *)
(** * The pick-points reader *)
(* ================================================================== *)

Lemma str_eqb_neq (s t : str) : s <> t -> str_eqb s t = false.
Proof. intros H. unfold str_eqb. now destruct (list_eq_dec ascii_dec s t). Qed.

Lemma dict_get_set_same {V : Type} (k : str) (v : V) (d : dict V) :
  dict_get k (dict_set k v d) = Some v.
Proof.
  induction d as [|[k' v'] d IH]; cbn [dict_set dict_get].
  - unfold str_eqb. now destruct (list_eq_dec ascii_dec k k).
  - destruct (str_eqb k k') eqn:E; cbn [dict_get]; now rewrite E.
Qed.

Lemma dict_get_set_other {V : Type} (k k' : str) (v : V) (d : dict V) :
  k <> k' -> dict_get k' (dict_set k v d) = dict_get k' d.
Proof.
  intros Hk. induction d as [|[k0 v0] d IH]; cbn [dict_set dict_get].
  - rewrite str_eqb_neq by congruence. reflexivity.
  - destruct (str_eqb k k0) eqn:E; cbn [dict_get]; [|now rewrite IH].
    unfold str_eqb in E. destruct (list_eq_dec ascii_dec k k0) as [<-|]; [|discriminate].
    rewrite str_eqb_neq by congruence. reflexivity.
Qed.

Lemma for_each_app {A S : Type} (body : S -> A -> result S) (s : S)
    (l1 l2 : list A) :
  for_each body s (l1 ++ l2)
  = let* s' := for_each body s l1 in for_each body s' l2.
Proof.
  revert s. induction l1 as [|a l1 IH]; intros s; [reflexivity|].
  cbn [app for_each]. destruct (body s a) as [s'|e]; cbn [bind]; [apply IH|reflexivity].
Qed.

(** On a well-formed text the reader is the loop over the point
    elements. *)
Lemma parse_pp_file_wellformed (data : str) (root : element) :
  fromstring data = Ok root ->
  parse_pp_file data = for_each parse_pp_point [] (iter "point" root).
Proof. intros H. unfold parse_pp_file. now rewrite H. Qed.

Lemma parse_pp_file_malformed (data : str) (e : str) :
  fromstring data = Raise (ParseError e) ->
  parse_pp_file data = Raise (ValueError ("Could not parse XML file: " ++ e)).
Proof. intros H. unfold parse_pp_file. now rewrite H. Qed.

(** A point element whose [x] does not read as a float leaves the
    dictionary as it is. *)
Lemma parse_pp_point_bad_x (allpoints : dict pyval) (elem : element) (sx : str) :
  lookup "x" (attrib elem) = Some sx ->
  float_of_str sx = None ->
  parse_pp_point allpoints elem = Ok allpoints.
Proof.
  intros Hx Hf. unfold parse_pp_point, float_attr. now rewrite Hx, Hf.
Qed.

(** The body of the loop returns a dictionary or raises a [KeyError] for
    one of the four attributes it reads. *)
Lemma parse_pp_point_outcome (allpoints : dict pyval) (elem : element) :
  (exists d, parse_pp_point allpoints elem = Ok d)
  \/ (exists k, In k ["x"; "y"; "z"; "name"]
                /\ parse_pp_point allpoints elem = Raise (KeyError k)).
Proof.
  unfold parse_pp_point, float_attr.
  destruct (lookup "x" (attrib elem)) as [sx|];
    [|right; exists "x"; split; [simpl; tauto|reflexivity]].
  destruct (float_of_str sx) as [x|]; [|left; now eexists].
  destruct (lookup "y" (attrib elem)) as [sy|];
    [|right; exists "y"; split; [simpl; tauto|reflexivity]].
  destruct (float_of_str sy) as [y|]; [|left; now eexists].
  destruct (lookup "z" (attrib elem)) as [sz|];
    [|right; exists "z"; split; [simpl; tauto|reflexivity]].
  destruct (float_of_str sz) as [z|]; [|left; now eexists].
  cbn.
  destruct (lookup "name" (attrib elem)) as [n|];
    [left; now eexists|right; exists "name"; split; [simpl; tauto|reflexivity]].
Qed.

Lemma parse_pp_point_complete (allpoints : dict pyval) (elem : element) :
  (forall k, In k ["x"; "y"; "z"; "name"] -> lookup k (attrib elem) <> None) ->
  exists d, parse_pp_point allpoints elem = Ok d.
Proof.
  intros H.
  destruct (parse_pp_point_outcome allpoints elem) as [Hok|(k & Hk & Hr)];
    [exact Hok|exfalso].
  revert Hr. unfold parse_pp_point, float_attr.
  pose proof (H "x" ltac:(simpl; tauto)) as Hx.
  pose proof (H "y" ltac:(simpl; tauto)) as Hy.
  pose proof (H "z" ltac:(simpl; tauto)) as Hz.
  pose proof (H "name" ltac:(simpl; tauto)) as Hn.
  destruct (lookup "x" (attrib elem)) as [sx|]; [|congruence].
  destruct (float_of_str sx); [|discriminate].
  destruct (lookup "y" (attrib elem)) as [sy|]; [|congruence].
  destruct (float_of_str sy); [|discriminate].
  destruct (lookup "z" (attrib elem)) as [sz|]; [|congruence].
  destruct (float_of_str sz); [|discriminate].
  cbn. destruct (lookup "name" (attrib elem)); [discriminate|congruence].
Qed.

Lemma parse_pp_loop_outcome (elems : list element) (allpoints : dict pyval) :
  (exists d, for_each parse_pp_point allpoints elems = Ok d)
  \/ (exists k, In k ["x"; "y"; "z"; "name"]
                /\ for_each parse_pp_point allpoints elems = Raise (KeyError k)).
Proof.
  revert allpoints. induction elems as [|e elems IH]; intros allpoints.
  - left. now eexists.
  - cbn [for_each].
    destruct (parse_pp_point_outcome allpoints e) as [(d & ->)|(k & Hk & ->)].
    + apply IH.
    + right. now exists k.
Qed.

Lemma parse_pp_loop_complete (elems : list element) (allpoints : dict pyval) :
  (forall elem, In elem elems ->
     forall k, In k ["x"; "y"; "z"; "name"] -> lookup k (attrib elem) <> None) ->
  exists d, for_each parse_pp_point allpoints elems = Ok d.
Proof.
  revert allpoints. induction elems as [|e elems IH]; intros allpoints H.
  - now eexists.
  - cbn [for_each].
    destruct (parse_pp_point_complete allpoints e) as (d & ->).
    { apply H. now left. }
    apply IH. intros elem He. apply H. now right.
Qed.

(** The body of the loop changes no entry of another name than that of
    the element. *)
Lemma parse_pp_point_keys (allpoints d : dict pyval) (elem : element) (name : str) :
  parse_pp_point allpoints elem = Ok d ->
  lookup "name" (attrib elem) <> Some name ->
  dict_get name d = dict_get name allpoints.
Proof.
  unfold parse_pp_point, float_attr. intros H Hn. revert H.
  destruct (lookup "x" (attrib elem)) as [sx|]; [|discriminate].
  destruct (float_of_str sx) as [x|]; [|now intros [= <-]].
  destruct (lookup "y" (attrib elem)) as [sy|]; [|discriminate].
  destruct (float_of_str sy) as [y|]; [|now intros [= <-]].
  destruct (lookup "z" (attrib elem)) as [sz|]; [|discriminate].
  destruct (float_of_str sz) as [z|]; [|now intros [= <-]].
  cbn. destruct (lookup "name" (attrib elem)) as [n|]; [|discriminate].
  intros [= <-]. apply dict_get_set_other. congruence.
Qed.

Lemma parse_pp_loop_keys (elems : list element) (allpoints d : dict pyval)
    (name : str) :
  for_each parse_pp_point allpoints elems = Ok d ->
  (forall elem, In elem elems -> lookup "name" (attrib elem) <> Some name) ->
  dict_get name d = dict_get name allpoints.
Proof.
  revert allpoints. induction elems as [|e elems IH]; intros allpoints H Hn.
  - now injection H as <-.
  - cbn [for_each] in H.
    destruct (parse_pp_point allpoints e) as [d0|] eqn:E; [|discriminate].
    cbn [bind] in H. rewrite (IH d0 H) by (intros elem He; apply Hn; now right).
    apply (parse_pp_point_keys _ _ _ _ E), Hn. now left.
Qed.

(** A [KeyError] of the body of the loop names an attribute that the
    element does not have. *)
Lemma parse_pp_point_key_error (allpoints : dict pyval) (elem : element) (k : str) :
  parse_pp_point allpoints elem = Raise (KeyError k) ->
  lookup k (attrib elem) = None.
Proof.
  unfold parse_pp_point, float_attr.
  destruct (lookup "x" (attrib elem)) as [sx|] eqn:Ex; [|now intros [= <-]].
  destruct (float_of_str sx) as [x|]; [|discriminate].
  destruct (lookup "y" (attrib elem)) as [sy|] eqn:Ey; [|now intros [= <-]].
  destruct (float_of_str sy) as [y|]; [|discriminate].
  destruct (lookup "z" (attrib elem)) as [sz|] eqn:Ez; [|now intros [= <-]].
  destruct (float_of_str sz) as [z|]; [|discriminate].
  cbn. destruct (lookup "name" (attrib elem)) as [n|] eqn:En; [discriminate|].
  now intros [= <-].
Qed.

Lemma parse_pp_loop_key_error (elems : list element) (allpoints : dict pyval)
    (k : str) :
  for_each parse_pp_point allpoints elems = Raise (KeyError k) ->
  exists elem, In elem elems /\ lookup k (attrib elem) = None.
Proof.
  revert allpoints. induction elems as [|e elems IH]; intros allpoints H;
    [discriminate|].
  cbn [for_each] in H.
  destruct (parse_pp_point allpoints e) as [d0|e0] eqn:E.
  - destruct (IH d0 H) as (elem & He & Hk). exists elem. split; [now right|exact Hk].
  - cbn [bind] in H. rewrite H in E. exists e. split; [now left|].
    exact (parse_pp_point_key_error _ _ _ E).
Qed.

(** C5, as the claim states it, at two well-formed documents that hold
    the point [Q] of the claim, whose [x] does not read as a float.  In
    the first a second point has the name [Q] and coordinates that read:
    the result has an entry for [Q].  In the second a point element
    without attributes follows: the reader raises a [KeyError]. *)
Lemma C5_counterexample :
  fromstring
    ("<PickedPoints>"
     ++ "<point x=" ++ [DQ] ++ "a" ++ [DQ] ++ " y=" ++ [DQ] ++ "1" ++ [DQ]
     ++ " z=" ++ [DQ] ++ "2" ++ [DQ] ++ " name=" ++ [DQ] ++ "Q" ++ [DQ] ++ "/>"
     ++ "<point x=" ++ [DQ] ++ "4" ++ [DQ] ++ " y=" ++ [DQ] ++ "5" ++ [DQ]
     ++ " z=" ++ [DQ] ++ "6" ++ [DQ] ++ " name=" ++ [DQ] ++ "Q" ++ [DQ] ++ "/>"
     ++ "</PickedPoints>")
  = Ok (Element "PickedPoints" []
          [Element "point" [("x", "a"); ("y", "1"); ("z", "2"); ("name", "Q")] [];
           Element "point" [("x", "4"); ("y", "5"); ("z", "6"); ("name", "Q")] []])
  /\ parse_pp_file
       ("<PickedPoints>"
        ++ "<point x=" ++ [DQ] ++ "a" ++ [DQ] ++ " y=" ++ [DQ] ++ "1" ++ [DQ]
        ++ " z=" ++ [DQ] ++ "2" ++ [DQ] ++ " name=" ++ [DQ] ++ "Q" ++ [DQ] ++ "/>"
        ++ "<point x=" ++ [DQ] ++ "4" ++ [DQ] ++ " y=" ++ [DQ] ++ "5" ++ [DQ]
        ++ " z=" ++ [DQ] ++ "6" ++ [DQ] ++ " name=" ++ [DQ] ++ "Q" ++ [DQ] ++ "/>"
        ++ "</PickedPoints>")
     = Ok [("Q", VArray [VFloat (Finite false [d4] 1);
                         VFloat (Finite false [d5] 1);
                         VFloat (Finite false [d6] 1)])]
  /\ fromstring
       ("<PickedPoints>"
        ++ "<point x=" ++ [DQ] ++ "a" ++ [DQ] ++ " y=" ++ [DQ] ++ "1" ++ [DQ]
        ++ " z=" ++ [DQ] ++ "2" ++ [DQ] ++ " name=" ++ [DQ] ++ "Q" ++ [DQ] ++ "/>"
        ++ "<point/>"
        ++ "</PickedPoints>")
     = Ok (Element "PickedPoints" []
             [Element "point" [("x", "a"); ("y", "1"); ("z", "2"); ("name", "Q")] [];
              Element "point" [] []])
  /\ parse_pp_file
       ("<PickedPoints>"
        ++ "<point x=" ++ [DQ] ++ "a" ++ [DQ] ++ " y=" ++ [DQ] ++ "1" ++ [DQ]
        ++ " z=" ++ [DQ] ++ "2" ++ [DQ] ++ " name=" ++ [DQ] ++ "Q" ++ [DQ] ++ "/>"
        ++ "<point/>"
        ++ "</PickedPoints>")
     = Raise (KeyError "x").
Proof. repeat split; vm_compute; reflexivity. Qed.

(** C5, amended.  In a well-formed document, a point element whose [x]
    attribute does not read as a float is passed over: the reader returns
    or raises what the loop does on the other point elements alone.  It
    returns a point set when each of the other point elements has the
    attributes [x], [y], [z] and [name]; a [KeyError] names an attribute
    that one of the other point elements lacks.  The point set has no
    entry for a name that none of the other point elements has, so none
    for the name of the point passed over unless another point element
    has the same name. *)
Theorem C5_malformed_point_dropped (data : str) (root : element)
    (before after : list element) (elem : element) (sx : str)
    (Hroot : fromstring data = Ok root)
    (Hiter : iter "point" root = before ++ elem :: after)
    (Hx : lookup "x" (attrib elem) = Some sx)
    (Hbad : float_of_str sx = None) :
  parse_pp_file data = for_each parse_pp_point [] (before ++ after)
  /\ ((forall other, In other (before ++ after) ->
         forall k, In k ["x"; "y"; "z"; "name"] ->
           lookup k (attrib other) <> None) ->
      exists points, parse_pp_file data = Ok points)
  /\ (forall k, parse_pp_file data = Raise (KeyError k) ->
        exists other, In other (before ++ after) /\ lookup k (attrib other) = None)
  /\ (forall points name,
        parse_pp_file data = Ok points ->
        (forall other, In other (before ++ after) ->
           lookup "name" (attrib other) <> Some name) ->
        dict_get name points = None).
Proof.
  assert (E : parse_pp_file data = for_each parse_pp_point [] (before ++ after)).
  { rewrite (parse_pp_file_wellformed data root Hroot), Hiter.
    rewrite !for_each_app. destruct (for_each parse_pp_point [] before) as [d|e];
      cbn [bind]; [|reflexivity].
    cbn [for_each]. now rewrite (parse_pp_point_bad_x d elem sx Hx Hbad). }
  rewrite E. split; [reflexivity|]. split; [|split].
  - apply parse_pp_loop_complete.
  - apply parse_pp_loop_key_error.
  - intros points name Hp Hn.
    now rewrite (parse_pp_loop_keys _ _ _ name Hp Hn).
Qed.

Lemma C5_witness :
  exists points,
    parse_pp_file
      ("<point x=" ++ [DQ] ++ "a" ++ [DQ] ++ " y=" ++ [DQ] ++ "1" ++ [DQ]
       ++ " z=" ++ [DQ] ++ "2" ++ [DQ] ++ " name=" ++ [DQ] ++ "Q" ++ [DQ] ++ "/>")
    = Ok points
    /\ points = []
    /\ dict_get "Q" points = None.
Proof.
  destruct (C5_malformed_point_dropped
              ("<point x=" ++ [DQ] ++ "a" ++ [DQ] ++ " y=" ++ [DQ] ++ "1" ++ [DQ]
               ++ " z=" ++ [DQ] ++ "2" ++ [DQ] ++ " name=" ++ [DQ] ++ "Q" ++ [DQ]
               ++ "/>")
              (Element "point" [("x", "a"); ("y", "1"); ("z", "2"); ("name", "Q")] [])
              [] []
              (Element "point" [("x", "a"); ("y", "1"); ("z", "2"); ("name", "Q")] [])
              "a" eq_refl eq_refl eq_refl eq_refl)
    as (Hsame & Hok & _ & Hname).
  destruct Hok as [points Hp]; [intros other []|].
  exists points. split; [exact Hp|]. split.
  - rewrite Hsame in Hp. now injection Hp.
  - apply (Hname points "Q" Hp). intros other [].
Defined.

(** Case analysis on the innermost scrutinee of the goal. *)
Ltac break_match :=
  match goal with
  | |- context [match ?x with _ => _ end] =>
      lazymatch x with
      | context [match _ with _ => _ end] => fail
      | _ => destruct x; cbv beta iota
      end
  end.

Lemma step_raises (st : state) (c : ascii) (e : exn) :
  step st c = Raise e -> xml_exn e.
Proof.
  unfold step, tag_tail, bad_markup, open_element, empty_element,
    end_element, check_attrs, bind.
  destruct (st_mode st); cbv beta iota;
    repeat break_match; intros H; inversion H; exact I.
Qed.

Lemma run_raises (s : str) (st : state) (e : exn) :
  run st s = Raise e -> xml_exn e.
Proof.
  revert st. induction s as [|c s IH]; intros st; cbn [run]; [discriminate|].
  destruct (step st c) as [st'|e'] eqn:E; cbn [bind].
  - apply IH.
  - intros H. injection H as <-. exact (step_raises st c e' E).
Qed.

Lemma fromstring_raises (data : str) (e : exn) :
  fromstring data = Raise e -> xml_exn e.
Proof.
  unfold fromstring. destruct (run initial data) as [st|e'] eqn:E; cbn [bind].
  - unfold finish. repeat break_match; intros H; inversion H; exact I.
  - intros H. injection H as <-. exact (run_raises data initial e' E).
Qed.

(** C4, as the claim states it, at the well-formed document [<point/>]:
    the reader raises a [KeyError] for the attribute [x]. *)
Lemma C4_counterexample :
  fromstring "<point/>" = Ok (Element "point" [] [])
  /\ parse_pp_file "<point/>" = Raise (KeyError "x").
Proof. split; reflexivity. Qed.

(** C4, amended.  The reader raises a [ValueError] exactly when the text
    is not well-formed XML, and the message is then the diagnostic of the
    XML parser after the words [Could not parse XML file: ].  On a
    well-formed text it returns a point set when every point element has
    the attributes [x], [y], [z] and [name]; in general it returns a point
    set or raises a [KeyError] for one of these four attributes. *)
Theorem C4_parse_pp_file_errors (data : str) :
  (forall e, fromstring data = Raise (ParseError e) ->
     parse_pp_file data = Raise (ValueError ("Could not parse XML file: " ++ e)))
  /\ ((exists msg, parse_pp_file data = Raise (ValueError msg))
      <-> (exists e, fromstring data = Raise (ParseError e)))
  /\ (forall root, fromstring data = Ok root ->
        ((exists points, parse_pp_file data = Ok points)
         \/ (exists k, In k ["x"; "y"; "z"; "name"]
                       /\ parse_pp_file data = Raise (KeyError k)))
        /\ ((forall elem, In elem (iter "point" root) ->
               forall k, In k ["x"; "y"; "z"; "name"] ->
               lookup k (attrib elem) <> None) ->
            exists points, parse_pp_file data = Ok points)).
Proof.
  split; [apply parse_pp_file_malformed|]. split.
  - split.
    + intros (msg & H). destruct (fromstring data) as [root|e] eqn:E.
      * rewrite (parse_pp_file_wellformed data root E) in H.
        destruct (parse_pp_loop_outcome (iter "point" root) [])
          as [(d & Hd)|(k & _ & Hk)]; congruence.
      * pose proof (fromstring_raises data e E) as He.
        destruct e; try contradiction.
        -- now eexists.
        -- unfold parse_pp_file in H. rewrite E in H. discriminate.
    + intros (e & H). eexists. exact (parse_pp_file_malformed data e H).
  - intros root E. rewrite (parse_pp_file_wellformed data root E). split.
    + apply parse_pp_loop_outcome.
    + apply parse_pp_loop_complete.
Qed.

Lemma C4_witness :
  exists points,
    parse_pp_file "<a><point x='1.5' y='2' z='3' name='n'/></a>" = Ok points.
Proof.
  apply (proj2 (proj2 (proj2
           (C4_parse_pp_file_errors "<a><point x='1.5' y='2' z='3' name='n'/></a>"))
           (Element "a" []
              [Element "point" [("x", "1.5"); ("y", "2"); ("z", "3"); ("name", "n")] []])
           eq_refl)).
  intros elem [<-|[]] k [<-|[<-|[<-|[<-|[]]]]]; discriminate.
Defined.

(* ================================================================== *)
(** * The line pattern *)
(* ================================================================== *)

(** A repetition takes the whole run of its class when the rest of the
    pattern matches after it. *)
Lemma star_greedy {R : Type} (p : ascii -> bool) (k : str -> option R)
    (a b : str) (v : R) :
  forallb p a = true ->
  head_is p b = false ->
  k b = Some v ->
  star p (a ++ b) k = Some v.
Proof.
  intros Ha Hb Hk. induction a as [|c a IH].
  - destruct b as [|c b]; [exact Hk|]. cbn in Hb |- *. now rewrite Hb.
  - cbn in Ha. apply andb_true_iff in Ha as [Hc Ha].
    cbn. now rewrite Hc, (IH Ha).
Qed.

Lemma star_all {R : Type} (p : ascii -> bool) (k : str -> option R)
    (a : str) (v : R) :
  forallb p a = true -> k [] = Some v -> star p a k = Some v.
Proof.
  intros Ha Hk. rewrite <- (app_nil_r a).
  now apply star_greedy.
Qed.

(** A repetition fails when the rest of the pattern fails wherever the
    repetition may stop. *)
Lemma star_none {R : Type} (p : ascii -> bool) (k : str -> option R) (t : str) :
  (forall u w, t = u ++ w -> k w = None) ->
  star p t k = None.
Proof.
  induction t as [|c t IH]; intros H.
  - exact (H [] [] eq_refl).
  - cbn. rewrite IH.
    + rewrite (H [] (c :: t) eq_refl). now destruct (p c).
    + intros u w ->. exact (H (c :: u) w eq_refl).
Qed.

(** A repetition gives back the characters after the last place where the
    rest of the pattern matches. *)
Lemma star_until_last {R : Type} (p : ascii -> bool) (k : str -> option R)
    (a t : str) (v : R) :
  forallb p a = true ->
  (forall u w, t = u ++ w -> u <> [] -> k w = None) ->
  k t = Some v ->
  star p (a ++ t) k = Some v.
Proof.
  intros Ha Ht Hk. induction a as [|c a IH].
  - cbn [app]. destruct t as [|c t]; [exact Hk|].
    cbn. rewrite star_none.
    + rewrite Hk. now destruct (p c).
    + intros u w ->. apply (Ht (c :: u) w eq_refl). discriminate.
  - cbn in Ha. apply andb_true_iff in Ha as [Hc Ha].
    cbn. now rewrite Hc, (IH Ha).
Qed.

Lemma firstn_length_diff {A : Type} (a b : list A) :
  firstn (length (a ++ b) - length b) (a ++ b) = a.
Proof.
  rewrite length_app, Nat.add_sub. rewrite firstn_app, Nat.sub_diag.
  cbn [firstn]. now rewrite firstn_all, app_nil_r.
Qed.

(** The longest prefix of [w] in a class. *)
Lemma split_class (p : ascii -> bool) (w : str) :
  exists a b, w = a ++ b /\ forallb p a = true /\ head_is p b = false.
Proof.
  induction w as [|c w (a & b & -> & Ha & Hb)].
  - now exists [], [].
  - destruct (p c) eqn:Hc.
    + exists (c :: a), b. cbn. now rewrite Hc, Ha.
    + exists [], (c :: a ++ b). cbn. now rewrite Hc.
Qed.

Lemma word_not_space (c : ascii) : word c = true -> isspace c = false.
Proof. each_char c; vm_compute; congruence. Qed.

Lemma space_nonword (c : ascii) : isspace c = true -> nonword c = true.
Proof. each_char c; vm_compute; congruence. Qed.

Lemma head_is_app (p : ascii -> bool) (b name : str) :
  head_is p b = false ->
  head_is p name = false ->
  head_is p (b ++ name) = false.
Proof. destruct b; trivial. Qed.

Lemma starts_word_head (p : ascii -> bool) (name : str) :
  (forall c, word c = true -> p c = false) ->
  starts_word name -> head_is p name = false.
Proof. intros H. destruct name as [|c name]; cbn; auto. Qed.

Lemma rmatch_seq {R : Type} (r1 r2 : regex) (s : str) (c : captures)
    (k : str -> captures -> option R) :
  rmatch (Seq r1 r2) s c k = rmatch r1 s c (fun s' c' => rmatch r2 s' c' k).
Proof. reflexivity. Qed.

Lemma rmatch_opt {R : Type} (r : regex) (s : str) (c : captures)
    (k : str -> captures -> option R) :
  rmatch (Opt r) s c k
  = match rmatch r s c k with
    | Some x => Some x
    | None => k s c
    end.
Proof. reflexivity. Qed.

Lemma chr_fails {R : Type} (p : ascii -> bool) (s : str) (c : captures)
    (k : str -> captures -> option R) :
  head_is p s = false -> rmatch (Chr p) s c k = None.
Proof. destruct s as [|a s]; cbn; [reflexivity|]. now intros ->. Qed.

Lemma forallb_app_r {A : Type} (p : A -> bool) (a b : list A) :
  forallb p (a ++ b) = true -> forallb p b = true.
Proof. rewrite forallb_app. intros H. now apply andb_true_iff in H. Qed.

Lemma word_not_slash (c : ascii) : word c = true -> is_char "/" c = false.
Proof. each_char c; vm_compute; congruence. Qed.

Lemma word_not_comma (c : ascii) : word c = true -> is_char "," c = false.
Proof. each_char c; vm_compute; congruence. Qed.

Section LineTail.

(** What the pattern does after the closing brace of group 1: whatever
    stands between the brace and the first word character is passed over,
    and group 2 is the rest of the line. *)
Variable name : str.
Variable c0 : captures.
Hypothesis name_word : starts_word name.
Hypothesis name_dot : forallb dot name = true.

Lemma group2_rest :
  rmatch (Group 2 (Star dot)) name c0 accept = Some ((2, name) :: c0, []).
Proof.
  cbn [rmatch]. apply star_all; [exact name_dot|].
  unfold accept. cbn [length]. now rewrite Nat.sub_0_r, firstn_all.
Qed.

Lemma tail5_skips (w : str) :
  forallb nonword w = true ->
  rmatch tail5 (w ++ name) c0 accept = Some ((2, name) :: c0, []).
Proof.
  intros Hw. unfold tail5. cbn [rmatch].
  eapply star_greedy; [exact Hw| |exact group2_rest].
  apply starts_word_head; [|exact name_word].
  intros c Hc. unfold nonword. now rewrite Hc.
Qed.

(** An optional character before a part that passes over it anyway. *)
Lemma opt_skips (a : ascii) (r : regex) :
  nonword a = true ->
  (forall c, word c = true -> is_char a c = false) ->
  (forall w, forallb nonword w = true ->
     rmatch r (w ++ name) c0 accept = Some ((2, name) :: c0, [])) ->
  forall w, forallb nonword w = true ->
    rmatch (Seq (Opt (Chr (is_char a))) r) (w ++ name) c0 accept
    = Some ((2, name) :: c0, []).
Proof.
  intros Ha Hword Hr w Hw. rewrite rmatch_seq, rmatch_opt.
  destruct w as [|c w].
  - cbn [app]. rewrite chr_fails.
    + exact (Hr [] eq_refl).
    + now apply starts_word_head.
  - cbn [app rmatch]. cbn in Hw. apply andb_true_iff in Hw as [Hc Hw].
    destruct (is_char a c).
    + now rewrite (Hr w Hw).
    + apply (Hr (c :: w)). cbn. now rewrite Hc, Hw.
Qed.

(** White space before a part that passes over it anyway. *)
Lemma spaces_skip (r : regex) :
  (forall w, forallb nonword w = true ->
     rmatch r (w ++ name) c0 accept = Some ((2, name) :: c0, [])) ->
  forall w, forallb nonword w = true ->
    rmatch (Seq (Star isspace) r) (w ++ name) c0 accept
    = Some ((2, name) :: c0, []).
Proof.
  intros Hr w Hw. cbn [rmatch].
  destruct (split_class isspace w) as (a & b & -> & Ha & Hb).
  rewrite <- app_assoc.
  eapply star_greedy; [exact Ha| |].
  - apply head_is_app; [exact Hb|].
    apply starts_word_head; [apply word_not_space|exact name_word].
  - apply Hr. exact (forallb_app_r _ _ _ Hw).
Qed.

Lemma tail1_skips (w : str) :
  forallb nonword w = true ->
  rmatch tail1 (w ++ name) c0 accept = Some ((2, name) :: c0, []).
Proof.
  revert w. unfold tail1, tail2, tail3, tail4.
  apply spaces_skip, opt_skips; [reflexivity|apply word_not_comma|].
  apply spaces_skip, opt_skips; [reflexivity|apply word_not_slash|].
  exact tail5_skips.
Qed.

End LineTail.

Lemma tail1_is_tail :
  ANYSCRIPT_POINT_LINE
  = Seq (Plus isspace)
      (Seq (Group 1 (Seq (Chr (is_char "{")) (Seq (Plus dot) (Chr (is_char "}")))))
         tail1).
Proof. reflexivity. Qed.

(** The match of the line pattern on a line that starts with white space:
    group 1 runs from the first brace to the last closing brace of the
    line, group 2 starts at the first word character after that brace. *)
Lemma line_matches (ws body sep name : str) :
  ws <> [] -> forallb isspace ws = true ->
  body <> [] -> forallb dot body = true ->
  forallb nonword sep = true -> no_brace sep = true ->
  starts_word name -> forallb dot name = true -> no_brace name = true ->
  re_match ANYSCRIPT_POINT_LINE (ws ++ "{" ++ body ++ "}" ++ sep ++ name)
  = Some ([(2, name); (1, "{" ++ body ++ "}")], []).
Proof.
  intros Hws Hws' Hbody Hbody' Hsep Hsep' Hname Hname' Hname''.
  destruct ws as [|w0 ws]; [congruence|].
  destruct body as [|b0 body]; [congruence|].
  cbn in Hws', Hbody'.
  apply andb_true_iff in Hws' as [Hw0 Hws'].
  apply andb_true_iff in Hbody' as [Hb0 Hbody'].
  unfold re_match. rewrite tail1_is_tail, rmatch_seq.
  cbn [rmatch app]. rewrite Hw0.
  eapply star_greedy; [exact Hws'|reflexivity|].
  cbn [rmatch app is_char]. rewrite Ascii.eqb_refl, Hb0.
  assert (E1 : "{"%char :: b0 :: body ++ "}"%char :: sep ++ name
               = ("{"%char :: b0 :: body ++ ["}"%char]) ++ sep ++ name)
    by (cbn; now rewrite <- app_assoc).
  eapply star_until_last; [exact Hbody'| |].
  - intros u w E Hu. destruct u as [|c u]; [congruence|].
    injection E as _ E.
    assert (Hw : no_brace w = true).
    { apply (forallb_app_r _ u). rewrite <- E. unfold no_brace in *.
      rewrite forallb_app. now rewrite Hsep', Hname''. }
    destruct w as [|c' w]; [reflexivity|].
    unfold no_brace in Hw. cbn [forallb] in Hw.
    apply andb_true_iff in Hw as [Hc' _].
    apply negb_true_iff in Hc'. now rewrite Hc'.
  - rewrite Ascii.eqb_refl, E1, firstn_length_diff.
    change (fun (s'1 : str) (c : captures) => Some (c, s'1)) with accept.
    rewrite (tail1_skips name _ Hname Hname' sep Hsep).
    reflexivity.
Qed.

(** The body of the loop on a matched line. *)
Lemma parse_anyscript_line_matched (points : dict pyval) (line val name : str) :
  re_match ANYSCRIPT_POINT_LINE line = Some ([(2, name); (1, val)], []) ->
  parse_anyscript_line points line
  = match _parse_anyscript val with
    | Ok v => Ok (dict_set name v points)
    | Raise e => if syntax_or_value_error e then Ok points else Raise e
    end.
Proof.
  intros H. unfold parse_anyscript_line. rewrite H. cbn [groups seq map group Nat.eqb].
  now destruct (_parse_anyscript val).
Qed.

Lemma parse_anyscript_line_unmatched (points : dict pyval) (line : str) :
  re_match ANYSCRIPT_POINT_LINE line = None ->
  parse_anyscript_line points line = Ok points.
Proof. intros H. unfold parse_anyscript_line. now rewrite H. Qed.

(** A line that does not start with white space is not matched. *)
Lemma line_unmatched (line : str) :
  head_is isspace line = false ->
  re_match ANYSCRIPT_POINT_LINE line = None.
Proof.
  intros H. destruct line as [|c line]; [reflexivity|].
  cbn in H. unfold re_match. rewrite tail1_is_tail, rmatch_seq.
  cbn [rmatch]. now rewrite H.
Qed.

Lemma space_not_brace (c : ascii) : isspace c = true -> is_char "{" c = false.
Proof. each_char c; vm_compute; congruence. Qed.

Lemma space_no_brace (s : str) : forallb isspace s = true -> no_brace s = true.
Proof.
  apply forallb_impl. intros c Hc. each_char c; try reflexivity; discriminate Hc.
Qed.

Lemma no_brace_head (w : str) :
  no_brace w = true -> head_is (is_char "}") w = false.
Proof.
  destruct w as [|c w]; [reflexivity|]. unfold no_brace. cbn [forallb head_is].
  intros H. apply andb_true_iff in H as [H _]. now apply negb_true_iff in H.
Qed.

(** The characters of group 1 after the opening brace: without a closing
    brace in the text the group does not match. *)
Lemma brace_body_unmatched {R : Type} (w : str) (c : captures)
    (k : str -> captures -> option R) :
  no_brace w = true ->
  rmatch (Seq (Plus dot) (Chr (is_char "}"))) w c k = None.
Proof.
  intros Hw. cbn [rmatch]. destruct w as [|b w]; [reflexivity|].
  destruct (dot b); [|reflexivity].
  apply star_none. intros u w' ->. apply chr_fails, no_brace_head.
  unfold no_brace in *. cbn [forallb] in Hw. apply andb_true_iff in Hw as [_ Hw].
  exact (forallb_app_r _ _ _ Hw).
Qed.

Lemma brace_group_unmatched {R : Type} (w : str) (c : captures)
    (k : str -> captures -> option R) :
  no_brace w = true ->
  rmatch (Group 1 (Seq (Chr (is_char "{")) (Seq (Plus dot) (Chr (is_char "}")))))
    w c k = None.
Proof.
  intros Hw. destruct w as [|a w]; [reflexivity|].
  change (rmatch (Group 1 (Seq (Chr (is_char "{"))
                             (Seq (Plus dot) (Chr (is_char "}")))))
            (a :: w) c k)
    with (if is_char "{" a
          then rmatch (Seq (Plus dot) (Chr (is_char "}"))) w c
                 (fun s' c' =>
                    k s' ((1, firstn (length (a :: w) - length s') (a :: w)) :: c'))
          else None).
  destruct (is_char "{" a); [|reflexivity].
  apply brace_body_unmatched.
  unfold no_brace in *. cbn [forallb] in Hw. now apply andb_true_iff in Hw.
Qed.

(** The braces of group 1 with nothing between them: the closing brace is
    taken for the first character of the group, and no brace is left to
    close it. *)
Lemma empty_braces_unmatched {R : Type} (rest : str) (c : captures)
    (k : str -> captures -> option R) :
  no_brace rest = true ->
  rmatch (Group 1 (Seq (Chr (is_char "{")) (Seq (Plus dot) (Chr (is_char "}")))))
    ("{"%char :: "}"%char :: rest) c k = None.
Proof.
  intros Hrest.
  change (rmatch (Seq (Plus dot) (Chr (is_char "}"))) ("}"%char :: rest) c
            (fun s' c' =>
               k s' ((1, firstn (length ("{"%char :: "}"%char :: rest) - length s')
                           ("{"%char :: "}"%char :: rest)) :: c'))
          = None).
  cbn [rmatch]. change (dot "}") with true. cbv iota.
  apply star_none. intros u w ->.
  assert (H : head_is (is_char "}") w = false).
  { apply no_brace_head. unfold no_brace in *. exact (forallb_app_r _ _ _ Hrest). }
  destruct w as [|a w]; [reflexivity|]. cbn [head_is] in H. now rewrite H.
Qed.

Lemma rmatch_plus {R : Type} (p : ascii -> bool) (a : ascii) (s : str)
    (c : captures) (k : str -> captures -> option R) :
  rmatch (Plus p) (a :: s) c k
  = if p a then star p s (fun s' => k s' c) else None.
Proof. reflexivity. Qed.

Lemma brace_group_head {R : Type} (r : regex) (a : ascii) (w : str)
    (c : captures) (k : str -> captures -> option R) :
  is_char "{" a = false ->
  rmatch (Group 1 (Seq (Chr (is_char "{")) r)) (a :: w) c k = None.
Proof. intros H. cbn [rmatch]. now rewrite H. Qed.

(** A line with white space before braces that hold nothing is not
    matched, when no closing brace follows. *)
Lemma line_empty_braces (ws rest : str) :
  forallb isspace ws = true -> no_brace rest = true ->
  re_match ANYSCRIPT_POINT_LINE (ws ++ "{" ++ "}" ++ rest) = None.
Proof.
  intros Hws Hrest. unfold re_match. rewrite tail1_is_tail, rmatch_seq.
  destruct ws as [|w0 ws]; [reflexivity|].
  cbn [app]. cbn [forallb] in Hws. apply andb_true_iff in Hws as [Hw0 Hws].
  rewrite rmatch_plus, Hw0. apply star_none. intros u w E.
  rewrite rmatch_seq.
  apply app_eq_app in E as [l [[E1 E2]|[E1 E2]]].
  - subst w. destruct l as [|a l].
    + apply empty_braces_unmatched, Hrest.
    + assert (Ha : isspace a = true).
      { rewrite E1 in Hws. apply forallb_app_r in Hws. cbn [forallb] in Hws.
        now apply andb_true_iff in Hws. }
      cbn [app]. apply brace_group_head, space_not_brace, Ha.
  - destruct l as [|a l].
    + cbn [app] in E2. subst w. apply empty_braces_unmatched, Hrest.
    + cbn [app] in E2. injection E2 as _ E2. destruct l as [|b l].
      * cbn [app] in E2. subst w. now apply brace_group_head.
      * cbn [app] in E2. injection E2 as _ E2. apply brace_group_unmatched.
        rewrite E2 in Hrest. unfold no_brace in *.
        exact (forallb_app_r _ _ _ Hrest).
Qed.

(** C3, as the claim states it, at a line of the claimed shape without
    leading white space: the line is not matched and adds no entry. *)
Lemma C3_counterexample :
  re_match ANYSCRIPT_POINT_LINE "{1.0, 2.0, 3.0}, // P1" = None
  /\ parse_anyanyscript "{1.0, 2.0, 3.0}, // P1" = Ok [].
Proof. split; reflexivity. Qed.

(** C3, amended.  The lines are made of white space, a brace group, white
    space, a comma or none, white space, the comment marker or none, white
    space, and a name that starts with a word character (or no name) and
    holds no closing brace; a line holds no line feed.

    With at least one character of white space at the start and at least
    one character between the braces, the line is matched: the value is
    the brace group and the name is the rest of the line.  The body of the
    loop then has three outcomes: the value that the literal parser
    returns is stored under the name; the line is passed over when the
    literal parser raises a [SyntaxError] or a [ValueError]; any other
    exception of the literal parser leaves the loop (such as the
    [TypeError] on the line [ {1}, nan, {2}]).

    Without white space at the start, or with nothing between the braces
    (such as [ {} // e]), the line is not matched and is passed over. *)
Theorem C3_indented_line_matched (points : dict pyval)
    (ws body sp1 comma sp2 marker sp3 name : str)
    (Hws : forallb isspace ws = true)
    (Hbody : forallb dot body = true)
    (Hsp : forallb isspace sp1 = true /\ forallb isspace sp2 = true
           /\ forallb isspace sp3 = true)
    (Hcomma : comma = "" \/ comma = ",")
    (Hmarker : marker = "" \/ marker = "//")
    (Hname : starts_word name /\ forallb dot name = true /\ no_brace name = true) :
  let line :=
    ws ++ "{" ++ body ++ "}" ++ sp1 ++ comma ++ sp2 ++ marker ++ sp3 ++ name in
  (ws <> [] -> body <> [] ->
   re_match ANYSCRIPT_POINT_LINE line
   = Some ([(2, name); (1, "{" ++ body ++ "}")], [])
   /\ parse_anyscript_line points line
      = match _parse_anyscript ("{" ++ body ++ "}") with
        | Ok v => Ok (dict_set name v points)
        | Raise e => if syntax_or_value_error e then Ok points else Raise e
        end)
  /\ (ws = [] \/ body = [] ->
      re_match ANYSCRIPT_POINT_LINE line = None
      /\ parse_anyscript_line points line = Ok points).
Proof.
  intros line.
  destruct Hsp as (Hsp1 & Hsp2 & Hsp3), Hname as (Hn & Hn' & Hn'').
  assert (Hspace : forall s, forallb isspace s = true ->
            forallb nonword s = true /\ no_brace s = true).
  { intros s Hs. split.
    - apply forallb_impl with (p := isspace); [exact space_nonword|exact Hs].
    - now apply space_no_brace. }
  destruct (Hspace sp1 Hsp1) as [H1 H1'], (Hspace sp2 Hsp2) as [H2 H2'],
    (Hspace sp3 Hsp3) as [H3 H3'].
  assert (Hsep : forallb nonword (sp1 ++ comma ++ sp2 ++ marker ++ sp3) = true).
  { rewrite !forallb_app, H1, H2, H3.
    destruct Hcomma as [-> | ->], Hmarker as [-> | ->]; reflexivity. }
  assert (Hsep' : no_brace (sp1 ++ comma ++ sp2 ++ marker ++ sp3) = true).
  { unfold no_brace in *. rewrite !forallb_app, H1', H2', H3'.
    destruct Hcomma as [-> | ->], Hmarker as [-> | ->]; reflexivity. }
  assert (E : line = ws ++ "{" ++ body ++ "}"
                     ++ (sp1 ++ comma ++ sp2 ++ marker ++ sp3) ++ name).
  { unfold line. now rewrite <- !app_assoc. }
  split.
  - intros Hws' Hbody'.
    assert (Hm : re_match ANYSCRIPT_POINT_LINE line
                 = Some ([(2, name); (1, "{" ++ body ++ "}")], [])).
    { rewrite E. now apply line_matches. }
    split; [exact Hm|]. now apply parse_anyscript_line_matched.
  - intros Hnone.
    assert (Hm : re_match ANYSCRIPT_POINT_LINE line = None).
    { destruct Hnone as [-> | ->].
      - now apply line_unmatched.
      - rewrite E. apply line_empty_braces; [exact Hws|].
        unfold no_brace in *. now rewrite forallb_app, Hsep', Hn''. }
    split; [exact Hm|]. now apply parse_anyscript_line_unmatched.
Qed.

(** C3 at four lines: one whose value is stored, one whose value makes
    the literal parser raise a [TypeError], one with nothing between the
    braces and one without white space at the start. *)
Lemma C3_witness :
  (re_match ANYSCRIPT_POINT_LINE " {1.0, 2.0, 3.0}, // P1"
   = Some ([(2, "P1"); (1, "{1.0, 2.0, 3.0}")], [])
   /\ parse_anyscript_line [] " {1.0, 2.0, 3.0}, // P1"
      = Ok [("P1", VArray [VFloat (Finite false [d1] 1);
                           VFloat (Finite false [d2] 1);
                           VFloat (Finite false [d3] 1)])])
  /\ (re_match ANYSCRIPT_POINT_LINE " {1}, nan, {2}"
      = Some ([(2, ""); (1, "{1}, nan, {2}")], [])
      /\ parse_anyscript_line [] " {1}, nan, {2}" = Raise TypeError)
  /\ (re_match ANYSCRIPT_POINT_LINE " {} // e" = None
      /\ parse_anyscript_line [] " {} // e" = Ok [])
  /\ (re_match ANYSCRIPT_POINT_LINE "{1.0, 2.0, 3.0}, // P1" = None
      /\ parse_anyscript_line [] "{1.0, 2.0, 3.0}, // P1" = Ok []).
Proof.
  split; [|split; [|split]].
  - destruct (C3_indented_line_matched
                [] " " "1.0, 2.0, 3.0" "" "," " " "//" " " "P1"
                eq_refl eq_refl (conj eq_refl (conj eq_refl eq_refl))
                (or_intror eq_refl) (or_intror eq_refl)
                (conj eq_refl (conj eq_refl eq_refl)))
      as [Hyes _].
    destruct Hyes as [Hm Hp]; [discriminate|discriminate|].
    split; [exact Hm|]. etransitivity; [exact Hp|reflexivity].
  - destruct (C3_indented_line_matched
                [] " " "1}, nan, {2" "" "" "" "" "" ""
                eq_refl eq_refl (conj eq_refl (conj eq_refl eq_refl))
                (or_introl eq_refl) (or_introl eq_refl)
                (conj I (conj eq_refl eq_refl)))
      as [Hyes _].
    destruct Hyes as [Hm Hp]; [discriminate|discriminate|].
    split; [exact Hm|]. etransitivity; [exact Hp|reflexivity].
  - destruct (C3_indented_line_matched
                [] " " "" " " "" "" "//" " " "e"
                eq_refl eq_refl (conj eq_refl (conj eq_refl eq_refl))
                (or_introl eq_refl) (or_intror eq_refl)
                (conj eq_refl (conj eq_refl eq_refl)))
      as [_ Hno].
    apply Hno. now right.
  - destruct (C3_indented_line_matched
                [] "" "1.0, 2.0, 3.0" "" "," " " "//" " " "P1"
                eq_refl eq_refl (conj eq_refl (conj eq_refl eq_refl))
                (or_intror eq_refl) (or_intror eq_refl)
                (conj eq_refl (conj eq_refl eq_refl)))
      as [_ Hno].
    apply Hno. now left.
Defined.

(* ================================================================== *)
(** * Floats: reading back what [format] writes *)
(* ================================================================== *)

Lemma N_of_digits_snoc (l : list digit) (d : digit) :
  N_of_digits (l ++ [d]) = (10 * N_of_digits l + digit_N d)%N.
Proof. unfold N_of_digits. now rewrite fold_left_app. Qed.

Lemma digit_N_digit (n : N) : (n < 10)%N -> digit_N (N_digit n) = n.
Proof.
  intros H. destruct n as [|p]; [reflexivity|].
  do 4 (destruct p as [p|p|]; try reflexivity; try lia).
Qed.

Lemma N_of_digits_fuel (fuel : nat) (n : N) :
  (n < 2 ^ N.of_nat fuel)%N ->
  N_of_digits (digits_of_N_fuel fuel n) = n.
Proof.
  revert n. induction fuel as [|f IH]; intros n Hn.
  - cbn in Hn. assert (n = 0%N) by lia. now subst.
  - cbn [digits_of_N_fuel]. destruct (N.ltb_spec n 10) as [H|H].
    + unfold N_of_digits. cbn. rewrite digit_N_digit by exact H. lia.
    + rewrite N_of_digits_snoc, IH, digit_N_digit.
      * pose proof (N.div_mod n 10 ltac:(lia)). lia.
      * apply N.mod_lt. lia.
      * rewrite Nat2N.inj_succ, N.pow_succ_r' in Hn.
        apply N.Div0.div_lt_upper_bound; lia.
Qed.

Lemma N_of_digits_of_N (n : N) : N_of_digits (digits_of_N n) = n.
Proof.
  unfold digits_of_N. apply N_of_digits_fuel.
  rewrite Nat2N.inj_succ, N2Nat.id.
  destruct n as [|p]; [reflexivity|].
  apply N.log2_spec. lia.
Qed.

Lemma digits_of_N_nonempty (n : N) : digits_of_N n <> [].
Proof.
  unfold digits_of_N. cbn [digits_of_N_fuel].
  destruct (n <? 10)%N; [discriminate|].
  intros H. apply app_eq_nil in H as [_ H]. discriminate.
Qed.

Lemma char_digit_char (d : digit) : char_digit (digit_char d) = Some d.
Proof. now destruct d. Qed.

Lemma span_digits_app (l : list digit) (s : str) :
  no_digit_ahead s -> span_digits (digits_str l ++ s) = (l, s).
Proof.
  intros Hs. induction l as [|d l IH].
  - destruct s as [|c s]; [reflexivity|]. cbn in Hs |- *. now rewrite Hs.
  - cbn. rewrite char_digit_char. unfold digits_str in IH. now rewrite IH.
Qed.

Lemma span_digits_all (l : list digit) : span_digits (digits_str l) = (l, []).
Proof.
  rewrite <- (app_nil_r (digits_str l)). now apply span_digits_app.
Qed.

Lemma exp_text_shape (e : Z) :
  exp_text e = (if (e <? 0)%Z then "-" else "+") ++ digits_str (exp_digits e).
Proof.
  unfold exp_text, exp_digits.
  now destruct (digits_of_N (Z.abs_N e)) as [|d [|d' ds]].
Qed.

Lemma exp_digits_value (e : Z) :
  exp_digits e <> [] /\ N_of_digits (exp_digits e) = Z.abs_N e.
Proof.
  unfold exp_digits.
  pose proof (N_of_digits_of_N (Z.abs_N e)) as H.
  pose proof (digits_of_N_nonempty (Z.abs_N e)) as H'.
  destruct (digits_of_N (Z.abs_N e)) as [|d [|d' ds]]; [congruence| |].
  - split; [discriminate|]. rewrite <- H. now destruct d.
  - split; [discriminate|exact H].
Qed.

Lemma read_exponent_text (e : Z) (rest : str) :
  no_digit_ahead rest ->
  read_exponent ("e" ++ exp_text e ++ rest) = (e, rest).
Proof.
  intros Hr. rewrite exp_text_shape.
  destruct (exp_digits_value e) as [Hne Hval].
  cbn [app read_exponent]. cbn [Ascii.eqb Bool.eqb orb].
  destruct (Z.ltb_spec e 0) as [He|He]; cbn [app read_sign];
    rewrite span_digits_app by exact Hr;
    destruct (exp_digits e) as [|d ds] eqn:E; try congruence;
    rewrite Hval; f_equal; lia.
Qed.

Lemma number_ends_no_digit (rest : str) : number_ends rest -> no_digit_ahead rest.
Proof. destruct rest; cbn; tauto. Qed.

Lemma read_exponent_none (rest : str) :
  number_ends rest -> read_exponent rest = (0%Z, rest).
Proof.
  destruct rest as [|c rest]; [reflexivity|]. intros (_ & He & HE).
  cbn. apply Ascii.eqb_neq in He, HE. now rewrite He, HE.
Qed.

Lemma drop_zeros_nonzero (d : digit) (l : list digit) :
  d <> d0 -> drop_zeros (d :: l) = d :: l.
Proof. destruct d; cbn; congruence. Qed.

Lemma drop_zeros_repeat (n : nat) (l : list digit) :
  drop_zeros (repeat d0 n ++ l) = drop_zeros l.
Proof. induction n; cbn; auto. Qed.

Lemma rev_repeat_d0 (n : nat) : rev (repeat d0 n) = repeat d0 n.
Proof.
  induction n as [|n IH]; [reflexivity|].
  cbn [repeat rev]. rewrite IH. symmetry. apply repeat_cons.
Qed.

Lemma drop_trailing_zeros_repeat (l : list digit) (n : nat) :
  drop_trailing_zeros (l ++ repeat d0 n) = drop_trailing_zeros l.
Proof.
  unfold drop_trailing_zeros. now rewrite rev_app_distr, rev_repeat_d0, drop_zeros_repeat.
Qed.

Lemma drop_trailing_zeros_last (l : list digit) :
  l <> [] -> last l d1 <> d0 -> drop_trailing_zeros l = l.
Proof.
  intros Hne Hlast. unfold drop_trailing_zeros.
  rewrite (app_removelast_last d1 Hne) at 1.
  rewrite rev_app_distr. cbn [rev app].
  rewrite drop_zeros_nonzero by exact Hlast.
  change (last l d1 :: rev (removelast l)) with (rev [last l d1] ++ rev (removelast l)).
  rewrite <- rev_app_distr, rev_involutive.
  symmetry. now apply app_removelast_last.
Qed.

Lemma zeros_digits (n : Z) : zeros n = digits_str (repeat d0 (Z.to_nat n)).
Proof.
  unfold zeros, digits_str. induction (Z.to_nat n) as [|k IH]; [reflexivity|].
  cbn. now rewrite IH.
Qed.

Lemma digits_str_app (a b : list digit) :
  digits_str (a ++ b) = digits_str a ++ digits_str b.
Proof. apply map_app. Qed.

Lemma read_decimal_parts (ip fp : list digit) (rest : str) :
  ip <> [] \/ fp <> [] ->
  number_ends rest ->
  read_decimal (digits_str ip ++ "." ++ digits_str fp ++ rest)
  = Some (ip, fp, 0%Z, rest).
Proof.
  intros Hne Hr. unfold read_decimal.
  rewrite span_digits_app by reflexivity.
  cbn [app]. rewrite span_digits_app by now apply number_ends_no_digit.
  rewrite read_exponent_none by exact Hr.
  destruct ip, fp; try reflexivity. destruct Hne; congruence.
Qed.

Lemma read_decimal_exp (d : digit) (fp : list digit) (e : Z) (rest : str) :
  no_digit_ahead rest ->
  read_decimal ([digit_char d]
                ++ match fp with
                   | [] => ""
                   | _ :: _ => "." ++ digits_str fp
                   end
                ++ "e" ++ exp_text e ++ rest)
  = Some ([d], fp, e, rest).
Proof.
  intros Hr. unfold read_decimal.
  pose proof (read_exponent_text e rest Hr) as He. cbn [app] in He.
  change [digit_char d] with (digits_str [d]).
  destruct fp as [|f fp].
  - cbn [app]. change (digit_char d :: "e"%char :: exp_text e ++ rest)
      with (digits_str [d] ++ "e"%char :: exp_text e ++ rest).
    rewrite (span_digits_app [d]) by reflexivity.
    now rewrite He.
  - rewrite <- !app_assoc. rewrite (span_digits_app [d]) by reflexivity.
    cbn [app]. change (digit_char f :: map digit_char fp ++ "e"%char :: exp_text e ++ rest)
      with (digits_str (f :: fp) ++ "e"%char :: exp_text e ++ rest).
    rewrite span_digits_app by reflexivity.
    now rewrite He.
Qed.

Lemma mk_finite_canonical (neg : bool) (ip fp : list digit) (e : Z)
    (d : digit) (ds : list digit) (lead : nat) :
  drop_zeros (ip ++ fp) = d :: ds ->
  length (ip ++ fp) = lead + length (d :: ds) ->
  forall tail pt,
  drop_trailing_zeros (d :: ds) = tail ->
  tail <> [] ->
  (pt = Z.of_nat (length ip) + e - Z.of_nat lead)%Z ->
  (-323 <= pt <= 309)%Z ->
  mk_finite neg ip fp e = Finite neg tail pt.
Proof.
  intros Hsig Hlen tail pt Htail Hne Hpt Hrange.
  unfold mk_finite. rewrite Hsig, Htail, Hlen.
  replace (lead + length (d :: ds) - length (d :: ds)) with lead by lia.
  rewrite <- Hpt.
  destruct tail as [|t tail]; [congruence|].
  destruct (Z.ltb_spec 309 pt); [lia|].
  destruct (Z.ltb_spec pt (-323)); [lia|]. reflexivity.
Qed.

Lemma read_decimal_repr (ds : list digit) (pt : Z) (rest : str) :
  canonical (Finite false ds pt) ->
  number_ends rest ->
  exists ip fp e,
    read_decimal (repr_finite ds pt ++ rest) = Some (ip, fp, e, rest)
    /\ forall neg, mk_finite neg ip fp e = Finite neg ds pt.
Proof.
  intros Hc Hr. destruct ds as [|d tl].
  - cbn in Hc. subst pt. exists [d0], [d0], 0%Z. split; [|reflexivity].
    change (repr_finite [] 0 ++ rest)
      with (digits_str [d0] ++ "." ++ digits_str [d0] ++ rest).
    apply read_decimal_parts; [left; discriminate|exact Hr].
  - destruct Hc as (Hd & Hlast & Hrange).
    assert (Hdt : drop_trailing_zeros (d :: tl) = d :: tl)
      by (apply drop_trailing_zeros_last; [discriminate|exact Hlast]).
    unfold repr_finite.
    destruct ((-4 <? pt)%Z && (pt <=? 16)%Z) eqn:Hfix.
    + destruct (Z.leb_spec pt 0) as [Hle|Hgt].
      * (* 0.000ddd *)
        exists [d0], (repeat d0 (Z.to_nat (- pt)) ++ d :: tl), 0%Z. split.
        -- rewrite zeros_digits, <- !app_assoc.
           rewrite (app_assoc (digits_str (repeat _ _))), <- digits_str_app.
           change "0." with (digits_str [d0] ++ ".").
           rewrite <- !app_assoc.
           apply read_decimal_parts; [left; discriminate|exact Hr].
        -- intros neg.
           apply (mk_finite_canonical neg _ _ _ d tl (S (Z.to_nat (- pt)))).
           ++ cbn [app drop_zeros is_d0]. rewrite drop_zeros_repeat.
              now apply drop_zeros_nonzero.
           ++ cbn [app length]. rewrite length_app, repeat_length. cbn [length]. lia.
           ++ exact Hdt.
           ++ discriminate.
           ++ cbn [length]. lia.
           ++ exact Hrange.
      * destruct (Z.ltb_spec pt (Z.of_nat (length (d :: tl)))) as [Hlt|Hge].
        -- (* ddd.ddd *)
           exists (firstn (Z.to_nat pt) (d :: tl)), (skipn (Z.to_nat pt) (d :: tl)), 0%Z.
           split.
           ++ rewrite <- !app_assoc. apply read_decimal_parts; [|exact Hr].
              left. destruct (Z.to_nat pt) eqn:E; [lia|discriminate].
           ++ intros neg.
              apply (mk_finite_canonical neg _ _ _ d tl 0).
              ** rewrite firstn_skipn. now apply drop_zeros_nonzero.
              ** now rewrite firstn_skipn.
              ** exact Hdt.
              ** discriminate.
              ** rewrite length_firstn. lia.
              ** exact Hrange.
        -- (* ddd000.0 *)
           exists (d :: tl ++ repeat d0 (Z.to_nat (pt - Z.of_nat (length (d :: tl))))),
             [d0], 0%Z.
           split.
           ++ rewrite zeros_digits, <- !app_assoc.
              rewrite (app_assoc (digits_str (d :: tl))), <- digits_str_app.
              change ".0" with ("." ++ digits_str [d0]).
              rewrite <- !app_assoc.
              apply (read_decimal_parts (d :: tl ++ _) [d0]); [left; discriminate|exact Hr].
           ++ intros neg.
              apply (mk_finite_canonical neg _ _ _ d
                       (tl ++ repeat d0 (Z.to_nat (pt - Z.of_nat (length (d :: tl)))) ++ [d0]) 0).
              ** cbn [app]. rewrite <- app_assoc. now apply drop_zeros_nonzero.
              ** cbn [app]. now rewrite <- app_assoc.
              ** rewrite <- repeat_cons.
                 change (d :: tl ++ d0 :: repeat d0 ?n)
                   with ((d :: tl) ++ repeat d0 (S n)).
                 rewrite drop_trailing_zeros_repeat. exact Hdt.
              ** discriminate.
              ** cbn [length]. rewrite length_app, repeat_length. cbn [length] in Hge. lia.
              ** exact Hrange.
    + (* d.ddde+XX *)
      exists [d], tl, (pt - 1)%Z. split.
      * rewrite <- !app_assoc. apply read_decimal_exp.
        now apply number_ends_no_digit.
      * intros neg.
        apply (mk_finite_canonical neg _ _ _ d tl 0).
        -- now apply drop_zeros_nonzero.
        -- reflexivity.
        -- exact Hdt.
        -- discriminate.
        -- cbn [length]. lia.
        -- exact Hrange.
Qed.

Lemma repr_finite_head (ds : list digit) (pt : Z) :
  exists d t, repr_finite ds pt = digit_char d :: t.
Proof.
  unfold repr_finite. destruct ds as [|d tl]; [now exists d0, ".0"|].
  destruct ((-4 <? pt)%Z && (pt <=? 16)%Z).
  - destruct (Z.leb_spec pt 0); [now exists d0; eexists|].
    destruct (pt <? _)%Z.
    + destruct (Z.to_nat pt) eqn:E; [lia|]. cbn. now eexists; eexists.
    + cbn. now eexists; eexists.
  - cbn. now eexists; eexists.
Qed.

Lemma repr_char_plain (c : ascii) :
  repr_char c = true ->
  (ord c <? 128)%N = true /\ Ascii.eqb c "_" = false /\ c_isspace c = false.
Proof. each_char c; vm_compute; intuition congruence. Qed.

Lemma fold_to_ascii_repr (s : str) :
  forallb repr_char s = true -> fold_to_ascii s = Some s.
Proof.
  induction s as [|c s IH]; [reflexivity|]. cbn [forallb fold_to_ascii].
  intros H. apply andb_true_iff in H as [Hc Hs].
  destruct (repr_char_plain c Hc) as (-> & _). now rewrite (IH Hs).
Qed.

Lemma drop_underscores_repr (s : str) (prev : ascii) :
  forallb repr_char s = true ->
  Ascii.eqb prev "_" = false ->
  drop_underscores prev s = Some s.
Proof.
  revert prev. induction s as [|c s IH]; intros prev H Hp.
  - cbn. now rewrite Hp.
  - cbn [forallb] in H. apply andb_true_iff in H as [Hc Hs].
    destruct (repr_char_plain c Hc) as (_ & Hu & _).
    cbn [drop_underscores]. rewrite Hu, Hp. cbn [andb].
    now rewrite (IH c Hs Hu).
Qed.

Lemma lstrip_repr (s : str) :
  (forall c, In c s -> c_isspace c = false) -> lstrip s = s.
Proof.
  destruct s as [|c s]; [reflexivity|]. intros H. cbn.
  now rewrite (H c (or_introl eq_refl)).
Qed.

Lemma strip_repr (s : str) : forallb repr_char s = true -> strip s = s.
Proof.
  intros H.
  assert (Hin : forall c, In c s -> c_isspace c = false).
  { intros c Hc. rewrite forallb_forall in H.
    now destruct (repr_char_plain c (H c Hc)) as (_ & _ & ?). }
  unfold strip. rewrite (lstrip_repr s Hin), lstrip_repr, rev_involutive; [reflexivity|].
  intros c Hc. apply Hin. now apply in_rev.
Qed.

Lemma read_sign_digit (d : digit) (t : str) :
  read_sign (digit_char d :: t) = (false, digit_char d :: t).
Proof. now destruct d. Qed.

(** [float(format(x, ""))] is [x] for a finite [x]. *)
Theorem float_of_str_repr (x : pyfloat) :
  isfinite x = true -> canonical x ->
  float_of_str (float_repr x) = Some x.
Proof.
  destruct x as [neg ds pt| |]; [|discriminate|discriminate]. intros _ Hc.
  unfold float_of_str.
  rewrite fold_to_ascii_repr by apply float_repr_chars.
  rewrite drop_underscores_repr by (apply float_repr_chars || reflexivity).
  rewrite strip_repr by apply float_repr_chars.
  destruct (read_decimal_repr ds pt [] Hc I) as (ip & fp & e & Hread & Hmk).
  rewrite app_nil_r in Hread.
  destruct (repr_finite_head ds pt) as (d & t & Hhead).
  cbn [float_repr]. destruct neg; cbn [app].
  - cbn [read_sign]. now rewrite Hread, Hmk.
  - rewrite Hhead, read_sign_digit, <- Hhead. now rewrite Hread, Hmk.
Qed.

(* ================================================================== *)
(** * The pick-points file written and read back *)
(* ================================================================== *)

Lemma run_app (a b : str) (st : state) :
  run st (a ++ b) = let* st' := run st a in run st' b.
Proof.
  revert st. induction a as [|c a IH]; intros st; [reflexivity|].
  cbn [app run]. destruct (step st c) as [st'|e]; [apply IH|reflexivity].
Qed.

Lemma repr_char_attr_plain (c : ascii) :
  repr_char c = true -> attr_plain c = true.
Proof. each_char c; vm_compute; congruence. Qed.

Lemma sanitize_char_attr_plain (c : ascii) :
  sanitize_char c = c -> attr_plain c = true.
Proof. each_char c; vm_compute; congruence. Qed.

Lemma sanitizer_stable_attr_plain (name : str) :
  sanitizer_stable name -> forallb attr_plain name = true.
Proof.
  unfold sanitizer_stable, sanitize.
  induction name as [|c name IH]; [reflexivity|]. cbn [map forallb].
  intros H. injection H as Hc Hn.
  now rewrite (sanitize_char_attr_plain c Hc), (IH Hn).
Qed.

Lemma float_repr_attr_plain (x : pyfloat) :
  forallb attr_plain (float_repr x) = true.
Proof.
  apply (forallb_impl repr_char); [exact repr_char_attr_plain|].
  apply float_repr_chars.
Qed.

Lemma step_attr_plain n a k v stk root dt (c : ascii) :
  attr_plain c = true ->
  step (State (AttrValue n a k DQ v false) stk root dt) c
  = Ok (State (AttrValue n a k DQ (v ++ [c]) false) stk root dt).
Proof. each_char c; vm_compute; congruence. Qed.

(** An attribute value of plain characters, up to its closing quote. *)
Lemma run_attr_value n a k stk root dt (w v rest : str) :
  forallb attr_plain w = true ->
  run (State (AttrValue n a k DQ v false) stk root dt) (w ++ DQ :: rest)
  = run (State (AttrEnd n (a ++ [(k, v ++ w)])) stk root dt) rest.
Proof.
  revert v. induction w as [|c w IH]; intros v Hw.
  - now rewrite app_nil_r.
  - cbn [forallb] in Hw. apply andb_true_iff in Hw as [Hc Hw].
    cbn [app run]. rewrite (step_attr_plain _ _ _ _ _ _ _ c Hc). cbn [bind].
    rewrite (IH _ Hw), <- app_assoc. reflexivity.
Qed.

(** One character of markup, read by evaluation. *)
Ltac run_char :=
  lazymatch goal with
  | |- context [run ?st (?c :: ?s)] =>
      let r := eval vm_compute in (step st c) in
      change (run st (c :: s)) with (bind (step st c) (fun st' => run st' s));
      replace (step st c) with r by (vm_compute; reflexivity);
      cbv beta iota delta [bind]
  end.

Ltac run_value H :=
  etransitivity; [apply run_attr_value; exact H|]; cbn [app].

Lemma run_point_tag (x y z name rest : str) :
  forallb attr_plain x = true ->
  forallb attr_plain y = true ->
  forallb attr_plain z = true ->
  forallb attr_plain name = true ->
  run initial (point_tag x y z name ++ rest)
  = run (State (Text 0) [] (Some (Element "point" (point_attrib x y z name) []))
           false) rest.
Proof.
  intros Hx Hy Hz Hn. unfold point_tag, point_attrib, initial.
  repeat (rewrite <- ?app_assoc; cbn [app]).
  do 10 run_char. run_value Hx.
  do 4 run_char. run_value Hy.
  do 4 run_char. run_value Hz.
  do 18 run_char. run_value Hn.
  do 4 run_char. reflexivity.
Qed.

Lemma run_point_text (name : str) (p : point) (rest : str) :
  forallb attr_plain name = true ->
  run initial (point_text name p ++ rest)
  = run (State (Text 0) [] (Some (point_element name p)) false) rest.
Proof.
  intros Hn. destruct p as [[x y] z].
  apply run_point_tag; auto using float_repr_attr_plain.
Qed.

Lemma ppfile_line_point (acc name : str) (p : point) :
  ppfile_line acc (name, point_value p) = Ok (acc ++ point_text name p).
Proof. destruct p as [[x y] z]. reflexivity. Qed.

Lemma format_ppfile_loop (points : PointSet) (acc : str) :
  for_each ppfile_line acc (as_dict points) = Ok (acc ++ ppfile_text points).
Proof.
  revert acc. induction points as [|[name p] points IH]; intros acc.
  - cbn. now rewrite app_nil_r.
  - cbn [as_dict map for_each fst snd]. rewrite ppfile_line_point. cbn [bind].
    fold (as_dict points). rewrite IH. unfold ppfile_text. cbn [map concat fst snd].
    now rewrite app_assoc.
Qed.

Lemma format_ppfile_text (points : PointSet) :
  format_ppfile (as_dict points) = Ok (ppfile_text points).
Proof. exact (format_ppfile_loop points ""). Qed.

(** The text of one point is a document whose root is the point. *)
Lemma fromstring_point_text (name : str) (p : point) :
  forallb attr_plain name = true ->
  fromstring (point_text name p) = Ok (point_element name p).
Proof.
  intros Hn. unfold fromstring.
  rewrite <- (app_nil_r (point_text name p)), (run_point_text name p [] Hn).
  reflexivity.
Qed.

Lemma point_text_head (name : str) (p : point) :
  exists t, point_text name p = "<p" ++ t.
Proof. destruct p as [[x y] z]. now eexists. Qed.

(** A second point after the first is refused. *)
Lemma fromstring_two_points (n1 n2 : str) (p1 p2 : point) (rest : str) :
  forallb attr_plain n1 = true ->
  fromstring (point_text n1 p1 ++ point_text n2 p2 ++ rest)
  = Raise junk_after_document.
Proof.
  intros Hn. unfold fromstring. rewrite (run_point_text n1 p1 _ Hn).
  destruct (point_text_head n2 p2) as [t ->]. reflexivity.
Qed.

Lemma iter_point_element (name : str) (p : point) :
  iter "point" (point_element name p) = [point_element name p].
Proof. destruct p as [[x y] z]. reflexivity. Qed.

Lemma float_attr_repr (elem : element) (k : str) (x : pyfloat) :
  lookup k (attrib elem) = Some (float_repr x) ->
  isfinite x = true -> canonical x ->
  float_attr elem k = Ok x.
Proof.
  intros Hk Hf Hc. unfold float_attr. now rewrite Hk, float_of_str_repr.
Qed.

Lemma parse_pp_point_element (allpoints : dict pyval) (name : str) (p : point) :
  finite_point p ->
  parse_pp_point allpoints (point_element name p)
  = Ok (dict_set name (point_value p) allpoints).
Proof.
  destruct p as [[x y] z]. intros ((Hfx & Hcx) & (Hfy & Hcy) & (Hfz & Hcz)).
  unfold parse_pp_point.
  rewrite (float_attr_repr _ "x" x), (float_attr_repr _ "y" y),
    (float_attr_repr _ "z" z) by (assumption || reflexivity).
  reflexivity.
Qed.

Lemma refused_diagnostic (diagnostic data : str) :
  fromstring data = Raise (ParseError diagnostic) -> refused diagnostic data.
Proof.
  intros H. exists diagnostic. split; [exact H|]. split.
  - clear H. induction diagnostic as [|c d IH]; [reflexivity|].
    cbn [startswith]. now rewrite Ascii.eqb_refl.
  - now apply parse_pp_file_malformed.
Qed.

Lemma parse_pp_file_empty : refused "no element found" (ppfile_text []).
Proof. now apply refused_diagnostic. Qed.

Lemma parse_pp_file_one_point (name : str) (p : point) :
  sanitizer_stable name -> finite_point p ->
  parse_pp_file (ppfile_text [(name, p)]) = Ok (as_dict [(name, p)]).
Proof.
  intros Hn Hp. unfold ppfile_text, parse_pp_file. cbn [map concat fst snd].
  rewrite app_nil_r, fromstring_point_text
    by now apply sanitizer_stable_attr_plain.
  cbn [bind]. rewrite iter_point_element. cbn [for_each].
  now rewrite parse_pp_point_element.
Qed.

Lemma parse_pp_file_more_points (n1 n2 : str) (p1 p2 : point) (points : PointSet) :
  sanitizer_stable n1 ->
  refused "junk after document element"
    (ppfile_text ((n1, p1) :: (n2, p2) :: points)).
Proof.
  intros Hn. apply refused_diagnostic.
  unfold ppfile_text. cbn [map concat fst snd].
  apply fromstring_two_points. now apply sanitizer_stable_attr_plain.
Qed.

(** C2, as the claim states it, at a set of two points with the names
    [P1] and [P2]: the text that [format_ppfile] writes has two elements
    side by side and none around them, and the reader refuses it. *)
Lemma C2_counterexample :
  NoDup (map fst [("P1", (Finite false [d1] 1, Finite false [d2] 1,
                          Finite false [d3] 1));
                  ("P2", (Finite false [d4] 1, Finite false [d5] 1,
                          Finite false [d6] 1))])
  /\ Forall (fun kv => sanitizer_stable (fst kv) /\ finite_point (snd kv))
       [("P1", (Finite false [d1] 1, Finite false [d2] 1,
                Finite false [d3] 1));
        ("P2", (Finite false [d4] 1, Finite false [d5] 1,
                Finite false [d6] 1))]
  /\ exists text,
       format_ppfile
         (as_dict [("P1", (Finite false [d1] 1, Finite false [d2] 1,
                           Finite false [d3] 1));
                   ("P2", (Finite false [d4] 1, Finite false [d5] 1,
                           Finite false [d6] 1))]) = Ok text
       /\ splitlines text
          = ["<point x=" ++ [DQ] ++ "1.0" ++ [DQ] ++ " y=" ++ [DQ] ++ "2.0"
             ++ [DQ] ++ " z=" ++ [DQ] ++ "3.0" ++ [DQ] ++ " active=" ++ [DQ]
             ++ "1" ++ [DQ] ++ " name=" ++ [DQ] ++ "P1" ++ [DQ] ++ " />";
             "<point x=" ++ [DQ] ++ "4.0" ++ [DQ] ++ " y=" ++ [DQ] ++ "5.0"
             ++ [DQ] ++ " z=" ++ [DQ] ++ "6.0" ++ [DQ] ++ " active=" ++ [DQ]
             ++ "1" ++ [DQ] ++ " name=" ++ [DQ] ++ "P2" ++ [DQ] ++ " />"]
       /\ exists e,
            fromstring text = Raise (ParseError e)
            /\ startswith "junk after document element" e = true
            /\ parse_pp_file text
               = Raise (ValueError ("Could not parse XML file: " ++ e)).
Proof.
  split; [|split].
  - repeat constructor; cbn; intuition discriminate.
  - repeat constructor; cbn; (discriminate || lia).
  - eexists. split; [reflexivity|]. split; [reflexivity|].
    exists "junk after document element". repeat split; reflexivity.
Qed.

(** C2, amended.  For every point set [format_ppfile] writes one [point]
    element for each point, one after the other, each on its line, with no
    element around them.  For a point set with sanitizer-stable names and
    finite coordinates the reader gives the set back when it holds exactly
    one point (that point is the root of the document); it raises a
    [ValueError] for the empty set and for a set of two or more points.
    The message of the [ValueError] is [Could not parse XML file: ]
    followed by the text of the [ParseError], which starts with
    [no element found] for the empty set and with
    [junk after document element] for two or more points.  That the names
    differ plays no part. *)
Theorem C2_ppfile_round_trip (points : PointSet) :
  exists text,
    format_ppfile (as_dict points) = Ok text
    /\ text = concat (map (fun kv => point_text (fst kv) (snd kv)) points)
    /\ (Forall (fun kv => sanitizer_stable (fst kv) /\ finite_point (snd kv))
          points ->
        match points with
        | [] => refused "no element found" text
        | [_] => parse_pp_file text = Ok (as_dict points)
        | _ :: _ :: _ => refused "junk after document element" text
        end).
Proof.
  exists (ppfile_text points). split; [apply format_ppfile_text|].
  split; [reflexivity|]. intros H.
  destruct points as [|[n1 p1] [|[n2 p2] points]].
  - apply parse_pp_file_empty.
  - apply Forall_inv in H as [Hn Hp]. now apply parse_pp_file_one_point.
  - apply Forall_inv in H as [Hn _]. now apply parse_pp_file_more_points.
Qed.

Lemma C2_witness :
  exists text,
    format_ppfile
      (as_dict [("P1", (Finite false [d1] 1, Finite true [d2; d5] 1,
                        Finite false [d3] (-4)))]) = Ok text
    /\ parse_pp_file text
       = Ok (as_dict [("P1", (Finite false [d1] 1, Finite true [d2; d5] 1,
                              Finite false [d3] (-4)))]).
Proof.
  destruct (C2_ppfile_round_trip
              [("P1", (Finite false [d1] 1, Finite true [d2; d5] 1,
                       Finite false [d3] (-4)))])
    as (text & Hformat & _ & Hread).
  exists text. split; [exact Hformat|]. apply Hread.
  repeat constructor; cbn; (discriminate || lia).
Defined.

(* ================================================================== *)
(** * The literal parser on a brace group of three floats *)
(* ================================================================== *)

Lemma tokens_from_skip (w s : str) :
  tokens_from (length w) (w ++ s) = tokens_from 0 s.
Proof. induction w as [|c w IH]; [reflexivity|exact IH]. Qed.

(** A token of [n] characters, and the tokens after it. *)
Lemma tokens_from_token (w rest : str) (t : token) :
  head_is is_blank w = false ->
  w <> [] ->
  lex_one (w ++ rest) = Ok (t, length w) ->
  tokens_from 0 (w ++ rest) = let* ts := tokens_from 0 rest in Ok (t :: ts).
Proof.
  destruct w as [|c w]; [congruence|]. cbn [head_is]. intros Hb _ Hlex.
  cbn [app tokens_from]. rewrite Hb.
  change (c :: w ++ rest) with ((c :: w) ++ rest). rewrite Hlex. cbn [bind].
  cbn [length]. rewrite Nat.sub_1_r. cbn [Nat.pred].
  now rewrite tokens_from_skip.
Qed.

Lemma after_number_comma (rest : str) : after_number (","%char :: rest).
Proof. repeat split; discriminate. Qed.

Lemma after_number_bracket (rest : str) : after_number ("]"%char :: rest).
Proof. repeat split; discriminate. Qed.

Lemma digits_str_in (d : digit) (ds : list digit) :
  In d ds -> In (digit_char d) (digits_str ds).
Proof. apply in_map. Qed.

(** The text of a finite float holds a decimal point or an exponent. *)
Lemma repr_finite_is_float (ds : list digit) (pt : Z) :
  existsb (fun c => Ascii.eqb c "." || Ascii.eqb c "e" || Ascii.eqb c "E")
    (repr_finite ds pt) = true.
Proof.
  apply existsb_exists. unfold repr_finite.
  destruct ds as [|d tl]; [exists "."%char; split; [cbn; tauto|reflexivity]|].
  destruct ((-4 <? pt)%Z && (pt <=? 16)%Z).
  - exists "."%char. split; [|reflexivity].
    destruct (pt <=? 0)%Z; [cbn; tauto|].
    destruct (pt <? _)%Z; rewrite !in_app_iff; cbn; tauto.
  - exists "e"%char. split; [|reflexivity].
    rewrite !in_app_iff. cbn. tauto.
Qed.

Lemma lex_number_repr (ds : list digit) (pt : Z) (rest : str) :
  canonical (Finite false ds pt) ->
  after_number rest ->
  lex_number (repr_finite ds pt ++ rest)
  = Ok (TFloat (Finite false ds pt), length (repr_finite ds pt)).
Proof.
  intros Hc [Hr Hid]. unfold lex_number.
  destruct (read_decimal_repr ds pt rest Hc Hr) as (ip & fp & e & -> & Hmk).
  rewrite Hid, length_app, Nat.add_sub, firstn_app, Nat.sub_diag, firstn_all.
  cbn [firstn]. rewrite app_nil_r, repr_finite_is_float. now rewrite Hmk.
Qed.

Lemma digit_char_lex (d : digit) :
  is_ascii_digit (digit_char d) = true /\ is_blank (digit_char d) = false.
Proof. now destruct d. Qed.

Lemma lex_one_repr (ds : list digit) (pt : Z) (rest : str) :
  canonical (Finite false ds pt) ->
  after_number rest ->
  lex_one (repr_finite ds pt ++ rest)
  = Ok (TFloat (Finite false ds pt), length (repr_finite ds pt)).
Proof.
  intros Hc Hr. rewrite <- (lex_number_repr ds pt rest Hc Hr).
  destruct (repr_finite_head ds pt) as (d & t & ->). cbn [app lex_one].
  now rewrite (proj1 (digit_char_lex d)).
Qed.

Lemma tokens_from_float (x : pyfloat) (rest : str) :
  isfinite x = true -> canonical x ->
  after_number rest ->
  tokens_from 0 (float_repr x ++ rest)
  = let* ts := tokens_from 0 rest in Ok (float_tokens x ++ ts).
Proof.
  destruct x as [neg ds pt| |]; [|discriminate|discriminate]. intros _ Hc Hr.
  assert (Hnum : tokens_from 0 (repr_finite ds pt ++ rest)
                 = let* ts := tokens_from 0 rest in
                   Ok (TFloat (Finite false ds pt) :: ts)).
  { apply tokens_from_token.
    - destruct (repr_finite_head ds pt) as (d & t & ->).
      exact (proj2 (digit_char_lex d)).
    - destruct (repr_finite_head ds pt) as (d & t & ->). discriminate.
    - now apply lex_one_repr. }
  cbn [float_repr float_tokens]. destruct neg; cbn [app].
  - cbn [tokens_from is_blank]. change (is_blank "-") with false. cbn iota.
    change (lex_one ("-"%char :: repr_finite ds pt ++ rest)) with (Ok (TMinus, 1%nat)).
    cbn [bind Nat.sub]. rewrite Hnum.
    now destruct (tokens_from 0 rest).
  - exact Hnum.
Qed.

Lemma tokens_from_list_text (p : point) :
  finite_point p ->
  tokens_from 0 (list_text p)
  = let '(x, y, z) := p in
    Ok ([TLBrack] ++ float_tokens x ++ [TComma] ++ float_tokens y ++ [TComma]
        ++ float_tokens z ++ [TRBrack]).
Proof.
  destruct p as [[x y] z]. intros ((Hfx & Hcx) & (Hfy & Hcy) & (Hfz & Hcz)).
  unfold list_text. cbn [app].
  change (tokens_from 0 ("["%char :: ?s)) with
    (let* ts := tokens_from 0 s in Ok (TLBrack :: ts)).
  rewrite (tokens_from_float x _ Hfx Hcx (after_number_comma _)).
  cbn [app].
  change (tokens_from 0 (","%char :: " "%char :: ?s)) with
    (let* ts := tokens_from 0 s in Ok (TComma :: ts)).
  rewrite (tokens_from_float y _ Hfy Hcy (after_number_comma _)).
  cbn [app].
  change (tokens_from 0 (","%char :: " "%char :: ?s)) with
    (let* ts := tokens_from 0 s in Ok (TComma :: ts)).
  rewrite (tokens_from_float z _ Hfz Hcz (after_number_bracket _)).
  cbn [bind app]. reflexivity.
Qed.

Lemma parse_float_tokens (x y z : pyfloat) :
  isfinite x = true -> isfinite y = true -> isfinite z = true ->
  (let* e := parse ([TLBrack] ++ float_tokens x ++ [TComma] ++ float_tokens y
                    ++ [TComma] ++ float_tokens z ++ [TRBrack]) in
   convert e)
  = Ok (VList [VFloat x; VFloat y; VFloat z]).
Proof.
  destruct x as [nx dx px| |], y as [ny dy py| |], z as [nz dz pz| |];
    try discriminate.
  intros _ _ _. destruct nx, ny, nz; reflexivity.
Qed.

Lemma float_tokens_nonempty (x : pyfloat) (ts : list token) :
  isfinite x = true -> float_tokens x ++ ts <> [].
Proof. destruct x as [[|] ds pt| |]; discriminate. Qed.

Lemma literal_eval_list_text (p : point) :
  finite_point p ->
  literal_eval (list_text p)
  = let '(x, y, z) := p in Ok (VList [VFloat x; VFloat y; VFloat z]).
Proof.
  intros Hp. unfold literal_eval.
  rewrite (tokens_from_list_text p Hp).
  destruct p as [[x y] z]. destruct Hp as ((Hfx & _) & (Hfy & _) & (Hfz & _)).
  change (head_is _ (list_text (x, y, z))) with false. cbn iota. cbn [bind].
  rewrite (parse_float_tokens x y z Hfx Hfy Hfz). reflexivity.
Qed.

(** [s.replace(a, b)] for two characters. *)
Lemma replace_char (a b : ascii) (s : str) :
  replace [a] [b] s = map (fun c => if Ascii.eqb a c then b else c) s.
Proof.
  unfold replace. induction s as [|c s IH]; [reflexivity|].
  cbn [replace_from startswith map length Nat.sub]. rewrite andb_true_r.
  destruct (Ascii.eqb a c); cbn [app]; now rewrite IH.
Qed.

Lemma map_id_on {A : Type} (f : A -> A) (p : A -> bool) (l : list A) :
  (forall a, p a = true -> f a = a) -> forallb p l = true -> map f l = l.
Proof.
  intros Hf. induction l as [|a l IH]; [reflexivity|]. cbn [forallb map].
  intros H. apply andb_true_iff in H as [Ha Hl]. now rewrite (Hf a Ha), (IH Hl).
Qed.

Lemma repr_char_no_brace (c : ascii) :
  repr_char c = true ->
  Ascii.eqb "{" c = false /\ Ascii.eqb "}" c = false.
Proof. each_char c; vm_compute; intuition congruence. Qed.

Lemma float_repr_no_brace (x : pyfloat) (a b : ascii) :
  a = "{"%char \/ a = "}"%char ->
  map (fun c => if Ascii.eqb a c then b else c) (float_repr x) = float_repr x.
Proof.
  intros Ha. apply (map_id_on _ repr_char); [|apply float_repr_chars].
  intros c Hc. destruct (repr_char_no_brace c Hc) as [H1 H2].
  destruct Ha as [-> | ->]; [now rewrite H1|now rewrite H2].
Qed.

Lemma replace_braces (p : point) :
  replace "}" "]" (replace "{" "[" (brace_text p)) = list_text p.
Proof.
  destruct p as [[x y] z]. unfold brace_text, list_text.
  rewrite (replace_char "{" "["), !map_app, !float_repr_no_brace by tauto.
  cbn [map Ascii.eqb Bool.eqb].
  rewrite (replace_char "}" "]"), !map_app, !float_repr_no_brace by tauto.
  reflexivity.
Qed.

Lemma endswith_app (p s : str) : endswith p (s ++ p) = true.
Proof.
  unfold endswith. rewrite rev_app_distr.
  induction (rev p) as [|c r IH]; [reflexivity|].
  cbn [app startswith]. now rewrite Ascii.eqb_refl, IH.
Qed.

Lemma brace_text_delimited (p : point) :
  startswith "{" (brace_text p) && endswith "}" (brace_text p) = true.
Proof.
  destruct p as [[x y] z]. unfold brace_text.
  apply andb_true_iff. split; [reflexivity|].
  rewrite !app_assoc. apply endswith_app.
Qed.

Lemma float_repr_head (x : pyfloat) :
  isfinite x = true ->
  exists c t, float_repr x = c :: t /\ c <> "."%char.
Proof.
  destruct x as [neg ds pt| |]; try discriminate. intros _.
  destruct (repr_finite_head ds pt) as (d & t & E). cbn [float_repr].
  destruct neg; cbn [app].
  - exists "-"%char. eexists. split; [reflexivity|discriminate].
  - rewrite E. exists (digit_char d), t. split; [reflexivity|].
    destruct d; discriminate.
Qed.

Lemma list_text_not_ellipsis (p : point) :
  finite_point p -> str_eqb (list_text p) "[...]" = false.
Proof.
  destruct p as [[x y] z]. intros ((Hfx & _) & _).
  destruct (float_repr_head x Hfx) as (c & t & E & Hc).
  unfold str_eqb, list_text. rewrite E.
  destruct (list_eq_dec _ _ _) as [H|H]; [|reflexivity].
  cbn [app] in H. congruence.
Qed.

(** The literal parser on the brace group: the array of the three floats. *)
Lemma parse_anyscript_brace_text (p : point) :
  finite_point p -> _parse_anyscript (brace_text p) = Ok (point_value p).
Proof.
  intros Hp. unfold _parse_anyscript.
  rewrite brace_text_delimited, replace_braces, list_text_not_ellipsis by exact Hp.
  rewrite literal_eval_list_text by exact Hp.
  destruct p as [[x y] z]. reflexivity.
Qed.

(* ================================================================== *)
(** * The point cloud written and read back *)
(* ================================================================== *)

Lemma cloud_line_parts (comma name : str) (p : point) :
  cloud_line comma name p
  = brace_text p ++ (comma ++ " // ") ++ (sanitize name ++ " ").
Proof.
  destruct p as [[x y] z]. unfold cloud_line, brace_text.
  now rewrite <- !app_assoc.
Qed.

Lemma brace_text_body (p : point) :
  exists body,
    brace_text p = "{" ++ body ++ "}"
    /\ body <> [] /\ forallb dot body = true.
Proof.
  destruct p as [[x y] z].
  exists (float_repr x ++ ", " ++ float_repr y ++ ", " ++ float_repr z).
  split; [|split].
  - unfold brace_text. now rewrite <- !app_assoc.
  - intros H. apply app_eq_nil in H as [_ H]. discriminate.
  - assert (Hd : forall f, forallb dot (float_repr f) = true).
    { intros f. apply (forallb_impl repr_char); [|apply float_repr_chars].
      intros c Hc. unfold dot.
      pose proof (repr_char_not_linebreak c Hc) as Hl.
      destruct (Ascii.eqb_spec c NL) as [->|]; [discriminate|reflexivity]. }
    now rewrite !forallb_app, !Hd.
Qed.

Lemma word_plain (c : ascii) :
  word c = true -> dot c = true /\ negb (is_char "}" c) = true.
Proof. each_char c; vm_compute; intuition congruence. Qed.

(** The loop of [parse_anyanyscript] on an indented line of the point
    cloud: the entry has the name with the blank that follows it. *)
Lemma parse_anyscript_line_cloud (points : dict pyval) (ws comma name : str)
    (p : point) :
  ws <> [] -> forallb isspace ws = true ->
  comma = "" \/ comma = "," ->
  finite_point p ->
  parse_anyscript_line points (ws ++ cloud_line comma name p)
  = Ok (dict_set (stored_name (sanitize name)) (point_value p) points).
Proof.
  intros Hws Hsp Hcomma Hp.
  destruct (brace_text_body p) as (body & Eb & Hne & Hdot).
  assert (Hw : forallb word (sanitize name) = true) by apply sanitize_word.
  assert (Hm : re_match ANYSCRIPT_POINT_LINE (ws ++ cloud_line comma name p)
               = Some ([(2, stored_name (sanitize name)); (1, brace_text p)], [])).
  { rewrite cloud_line_parts, Eb. destruct name as [|c name].
    - (* no name: the blank after it goes with the marker *)
      change (sanitize []) with (@nil ascii).
      change (stored_name []) with (@nil ascii).
      assert (E : ("{" ++ body ++ "}") ++ (comma ++ " // ") ++ [] ++ " "
                  = "{" ++ body ++ "}" ++ (comma ++ " //  ") ++ []).
      { rewrite app_nil_r, <- !app_assoc. reflexivity. }
      rewrite E.
      apply line_matches; try assumption; try reflexivity;
        destruct Hcomma as [-> | ->]; reflexivity.
    - set (sep := comma ++ " // ").
      change (stored_name (sanitize (c :: name)))
        with (sanitize (c :: name) ++ " ").
      set (nm := sanitize (c :: name) ++ " ").
      replace (("{" ++ body ++ "}") ++ sep ++ nm)
        with ("{" ++ body ++ "}" ++ sep ++ nm) by now rewrite <- !app_assoc.
      subst sep nm. apply line_matches; try assumption.
      + destruct Hcomma as [-> | ->]; reflexivity.
      + destruct Hcomma as [-> | ->]; reflexivity.
      + cbn. apply sanitize_char_word.
      + rewrite forallb_app. apply andb_true_iff. split; [|reflexivity].
        apply (forallb_impl word); [|exact Hw]. intros c' Hc.
        exact (proj1 (word_plain c' Hc)).
      + unfold no_brace. rewrite forallb_app. apply andb_true_iff.
        split; [|reflexivity].
        apply (forallb_impl word); [|exact Hw]. intros c' Hc.
        exact (proj2 (word_plain c' Hc)). }
  rewrite (parse_anyscript_line_matched _ _ _ _ Hm).
  now rewrite parse_anyscript_brace_text.
Qed.

Lemma cloud_lines_all (P : str -> Prop) (points : PointSet) :
  (forall comma name p,
     comma = "" \/ comma = "," -> In (name, p) points ->
     P (cloud_line comma name p)) ->
  Forall P (cloud_lines points).
Proof.
  induction points as [|[name p] points IH]; intros H; [constructor|].
  assert (IH' : Forall P (cloud_lines points)).
  { apply IH. intros comma n q Hc Hin. apply H; [exact Hc|now right]. }
  destruct points as [|[name' p'] points].
  - constructor; [|constructor]. apply H; [now left|now left].
  - change (cloud_lines ((name, p) :: (name', p') :: points))
      with (cloud_line "," name p :: cloud_lines ((name', p') :: points)).
    constructor; [|exact IH']. apply H; [now right|now left].
Qed.

Lemma cloud_line_head (comma name : str) (p : point) :
  head_is isspace (cloud_line comma name p) = false.
Proof. now destruct p as [[x y] z]. Qed.

Lemma parse_loop_unmatched (lines : list str) (acc : dict pyval) :
  Forall (fun l => head_is isspace l = false) lines ->
  for_each parse_anyscript_line acc lines = Ok acc.
Proof.
  induction 1 as [|l lines Hl _ IH]; [reflexivity|]. cbn [for_each].
  now rewrite (parse_anyscript_line_unmatched _ _ (line_unmatched l Hl)).
Qed.

(** What the formatter writes is read back as the empty point set. *)
Lemma parse_cloud_unindented (points : PointSet) :
  parse_anyanyscript (unlines (cloud_lines points)) = Ok [].
Proof.
  unfold parse_anyanyscript.
  rewrite splitlines_unlines by apply cloud_lines_no_linebreak.
  apply parse_loop_unmatched, cloud_lines_all.
  intros comma name p _ _. apply cloud_line_head.
Qed.

Lemma parse_loop_indented (ws : str) (points : PointSet) (acc : dict pyval) :
  ws <> [] -> forallb isspace ws = true ->
  Forall (fun kv => finite_point (snd kv)) points ->
  for_each parse_anyscript_line acc (map (app ws) (cloud_lines points))
  = Ok (fold_left store_point points acc).
Proof.
  intros Hws Hsp H. revert acc.
  induction H as [|[name p] points Hp _ IH]; intros acc; [reflexivity|].
  cbn [fst snd] in Hp.
  destruct points as [|[name' p'] points].
  - cbn [cloud_lines map for_each fold_left].
    rewrite parse_anyscript_line_cloud by (assumption || now left). reflexivity.
  - change (cloud_lines ((name, p) :: (name', p') :: points))
      with (cloud_line "," name p :: cloud_lines ((name', p') :: points)).
    cbn [map for_each fold_left].
    rewrite parse_anyscript_line_cloud by (assumption || now right).
    cbn [bind]. apply IH.
Qed.

Lemma dict_set_fresh {V : Type} (k : str) (v : V) (d : dict V) :
  ~ In k (map fst d) -> dict_set k v d = d ++ [(k, v)].
Proof.
  induction d as [|[k' v'] d IH]; [reflexivity|]. cbn [map fst In dict_set app].
  intros H. rewrite str_eqb_neq by intuition congruence.
  rewrite IH by tauto. reflexivity.
Qed.

(** With names that differ the entries stand in the order of the points. *)
Lemma store_points_fresh (points : PointSet) (acc : dict pyval) :
  NoDup (map fst acc ++ map (fun kv => stored_name (sanitize (fst kv))) points) ->
  fold_left store_point points acc
  = acc ++ map (fun kv => (stored_name (sanitize (fst kv)),
                           point_value (snd kv))) points.
Proof.
  revert acc. induction points as [|[name p] points IH]; intros acc Hnd.
  - cbn. now rewrite app_nil_r.
  - cbn [fold_left map fst snd] in *. unfold store_point at 2. cbn [fst snd].
    rewrite dict_set_fresh.
    + rewrite IH.
      * now rewrite <- app_assoc.
      * rewrite map_app, <- app_assoc. exact Hnd.
    + apply NoDup_remove_2 in Hnd. intros Hin. apply Hnd, in_or_app. now left.
Qed.

Lemma indented_no_linebreak (ws : str) (points : PointSet) :
  forallb (fun c => negb (is_linebreak c)) ws = true ->
  Forall (fun l => forallb (fun c => negb (is_linebreak c)) l = true)
    (map (app ws) (cloud_lines points)).
Proof.
  intros Hws. apply Forall_map. apply cloud_lines_all.
  intros comma name p Hc _. rewrite forallb_app, Hws.
  now apply cloud_line_no_linebreak.
Qed.

Lemma stable_keys (points : PointSet) :
  Forall (fun kv => sanitizer_stable (fst kv)) points ->
  map (fun kv => (stored_name (sanitize (fst kv)), point_value (snd kv))) points
  = map (fun kv => (stored_name (fst kv), point_value (snd kv))) points.
Proof.
  intros H. apply map_ext_in. intros kv Hin.
  rewrite Forall_forall in H. now rewrite (H kv Hin).
Qed.

(** Names that differ are stored under names that differ. *)
Lemma stored_name_injective (a b : str) :
  stored_name a = stored_name b -> a = b.
Proof.
  destruct a as [|c a], b as [|c' b]; cbn [stored_name]; intros E.
  - reflexivity.
  - now destruct (app_cons_not_nil (c' :: b) [] " "%char).
  - symmetry in E. now destruct (app_cons_not_nil (c :: a) [] " "%char).
  - now apply app_inv_tail in E.
Qed.

Lemma NoDup_map_injective {A B : Type} (f : A -> B) (l : list A) :
  (forall a b, f a = f b -> a = b) -> NoDup l -> NoDup (map f l).
Proof.
  intros Hf. induction 1 as [|a l Ha _ IH]; cbn [map]; constructor; [|exact IH].
  intros Hin. apply in_map_iff in Hin as (b & E & Hb).
  apply Hf in E. now subst.
Qed.

Lemma stable_keys_differ (points : PointSet) :
  Forall (fun kv => sanitizer_stable (fst kv)) points ->
  NoDup (map fst points) ->
  NoDup (map (fun kv => stored_name (sanitize (fst kv))) points).
Proof.
  intros H Hnd.
  replace (map (fun kv => stored_name (sanitize (fst kv))) points)
    with (map stored_name (map fst points)).
  - apply NoDup_map_injective; [exact stored_name_injective|exact Hnd].
  - rewrite map_map. apply map_ext_in. intros kv Hin.
    rewrite Forall_forall in H. now rewrite (H kv Hin).
Qed.

(** C1, as the claim states it, at the point set of the one point [P1]:
    the line that the formatter writes starts with the brace, the line
    pattern asks for white space before it, and the parser gives back the
    empty point set. *)
Lemma C1_counterexample :
  NoDup (map fst [("P1", (Finite false [d1] 1, Finite false [d2] 1,
                          Finite false [d3] 1))])
  /\ Forall (fun kv => sanitizer_stable (fst kv) /\ finite_point (snd kv))
       [("P1", (Finite false [d1] 1, Finite false [d2] 1,
                Finite false [d3] 1))]
  /\ format_anyscript_pointcloud
       (as_dict [("P1", (Finite false [d1] 1, Finite false [d2] 1,
                         Finite false [d3] 1))])
     = Ok ("{1.0, 2.0, 3.0} // P1 " ++ [NL])
  /\ parse_anyanyscript ("{1.0, 2.0, 3.0} // P1 " ++ [NL]) = Ok []
  /\ parse_anyanyscript (" {1.0, 2.0, 3.0} // P1 " ++ [NL])
     = Ok [("P1 ", VArray [VFloat (Finite false [d1] 1);
                           VFloat (Finite false [d2] 1);
                           VFloat (Finite false [d3] 1)])].
Proof.
  split; [|split; [|split; [|split]]].
  - repeat constructor; cbn; intuition discriminate.
  - repeat constructor; cbn; (discriminate || lia).
  - reflexivity.
  - reflexivity.
  - reflexivity.
Qed.

(** C1, amended.  For every point set of at least one point, whatever its
    names and coordinates, [format_anyscript_pointcloud] writes a text
    whose lines start with the brace, and [parse_anyanyscript] reads that
    text as the empty point set: the line pattern asks for white space
    before the brace.  When every line of the text is indented by the same
    white space, and the names are distinct and sanitizer-stable and the
    coordinates finite, the parser gives the points in order, each under
    its name followed by the blank that the formatter writes after the
    name; a point with the empty name is stored under the empty name. *)
Theorem C1_pointcloud_round_trip (points : PointSet) :
  points <> [] ->
  exists text,
    format_anyscript_pointcloud (as_dict points) = Ok text
    /\ Forall (fun line => startswith "{" line = true) (splitlines text)
    /\ parse_anyanyscript text = Ok []
    /\ (NoDup (map fst points) ->
        Forall (fun kv => sanitizer_stable (fst kv) /\ finite_point (snd kv))
          points ->
        forall ws,
          ws <> [] ->
          forallb (fun c => isspace c && negb (is_linebreak c)) ws = true ->
          parse_anyanyscript (unlines (map (app ws) (splitlines text)))
          = Ok (map (fun kv => (stored_name (fst kv), point_value (snd kv)))
                  points)).
Proof.
  intros Hne. exists (unlines (cloud_lines points)).
  split; [now apply format_pointcloud_nonempty|].
  split.
  { rewrite splitlines_unlines by apply cloud_lines_no_linebreak.
    apply cloud_lines_all. intros comma name [[x y] z] _ _. reflexivity. }
  split; [apply parse_cloud_unindented|].
  intros Hnd H ws Hws Hsp.
  assert (Hspace : forallb isspace ws = true).
  { apply (forallb_impl _ _ _ (fun c Hc => proj1 (andb_prop _ _ Hc)) Hsp). }
  assert (Hline : forallb (fun c => negb (is_linebreak c)) ws = true).
  { apply (forallb_impl _ _ _ (fun c Hc => proj2 (andb_prop _ _ Hc)) Hsp). }
  assert (Hstable : Forall (fun kv => sanitizer_stable (fst kv)) points).
  { apply (Forall_impl _ (fun kv Hkv => proj1 Hkv) H). }
  assert (Hpoint : Forall (fun kv => finite_point (snd kv)) points).
  { apply (Forall_impl _ (fun kv Hkv => proj2 Hkv) H). }
  rewrite splitlines_unlines by apply cloud_lines_no_linebreak.
  unfold parse_anyanyscript.
  rewrite splitlines_unlines by now apply indented_no_linebreak.
  rewrite (parse_loop_indented ws points [] Hws Hspace Hpoint).
  rewrite store_points_fresh by now apply stable_keys_differ.
  cbn [app]. now rewrite stable_keys.
Qed.

Lemma C1_witness :
  exists text,
    format_anyscript_pointcloud
      (as_dict [("P1", (Finite false [d1] 1, Finite true [d2; d5] 1,
                        Finite false [d3] (-4)));
                ("", (Finite false [d7] 1, Finite false [d8] 1,
                      Finite false [d9] 1));
                ("Q_2", (Finite false [] 0, Finite false [d1] 17,
                         Finite true [d1; d2; d5] 3))]) = Ok text
    /\ Forall (fun line => startswith "{" line = true) (splitlines text)
    /\ parse_anyanyscript text = Ok []
    /\ forall ws,
         ws <> [] ->
         forallb (fun c => isspace c && negb (is_linebreak c)) ws = true ->
         parse_anyanyscript (unlines (map (app ws) (splitlines text)))
         = Ok [("P1 ", point_value (Finite false [d1] 1, Finite true [d2; d5] 1,
                                    Finite false [d3] (-4)));
               ("", point_value (Finite false [d7] 1, Finite false [d8] 1,
                                 Finite false [d9] 1));
               ("Q_2 ", point_value (Finite false [] 0, Finite false [d1] 17,
                                     Finite true [d1; d2; d5] 3))].
Proof.
  destruct (C1_pointcloud_round_trip
              [("P1", (Finite false [d1] 1, Finite true [d2; d5] 1,
                       Finite false [d3] (-4)));
               ("", (Finite false [d7] 1, Finite false [d8] 1,
                     Finite false [d9] 1));
               ("Q_2", (Finite false [] 0, Finite false [d1] 17,
                        Finite true [d1; d2; d5] 3))])
    as (text & Hformat & Hlines & Hplain & Hindented).
  - discriminate.
  - exists text. repeat split; [exact Hformat|exact Hlines|exact Hplain|].
    apply Hindented.
    + repeat constructor; cbn; intuition discriminate.
    + repeat constructor; cbn; (discriminate || lia).
Defined.

(* ================================================================== *)
(** * The value formatter and the helper [signal_last] *)
(* ================================================================== *)

Lemma anyscript_line_point (acc name : str) (p : point) :
  anyscript_line acc (name, point_value p)
  = Ok (acc ++ anyfloat_line name p ++ [NL]).
Proof.
  destruct p as [[x y] z]. unfold anyscript_line, anyfloat_line. cbn.
  repeat (rewrite <- ?app_assoc; cbn [app]). reflexivity.
Qed.

Lemma format_anyscript_loop (points : PointSet) (acc : str) :
  for_each anyscript_line acc (as_dict points)
  = Ok (acc ++ unlines (anyfloat_lines points)).
Proof.
  revert acc. induction points as [|[name p] points IH]; intros acc.
  - cbn. now rewrite app_nil_r.
  - cbn [as_dict map for_each fst snd]. rewrite anyscript_line_point.
    cbn [bind]. fold (as_dict points). rewrite IH.
    unfold anyfloat_lines, unlines. cbn [map concat fst snd].
    now rewrite <- !app_assoc.
Qed.

Lemma anyfloat_line_no_linebreak (name : str) (p : point) :
  forallb (fun c => negb (is_linebreak c)) (anyfloat_line name p) = true.
Proof.
  destruct p as [[x y] z]. unfold anyfloat_line.
  assert (Hf : forall f, forallb (fun c => negb (is_linebreak c)) (float_repr f) = true).
  { intros f. apply (forallb_impl repr_char); [|apply float_repr_chars].
    intros c Hc. now rewrite (repr_char_not_linebreak c Hc). }
  assert (Hn : forallb (fun c => negb (is_linebreak c)) (sanitize name) = true).
  { apply (forallb_impl word); [|apply sanitize_word].
    intros c Hc. now rewrite (word_not_linebreak c Hc). }
  now rewrite !forallb_app, !Hf, Hn.
Qed.

(** X1.  The value formatter returns on every point set, the empty one
    too.  Its text has one line for each point, in order: the word
    [AnyFloat], the sanitized name, and the three coordinates in braces,
    with no blank after the first comma. *)
Theorem format_anyscript_lines (points : PointSet) :
  exists out,
    format_anyscript (as_dict points) = Ok out
    /\ out = unlines (anyfloat_lines points)
    /\ splitlines out = anyfloat_lines points
    /\ length (splitlines out) = length points.
Proof.
  exists (unlines (anyfloat_lines points)).
  assert (Hs : splitlines (unlines (anyfloat_lines points)) = anyfloat_lines points).
  { apply splitlines_unlines. unfold anyfloat_lines. apply Forall_map.
    apply Forall_forall. intros [name p] _. apply anyfloat_line_no_linebreak. }
  split; [exact (format_anyscript_loop points "")|].
  split; [reflexivity|]. split; [exact Hs|].
  rewrite Hs. apply length_map.
Qed.

Lemma signal_last_from_items {A : Type} (a : A) (l : list A) :
  map snd (signal_last_from a l) = a :: l
  /\ map fst (signal_last_from a l) = repeat false (length l) ++ [true].
Proof.
  revert a. induction l as [|b l IH]; intros a; [now split|].
  destruct (IH b) as [H1 H2]. cbn [signal_last_from map fst snd length repeat app].
  now rewrite H1, H2.
Qed.

(** X2.  On an input of at least one item [signal_last] yields the items
    of the input, in order and each once; the flag is false on every item
    but the last, and true on the last. *)
Theorem signal_last_flags {A : Type} (a : A) (l : list A) :
  exists items,
    signal_last (a :: l) = Ok items
    /\ map snd items = a :: l
    /\ map fst items = repeat false (length l) ++ [true].
Proof.
  exists (signal_last_from a l). split; [reflexivity|].
  apply signal_last_from_items.
Qed.

(* ================================================================== *)
(** * Points with fewer than three coordinates *)
(* ================================================================== *)

(** X3.  Each of the three formatters reads the coordinates 0, 1 and 2 of
    a value: when the first point of the set is an array of fewer than
    three floats, the formatter raises an [IndexError], whatever follows. *)
Theorem formatters_short_point (name : str) (xs : list pyfloat)
    (rest : dict pyval) :
  (length xs < 3)%nat ->
  format_anyscript_pointcloud ((name, VArray (map VFloat xs)) :: rest)
  = Raise IndexError
  /\ format_anyscript ((name, VArray (map VFloat xs)) :: rest) = Raise IndexError
  /\ format_ppfile ((name, VArray (map VFloat xs)) :: rest) = Raise IndexError.
Proof.
  intros H. destruct xs as [|x [|y [|z xs]]]; cbn [length] in H; try lia;
    (split; [destruct rest as [|[n v] rest]; reflexivity|split; reflexivity]).
Qed.

Lemma formatters_short_point_witness :
  format_anyscript_pointcloud
    [("P1", VArray (map VFloat [Finite false [d1] 1; Finite false [d2] 1]))]
  = Raise IndexError
  /\ format_anyscript
       [("P1", VArray (map VFloat [Finite false [d1] 1; Finite false [d2] 1]))]
     = Raise IndexError
  /\ format_ppfile
       [("P1", VArray (map VFloat [Finite false [d1] 1; Finite false [d2] 1]))]
     = Raise IndexError.
Proof.
  apply (formatters_short_point "P1" [Finite false [d1] 1; Finite false [d2] 1] []).
  cbn. lia.
Defined.

(* ================================================================== *)
(** * The text typed at the prompt *)
(* ================================================================== *)

Lemma paste_loop_lines (lines typed rest : list str) :
  Forall (fun l => l <> []) typed ->
  Command.paste_loop lines (typed ++ [] :: rest) = Ok (lines ++ typed).
Proof.
  intros H. revert lines. induction H as [|l typed Hl _ IH]; intros lines.
  - cbn. now rewrite app_nil_r.
  - destruct l as [|c l]; [congruence|]. cbn [app Command.paste_loop].
    rewrite IH, <- app_assoc. reflexivity.
Qed.

(** X4.  The text typed at the prompt is read up to its first empty line:
    the lines before it are joined with line feeds, and what is typed
    after it is not read. *)
Theorem pasted_data_first_empty_line (first : str) (typed rest : list str) :
  Forall (fun l => l <> []) typed ->
  Command.pasted_data first (typed ++ [] :: rest)
  = Ok (Command.join [NL] (first :: typed)).
Proof.
  intros H. unfold Command.pasted_data.
  now rewrite (paste_loop_lines [first] typed rest H).
Qed.

Lemma pasted_data_first_empty_line_witness :
  Command.pasted_data "<!DOCTYPE PickedPoints>"
    (["<PickedPoints>"; " <point/>"] ++ [] :: ["</PickedPoints>"; ""])
  = Ok (Command.join [NL]
          ["<!DOCTYPE PickedPoints>"; "<PickedPoints>"; " <point/>"]).
Proof.
  apply (pasted_data_first_empty_line "<!DOCTYPE PickedPoints>"
           ["<PickedPoints>"; " <point/>"] ["</PickedPoints>"; ""]).
  repeat constructor; discriminate.
Defined.

(* ================================================================== *)
(** * The exceptions of the line parser *)
(* ================================================================== *)

Lemma parse_anyscript_line_raises (points : dict pyval) (line : str) (e : exn) :
  parse_anyscript_line points line = Raise e ->
  syntax_or_value_error e = false.
Proof.
  unfold parse_anyscript_line.
  destruct (re_match ANYSCRIPT_POINT_LINE line) as [[m rest]|]; [|discriminate].
  destruct (groups 2 m) as [|[val|] [|[name|] [|g gs]]];
    try (intros H; injection H as <-; reflexivity).
  unfold try_except.
  destruct (_parse_anyscript val) as [v|e']; cbn [bind]; [discriminate|].
  destruct (syntax_or_value_error e') eqn:E; [discriminate|].
  intros H. injection H as <-. exact E.
Qed.

(** X5.  [parse_anyanyscript] lets no [SyntaxError] and no [ValueError]
    out: a line whose value the literal parser refuses with one of them is
    passed over.  Another exception of the literal parser stops the
    parser, as the [TypeError] of an assignment into a tuple does. *)
Theorem parse_anyanyscript_raises (data : str) (e : exn) :
  parse_anyanyscript data = Raise e ->
  syntax_or_value_error e = false.
Proof.
  unfold parse_anyanyscript. generalize (@nil (str * pyval)).
  induction (splitlines data) as [|line lines IH]; intros points; [discriminate|].
  cbn [for_each].
  destruct (parse_anyscript_line points line) as [points'|e'] eqn:E; cbn [bind].
  - apply IH.
  - intros H. injection H as <-. exact (parse_anyscript_line_raises _ _ _ E).
Qed.

Lemma parse_anyanyscript_raises_witness :
  parse_anyanyscript " {1}, nan, {2}" = Raise TypeError
  /\ syntax_or_value_error TypeError = false.
Proof.
  split; [reflexivity|].
  apply (parse_anyanyscript_raises " {1}, nan, {2}" TypeError). reflexivity.
Defined.

(* ================================================================== *)
(** * [_recursive_replace] *)
(* ================================================================== *)

(** Induction on values, with the items of a list. *)
Lemma pyval_list_ind (P : pyval -> Prop) :
  (forall v, (forall l, v <> VList l) -> P v) ->
  (forall l, Forall P l -> P (VList l)) ->
  forall v, P v.
Proof.
  intros Hleaf Hlist. fix IH 1. intros v.
  destruct v as [| b | z | f | s | l | l | l];
    try (apply Hleaf; discriminate).
  apply Hlist. induction l as [|a l IHl]; constructor; [apply IH|exact IHl].
Qed.

Lemma replace_elem_absent (old : str) (new v : pyval) :
  occurs old v = false -> replace_elem old new v = v.
Proof.
  induction v as [v Hv | l IH] using pyval_list_ind.
  - destruct v as [| b | z | f | s | l | l | l]; try reflexivity.
    + cbn. now intros ->.
    + now destruct (Hv l).
  - cbn [occurs replace_elem]. intros H. f_equal.
    induction IH as [|a l Ha _ IHl]; [reflexivity|].
    cbn [existsb] in H. apply orb_false_iff in H as [H1 H2].
    cbn [map]. now rewrite (Ha H1), (IHl H2).
Qed.

Lemma replace_elem_clears (old : str) (new v : pyval) :
  occurs old new = false -> occurs old (replace_elem old new v) = false.
Proof.
  intros Hnew. induction v as [v Hv | l IH] using pyval_list_ind.
  - destruct v as [| b | z | f | s | l | l | l]; try reflexivity.
    + cbn [replace_elem]. destruct (str_eqb s old) eqn:E; [exact Hnew|].
      cbn [occurs]. exact E.
    + now destruct (Hv l).
  - cbn [replace_elem occurs].
    induction IH as [|a l Ha _ IHl]; [reflexivity|].
    cbn [map existsb]. now rewrite Ha, IHl.
Qed.

(** X6.  On a list [_recursive_replace] returns a list of the same
    length in which, place by place: an item equal to the string [old] is
    replaced by [new]; an item that is a list is replaced by what
    [_recursive_replace] makes of that list; any other item is kept.
    Hence, when [new] does not hold [old] itself, [old] is nowhere left,
    and a list without [old] comes back as it was.  On a tuple that has
    [old] among its items it raises a [TypeError], a tuple taking no
    assignment. *)
Theorem recursive_replace_lists (l : list pyval) (old : str) (new : pyval) :
  (exists out,
     _recursive_replace (VList l) old new = Ok (VList out)
     /\ length out = length l
     /\ (forall i v,
           nth_error l i = Some v ->
           (v = VStr old -> nth_error out i = Some new)
           /\ (forall inner,
                 v = VList inner ->
                 exists inner',
                   _recursive_replace (VList inner) old new = Ok (VList inner')
                   /\ nth_error out i = Some (VList inner'))
           /\ (v <> VStr old -> (forall inner, v <> VList inner) ->
               nth_error out i = Some v))
     /\ (occurs old new = false -> occurs old (VList out) = false)
     /\ (occurs old (VList l) = false -> out = l))
  /\ (In (VStr old) l -> _recursive_replace (VTuple l) old new = Raise TypeError).
Proof.
  split.
  - exists (map (replace_elem old new) l). split; [reflexivity|].
    split; [apply length_map|]. split; [|split].
    + intros i v Hv. rewrite nth_error_map, Hv. cbn [option_map].
      split; [|split].
      * intros ->. cbn [replace_elem]. unfold str_eqb.
        now destruct (list_eq_dec ascii_dec old old).
      * intros inner ->. now eexists.
      * intros Hold Hlist. f_equal.
        destruct v as [| b | z | f | s | inner | inner | inner]; try reflexivity.
        -- cbn [replace_elem]. rewrite str_eqb_neq; [reflexivity|congruence].
        -- now destruct (Hlist inner).
    + intros H. exact (replace_elem_clears old new (VList l) H).
    + intros H. pose proof (replace_elem_absent old new (VList l) H) as E.
      cbn [replace_elem] in E. now injection E.
  - intros H. cbn [_recursive_replace].
    replace (existsb (equals_str old) l) with true; [reflexivity|].
    symmetry. apply existsb_exists. exists (VStr old). split; [exact H|].
    cbn. unfold str_eqb. now destruct (list_eq_dec ascii_dec old old).
Qed.

(* ================================================================== *)
(** * The pick-points document *)
(* ================================================================== *)

Lemma run_step (st st' : state) (c : ascii) (s : str) :
  step st c = Ok st' -> run st (c :: s) = run st' s.
Proof. intros H. cbn [run]. now rewrite H. Qed.

(** One character of markup, read by evaluation of [step]. *)
Ltac run_next :=
  lazymatch goal with
  | |- context [run ?st (?c :: ?s)] =>
      let r := eval vm_compute in (step st c) in
      lazymatch r with
      | Ok ?st' =>
          rewrite (run_step st st' c s ltac:(vm_compute; reflexivity))
      end
  end.

(** A point element inside an open element. *)
Lemma run_point_tag_inside (x y z name rest : str) (n : str) (a : attrs)
    (kids : list element) (outer : list frame) (root : option element)
    (dt : bool) :
  forallb attr_plain x = true ->
  forallb attr_plain y = true ->
  forallb attr_plain z = true ->
  forallb attr_plain name = true ->
  run (State (Text 0) ((n, a, kids) :: outer) root dt)
    (point_tag x y z name ++ rest)
  = run (State (Text 0)
           ((n, a, Element "point" (point_attrib x y z name) [] :: kids)
            :: outer) root dt) rest.
Proof.
  intros Hx Hy Hz Hn. unfold point_tag, point_attrib.
  repeat (rewrite <- ?app_assoc; cbn [app]).
  do 10 run_next. run_value Hx.
  do 4 run_next. run_value Hy.
  do 4 run_next. run_value Hz.
  do 18 run_next. run_value Hn.
  do 4 run_next. reflexivity.
Qed.

Lemma run_points_inside (points : PointSet) (rest : str) (n : str) (a : attrs)
    (kids : list element) (outer : list frame) (root : option element)
    (dt : bool) :
  Forall (fun kv => forallb attr_plain (fst kv) = true) points ->
  run (State (Text 0) ((n, a, kids) :: outer) root dt)
    (ppfile_text points ++ rest)
  = run (State (Text 0)
           ((n, a, rev (map (fun kv => point_element (fst kv) (snd kv)) points)
                   ++ kids) :: outer) root dt) rest.
Proof.
  intros H. revert kids.
  induction H as [|[name [[x y] z]] points Hn _ IH]; intros kids; [reflexivity|].
  unfold ppfile_text. cbn [map concat fst snd point_text].
  rewrite <- app_assoc.
  rewrite run_point_tag_inside by (auto using float_repr_attr_plain).
  fold (ppfile_text points). rewrite IH. cbn [rev point_element].
  now rewrite <- app_assoc.
Qed.

(** The document read by [ElementTree]: the points under the root. *)
Lemma fromstring_pp_document (points : PointSet) :
  Forall (fun kv => forallb attr_plain (fst kv) = true) points ->
  fromstring (pp_document (ppfile_text points))
  = Ok (Element "PickedPoints" []
          (map (fun kv => point_element (fst kv) (snd kv)) points)).
Proof.
  intros H. unfold fromstring, pp_document, initial. cbn [app].
  repeat run_next. rewrite (run_points_inside points _ _ _ _ _ _ _ H).
  rewrite app_nil_r.
  remember (rev (map (fun kv => point_element (fst kv) (snd kv)) points))
    as kids eqn:E.
  repeat run_next. cbn [run bind finish st_mode st_stack st_root].
  do 2 f_equal.
  change (rev kids = map (fun kv => point_element (fst kv) (snd kv)) points).
  rewrite E. apply rev_involutive.
Qed.

Lemma iter_pp_document (points : PointSet) :
  iter "point"
    (Element "PickedPoints" []
       (map (fun kv => point_element (fst kv) (snd kv)) points))
  = map (fun kv => point_element (fst kv) (snd kv)) points.
Proof.
  unfold iter. cbn [descendants filter tag].
  change (str_eqb "PickedPoints" "point") with false. cbn iota.
  induction points as [|[name [[x y] z]] points IH]; [reflexivity|].
  cbn [map fst snd point_element descendants app filter tag].
  change (str_eqb "point" "point") with true. cbn iota. f_equal. exact IH.
Qed.

Lemma parse_pp_loop_points (points : PointSet) (acc : dict pyval) :
  Forall (fun kv => finite_point (snd kv)) points ->
  for_each parse_pp_point acc
    (map (fun kv => point_element (fst kv) (snd kv)) points)
  = Ok (fold_left store_read points acc).
Proof.
  intros H. revert acc. induction H as [|[name p] points Hp _ IH]; intros acc;
    [reflexivity|].
  cbn [map for_each fold_left fst snd].
  rewrite parse_pp_point_element by exact Hp. cbn [bind]. apply IH.
Qed.

(** What the reader makes of the document of a list of points. *)
Lemma parse_pp_document (points : PointSet) :
  Forall (fun kv => forallb attr_plain (fst kv) = true
                    /\ finite_point (snd kv)) points ->
  parse_pp_file (pp_document (ppfile_text points))
  = Ok (fold_left store_read points []).
Proof.
  intros H. unfold parse_pp_file.
  rewrite fromstring_pp_document
    by (apply (Forall_impl _ (fun kv Hkv => proj1 Hkv) H)).
  cbn [bind]. rewrite iter_pp_document.
  apply parse_pp_loop_points, (Forall_impl _ (fun kv Hkv => proj2 Hkv) H).
Qed.

Lemma store_read_fresh (points : PointSet) (acc : dict pyval) :
  NoDup (map fst acc ++ map fst points) ->
  fold_left store_read points acc = acc ++ as_dict points.
Proof.
  revert acc. induction points as [|[name p] points IH]; intros acc Hnd.
  - cbn. now rewrite app_nil_r.
  - cbn [fold_left map fst snd as_dict] in *. unfold store_read at 2.
    cbn [fst snd]. rewrite dict_set_fresh.
    + rewrite IH.
      * now rewrite <- app_assoc.
      * rewrite map_app, <- app_assoc. exact Hnd.
    + apply NoDup_remove_2 in Hnd. intros Hin. apply Hnd, in_or_app. now left.
Qed.

(** X7.  The text that [format_ppfile] writes, placed in a [PickedPoints]
    element after the document type declaration, is a pick-points document
    that [parse_pp_file] reads back as the point set: the same names and
    coordinates, in order.  The names hold no double quote, no [<], no [&]
    and no control character, and the coordinates are finite; the empty
    point set is included. *)
Theorem pp_document_round_trip (points : PointSet) :
  NoDup (map fst points) ->
  Forall (fun kv => forallb attr_plain (fst kv) = true
                    /\ finite_point (snd kv)) points ->
  exists text,
    format_ppfile (as_dict points) = Ok text
    /\ parse_pp_file
         ("<!DOCTYPE PickedPoints>" ++ [NL] ++ "<PickedPoints>" ++ [NL] ++ text
          ++ "</PickedPoints>" ++ [NL])
       = Ok (as_dict points).
Proof.
  intros Hnd H. exists (ppfile_text points).
  split; [apply format_ppfile_text|].
  change (parse_pp_file (pp_document (ppfile_text points)) = Ok (as_dict points)).
  rewrite (parse_pp_document points H). now rewrite store_read_fresh.
Qed.

Lemma pp_document_round_trip_witness :
  exists text,
    format_ppfile
      (as_dict [("P 1", (Finite false [d1] 1, Finite true [d2; d5] 1,
                         Finite false [d3] (-4)));
                ("Q", (Finite false [] 0, Finite false [d1] 17,
                       Finite true [d1; d2; d5] 3))]) = Ok text
    /\ parse_pp_file
         ("<!DOCTYPE PickedPoints>" ++ [NL] ++ "<PickedPoints>" ++ [NL] ++ text
          ++ "</PickedPoints>" ++ [NL])
       = Ok (as_dict [("P 1", (Finite false [d1] 1, Finite true [d2; d5] 1,
                               Finite false [d3] (-4)));
                      ("Q", (Finite false [] 0, Finite false [d1] 17,
                             Finite true [d1; d2; d5] 3))]).
Proof.
  apply (pp_document_round_trip
           [("P 1", (Finite false [d1] 1, Finite true [d2; d5] 1,
                     Finite false [d3] (-4)));
            ("Q", (Finite false [] 0, Finite false [d1] 17,
                   Finite true [d1; d2; d5] 3))]).
  - repeat constructor; cbn; intuition discriminate.
  - repeat constructor; cbn; (discriminate || lia).
Defined.

Lemma find_snoc {A : Type} (f : A -> bool) (l : list A) (a : A) :
  find f (l ++ [a])
  = match find f l with
    | Some x => Some x
    | None => if f a then Some a else None
    end.
Proof.
  induction l as [|b l IH]; cbn [app find]; [reflexivity|].
  destruct (f b); [reflexivity|exact IH].
Qed.

Lemma dict_get_store_read (name : str) (points : PointSet) (acc : dict pyval) :
  dict_get name (fold_left store_read points acc)
  = match last_named name points with
    | Some p => Some (point_value p)
    | None => dict_get name acc
    end.
Proof.
  unfold last_named. revert acc.
  induction points as [|[n p] points IH]; intros acc; [reflexivity|].
  cbn [fold_left rev]. rewrite IH, find_snoc.
  destruct (find _ (rev points)) as [[n' p']|]; [reflexivity|].
  cbn [option_map fst snd]. unfold store_read. cbn [fst snd].
  unfold str_eqb at 1. destruct (list_eq_dec ascii_dec name n) as [->|Hne].
  - cbn [option_map snd]. apply dict_get_set_same.
  - cbn [option_map]. apply dict_get_set_other. congruence.
Qed.

Lemma str_eqb_refl (s : str) : str_eqb s s = true.
Proof. unfold str_eqb. now destruct (list_eq_dec ascii_dec s s). Qed.

Lemma str_eqb_eq (s t : str) : str_eqb s t = true -> s = t.
Proof. unfold str_eqb. now destruct (list_eq_dec ascii_dec s t). Qed.

Lemma str_eqb_sym (s t : str) : str_eqb s t = str_eqb t s.
Proof.
  unfold str_eqb.
  destruct (list_eq_dec ascii_dec s t), (list_eq_dec ascii_dec t s); congruence.
Qed.

(** The keys of a dictionary after an assignment: a new key goes to the
    end, a key that is there keeps its place. *)
Lemma keys_dict_set {V : Type} (k : str) (v : V) (d : dict V) :
  map fst (dict_set k v d)
  = if existsb (str_eqb k) (map fst d) then map fst d else map fst d ++ [k].
Proof.
  induction d as [|[k' v'] d IH]; [reflexivity|].
  cbn [dict_set map fst existsb]. destruct (str_eqb k k'); [reflexivity|].
  cbn [map fst orb]. rewrite IH. now destruct (existsb (str_eqb k) (map fst d)).
Qed.

Lemma filter_filter {A : Type} (f g : A -> bool) (l : list A) :
  filter f (filter g l) = filter (fun x => g x && f x) l.
Proof.
  induction l as [|a l IH]; [reflexivity|]. cbn [filter].
  destruct (g a); cbn [filter andb]; now rewrite IH.
Qed.

(** A filter that every item passes keeps the list. *)
Lemma filter_all {A : Type} (keep : A -> bool) (items : list A) :
  Forall (fun a => keep a = true) items -> filter keep items = items.
Proof.
  induction 1 as [|a items Ha _ IH]; [reflexivity|].
  cbn [filter]. now rewrite Ha, IH.
Qed.

Lemma keys_store_read (points : PointSet) (acc : dict pyval) :
  map fst (fold_left store_read points acc)
  = map fst acc
    ++ filter (fun m => negb (existsb (str_eqb m) (map fst acc)))
         (first_seen (map fst points)).
Proof.
  revert acc. induction points as [|[n p] points IH]; intros acc.
  - cbn. now rewrite app_nil_r.
  - cbn [fold_left map fst first_seen filter]. rewrite IH. unfold store_read.
    cbn [fst snd]. rewrite keys_dict_set, filter_filter.
    destruct (existsb (str_eqb n) (map fst acc)) eqn:E; cbn [negb].
    + f_equal. apply filter_ext. intros m.
      destruct (str_eqb m n) eqn:Emn; [|reflexivity].
      apply str_eqb_eq in Emn. subst m. now rewrite E.
    + rewrite <- app_assoc. cbn [app]. do 2 f_equal. apply filter_ext. intros m.
      rewrite existsb_app. cbn [existsb]. rewrite orb_false_r, negb_orb.
      apply andb_comm.
Qed.

Lemma first_seen_in (names : list str) (name : str) :
  In name (first_seen names) <-> In name names.
Proof.
  induction names as [|n names IH]; [reflexivity|].
  cbn [first_seen In]. rewrite filter_In, IH.
  destruct (list_eq_dec ascii_dec n name) as [->|Hne]; [tauto|].
  rewrite str_eqb_neq by congruence. cbn [negb]. tauto.
Qed.

Lemma first_seen_nodup (names : list str) : NoDup (first_seen names).
Proof.
  induction names as [|n names IH]; cbn [first_seen]; constructor.
  - rewrite filter_In, str_eqb_refl. cbn [negb]. intros [_ H]. discriminate H.
  - now apply NoDup_filter.
Qed.

(** X8.  A pick-points document whose point elements are written as
    [format_ppfile] writes them, with names that may stand several times
    (the names hold no double quote, no [<], no [&] and no control
    character, the coordinates are finite).  The reader returns a
    dictionary with one entry for each name of the document: the names
    stand once each, in the order in which they first stand in the
    document, and the entry of a name holds the coordinates of the last
    point element of that name. *)
Theorem pp_document_last_point_wins (points : PointSet) :
  Forall (fun kv => forallb attr_plain (fst kv) = true
                    /\ finite_point (snd kv)) points ->
  exists result,
    parse_pp_file
      ("<!DOCTYPE PickedPoints>" ++ [NL] ++ "<PickedPoints>" ++ [NL]
       ++ concat (map (fun kv => point_text (fst kv) (snd kv)) points)
       ++ "</PickedPoints>" ++ [NL])
    = Ok result
    /\ map fst result = first_seen (map fst points)
    /\ NoDup (map fst result)
    /\ (forall name, In name (map fst result) <-> In name (map fst points))
    /\ (forall name,
          dict_get name result
          = option_map point_value (last_named name points)).
Proof.
  intros H. exists (fold_left store_read points []).
  assert (K : map fst (fold_left store_read points [])
              = first_seen (map fst points)).
  { rewrite keys_store_read. cbn [map app].
    apply filter_all, Forall_forall. reflexivity. }
  split; [exact (parse_pp_document points H)|]. rewrite K.
  split; [reflexivity|]. split; [apply first_seen_nodup|].
  split; [intros name; apply first_seen_in|].
  intros name. rewrite dict_get_store_read.
  now destruct (last_named name points).
Qed.

Lemma pp_document_last_point_wins_witness :
  exists result,
    parse_pp_file
      ("<!DOCTYPE PickedPoints>" ++ [NL] ++ "<PickedPoints>" ++ [NL]
       ++ concat (map (fun kv => point_text (fst kv) (snd kv))
                    [("P", (Finite false [d1] 1, Finite false [d2] 1,
                            Finite false [d3] 1));
                     ("Q", (Finite false [d4] 1, Finite false [d5] 1,
                            Finite false [d6] 1));
                     ("P", (Finite false [d7] 1, Finite false [d8] 1,
                            Finite false [d9] 1))])
       ++ "</PickedPoints>" ++ [NL])
    = Ok result
    /\ result = [("P", VArray [VFloat (Finite false [d7] 1);
                               VFloat (Finite false [d8] 1);
                               VFloat (Finite false [d9] 1)]);
                 ("Q", VArray [VFloat (Finite false [d4] 1);
                               VFloat (Finite false [d5] 1);
                               VFloat (Finite false [d6] 1)])]
    /\ map fst result = ["P"; "Q"]
    /\ dict_get "P" result
       = Some (VArray [VFloat (Finite false [d7] 1);
                       VFloat (Finite false [d8] 1);
                       VFloat (Finite false [d9] 1)]).
Proof.
  destruct (pp_document_last_point_wins
              [("P", (Finite false [d1] 1, Finite false [d2] 1,
                      Finite false [d3] 1));
               ("Q", (Finite false [d4] 1, Finite false [d5] 1,
                      Finite false [d6] 1));
               ("P", (Finite false [d7] 1, Finite false [d8] 1,
                      Finite false [d9] 1))])
    as (result & Hread & Hkeys & _ & _ & Hget).
  - repeat constructor; cbn; (discriminate || lia).
  - exists result. split; [exact Hread|]. split.
    + assert (E : Ok result
                  = Ok [("P", VArray [VFloat (Finite false [d7] 1);
                                      VFloat (Finite false [d8] 1);
                                      VFloat (Finite false [d9] 1)]);
                        ("Q", VArray [VFloat (Finite false [d4] 1);
                                      VFloat (Finite false [d5] 1);
                                      VFloat (Finite false [d6] 1)])]).
      { rewrite <- Hread. vm_compute. reflexivity. }
      now injection E.
    + split; [exact Hkeys|]. exact (Hget "P").
Defined.

(* ================================================================== *)
(** * Names that [format_ppfile] writes as they are *)
(* ================================================================== *)

Lemma run_step_raise (st : state) (c : ascii) (s : str) (e : exn) :
  step st c = Raise e -> run st (c :: s) = Raise e.
Proof. intros H. cbn [run]. now rewrite H. Qed.

(** An attribute value of plain characters that runs into a [<]. *)
Lemma run_attr_value_lt n a k stk root dt (w v rest : str) :
  forallb attr_plain w = true ->
  run (State (AttrValue n a k DQ v false) stk root dt) (w ++ "<"%char :: rest)
  = Raise invalid_token.
Proof.
  revert v. induction w as [|c w IH]; intros v Hw.
  - apply run_step_raise. reflexivity.
  - cbn [forallb] in Hw. apply andb_true_iff in Hw as [Hc Hw].
    cbn [app]. rewrite (run_step _ _ c _ (step_attr_plain _ _ _ _ _ _ _ c Hc)).
    now apply IH.
Qed.

Lemma run_point_tag_lt (x y z a b rest : str) (n : str) (at' : attrs)
    (kids : list element) (outer : list frame) (root : option element)
    (dt : bool) :
  forallb attr_plain x = true ->
  forallb attr_plain y = true ->
  forallb attr_plain z = true ->
  forallb attr_plain a = true ->
  run (State (Text 0) ((n, at', kids) :: outer) root dt)
    (point_tag x y z (a ++ "<"%char :: b) ++ rest)
  = Raise invalid_token.
Proof.
  intros Hx Hy Hz Ha. unfold point_tag.
  repeat (rewrite <- ?app_assoc; cbn [app]).
  do 10 run_next. run_value Hx.
  do 4 run_next. run_value Hy.
  do 4 run_next. run_value Hz.
  do 18 run_next. now apply run_attr_value_lt.
Qed.

(** X9.  [format_ppfile] writes a name as it is, where the other two
    formatters sanitize it: its text is the [point] elements with the
    names of the points between the quotes.  Let the name of a point hold
    a [<], with no double quote, no [<], no [&] and no control character
    before it in that name nor in the names of the points before it.
    Then the document around the text is not well-formed: [ElementTree]
    raises a [ParseError] whose text starts with
    [not well-formed (invalid token)], and the reader raises a
    [ValueError] whose message is [Could not parse XML file: ] followed
    by that text. *)
Theorem format_ppfile_name_not_escaped (before after : PointSet)
    (a b : str) (p : point) :
  Forall (fun kv => forallb attr_plain (fst kv) = true) before ->
  forallb attr_plain a = true ->
  exists text,
    format_ppfile (as_dict (before ++ (a ++ "<" ++ b, p) :: after)) = Ok text
    /\ text = concat (map (fun kv => point_text (fst kv) (snd kv))
                        (before ++ (a ++ "<" ++ b, p) :: after))
    /\ refused "not well-formed (invalid token)"
         ("<!DOCTYPE PickedPoints>" ++ [NL] ++ "<PickedPoints>" ++ [NL] ++ text
          ++ "</PickedPoints>" ++ [NL]).
Proof.
  intros Hb Ha. eexists. split; [apply format_ppfile_text|].
  split; [reflexivity|]. apply refused_diagnostic.
  unfold fromstring, initial. cbn [app].
  repeat run_next.
  unfold ppfile_text. rewrite map_app, concat_app, <- app_assoc.
  fold (ppfile_text before). rewrite (run_points_inside before _ _ _ _ _ _ _ Hb).
  destruct p as [[x y] z]. cbn [map concat fst snd point_text].
  rewrite <- !app_assoc.
  rewrite run_point_tag_lt by (auto using float_repr_attr_plain).
  reflexivity.
Qed.

Lemma format_ppfile_name_not_escaped_witness :
  exists text,
    format_ppfile
      (as_dict ([("P1", (Finite false [d1] 1, Finite false [d2] 1,
                         Finite false [d3] 1))]
                ++ ("a" ++ "<" ++ "b", (Finite false [d4] 1, Finite false [d5] 1,
                                        Finite false [d6] 1)) :: [])) = Ok text
    /\ text = concat (map (fun kv => point_text (fst kv) (snd kv))
                        ([("P1", (Finite false [d1] 1, Finite false [d2] 1,
                                  Finite false [d3] 1))]
                         ++ ("a" ++ "<" ++ "b",
                             (Finite false [d4] 1, Finite false [d5] 1,
                              Finite false [d6] 1)) :: []))
    /\ refused "not well-formed (invalid token)"
         ("<!DOCTYPE PickedPoints>" ++ [NL] ++ "<PickedPoints>" ++ [NL] ++ text
          ++ "</PickedPoints>" ++ [NL]).
Proof.
  apply (format_ppfile_name_not_escaped
           [("P1", (Finite false [d1] 1, Finite false [d2] 1,
                    Finite false [d3] 1))] [] "a" "b"
           (Finite false [d4] 1, Finite false [d5] 1, Finite false [d6] 1)).
  - repeat constructor.
  - reflexivity.
Defined.

(* ================================================================== *)
(** * The command [convert] *)
(* ================================================================== *)

(** X10.  On a text that starts as a pick-points document and in which
    the reader finds no point (none is there, or none has coordinates that
    read as floats), [convert] writes the heading of the point cloud and
    then stops with the [RuntimeError] of the point cloud formatter: the
    value form is not written. *)
Theorem convert_no_points (data : str) :
  startswith "<!DOCTYPE PickedPoints>" data = true ->
  parse_pp_file data = Ok [] ->
  Command.convert data ""
  = ([NL; NL] ++ [NL] ++ [NL; NL] ++ " Point cloud:" ++ [NL]
     ++ "================================" ++ [NL],
     Raise (RuntimeError "generator raised StopIteration")).
Proof.
  intros Hstart Hparse.
  unfold Command.convert, Command.io_bind, Command.lift, Command.print.
  rewrite Hstart, Hparse. reflexivity.
Qed.

Lemma convert_no_points_witness :
  Command.convert
    ("<!DOCTYPE PickedPoints>" ++ [NL] ++ "<PickedPoints>" ++ [NL]
     ++ "</PickedPoints>" ++ [NL]) ""
  = ([NL; NL] ++ [NL] ++ [NL; NL] ++ " Point cloud:" ++ [NL]
     ++ "================================" ++ [NL],
     Raise (RuntimeError "generator raised StopIteration")).
Proof.
  apply (convert_no_points
           ("<!DOCTYPE PickedPoints>" ++ [NL] ++ "<PickedPoints>" ++ [NL]
            ++ "</PickedPoints>" ++ [NL])); reflexivity.
Defined.

Lemma contains_char (c : ascii) (s : str) :
  contains [c] s = existsb (Ascii.eqb c) s.
Proof.
  induction s as [|a s IH]; [reflexivity|].
  cbn [contains startswith existsb]. now rewrite andb_true_r, IH.
Qed.

Lemma existsb_none {A : Type} (f p : A -> bool) (l : list A) :
  (forall a, p a = true -> f a = false) ->
  forallb p l = true -> existsb f l = false.
Proof.
  intros H. induction l as [|a l IH]; [reflexivity|]. cbn [forallb existsb].
  intros Hl. apply andb_true_iff in Hl as [Ha Hl]. now rewrite (H a Ha), (IH Hl).
Qed.

Lemma cloud_char_not_equals (c : ascii) :
  cloud_char c = true -> Ascii.eqb "=" c = false.
Proof. each_char c; vm_compute; congruence. Qed.

Lemma repr_char_cloud_char (c : ascii) : repr_char c = true -> cloud_char c = true.
Proof. unfold cloud_char. now intros ->. Qed.

Lemma word_cloud_char (c : ascii) : word c = true -> cloud_char c = true.
Proof. unfold cloud_char. intros ->. now rewrite orb_true_r. Qed.

Lemma cloud_line_chars (comma name : str) (p : point) :
  comma = "" \/ comma = "," ->
  forallb cloud_char (cloud_line comma name p) = true.
Proof.
  intros Hc. destruct p as [[x y] z]. unfold cloud_line.
  assert (Hf : forall f, forallb cloud_char (float_repr f) = true).
  { intros f. apply (forallb_impl repr_char); [|apply float_repr_chars].
    exact repr_char_cloud_char. }
  assert (Hn : forallb cloud_char (sanitize name) = true).
  { apply (forallb_impl word); [|apply sanitize_word]. exact word_cloud_char. }
  rewrite !forallb_app, !Hf, Hn. now destruct Hc as [-> | ->].
Qed.

Lemma unlines_chars (p : ascii -> bool) (lines : list str) :
  p NL = true ->
  Forall (fun l => forallb p l = true) lines ->
  forallb p (unlines lines) = true.
Proof.
  intros Hnl. induction 1 as [|l lines Hl _ IH]; [reflexivity|].
  unfold unlines. cbn [map concat]. fold (unlines lines).
  rewrite !forallb_app, Hl, IH. cbn. now rewrite Hnl.
Qed.

Lemma cloud_text_no_equals (points : PointSet) :
  contains "=" (unlines (cloud_lines points)) = false.
Proof.
  rewrite contains_char.
  apply (existsb_none _ cloud_char); [exact cloud_char_not_equals|].
  apply unlines_chars; [reflexivity|]. apply cloud_lines_all.
  intros comma name p Hc _. now apply cloud_line_chars.
Qed.

Lemma cloud_text_head (points : PointSet) :
  points <> [] -> exists t, unlines (cloud_lines points) = "{"%char :: t.
Proof.
  destruct points as [|[name [[x y] z]] [|q rest]]; [congruence| |]; intros _.
  - now eexists.
  - change (cloud_lines ((name, (x, y, z)) :: q :: rest))
      with (cloud_line "," name (x, y, z) :: cloud_lines (q :: rest)).
    now eexists.
Qed.

Lemma str_lstrip_snoc (u : str) (c : ascii) :
  isspace c = false -> exists u', Command.str_lstrip (u ++ [c]) = u' ++ [c].
Proof.
  intros Hc. induction u as [|a u [u' IH]].
  - exists []. cbn. now rewrite Hc.
  - cbn [app Command.str_lstrip]. destruct (isspace a).
    + now exists u'.
    + now exists (a :: u).
Qed.

(** [s.strip()] keeps a first character that is no white space. *)
Lemma str_strip_head (c : ascii) (s : str) :
  isspace c = false -> exists t, Command.str_strip (c :: s) = c :: t.
Proof.
  intros Hc. unfold Command.str_strip. cbn [Command.str_lstrip]. rewrite Hc.
  cbn [rev]. destruct (str_lstrip_snoc (rev s) c Hc) as [u' ->].
  rewrite rev_app_distr. now eexists.
Qed.

Lemma convert_cloud_text (points : PointSet) :
  points <> [] ->
  Command.convert (unlines (cloud_lines points)) "" = ([NL; NL] ++ [NL], Ok tt).
Proof.
  intros Hne. unfold Command.convert. rewrite cloud_text_no_equals.
  destruct (cloud_text_head points Hne) as [t ->]. reflexivity.
Qed.

Lemma convert_letter_text (t : str) :
  Command.convert ("A"%char :: t) "" = ([NL; NL] ++ [NL], Ok tt).
Proof.
  unfold Command.convert.
  destruct (str_strip_head "A" t eq_refl) as [t' ->].
  cbn [startswith Ascii.eqb Bool.eqb andb].
  now rewrite andb_false_r.
Qed.

Lemma convert_values_text (points : PointSet) :
  Command.convert (unlines (anyfloat_lines points)) "" = ([NL; NL] ++ [NL], Ok tt).
Proof.
  destruct points as [|kv points]; [reflexivity|].
  assert (E : exists t, unlines (anyfloat_lines (kv :: points)) = "A"%char :: t).
  { destruct kv as [name [[x y] z]]. now eexists. }
  destruct E as [t ->]. apply convert_letter_text.
Qed.

Lemma Ok_inj {A : Type} (a b : A) : Ok a = Ok b -> a = b.
Proof. congruence. Qed.

(** X11.  [convert] does not read back what it writes.  Given the point
    cloud or the value form of a point set as its text, it takes neither
    branch: the point cloud holds no [=], the value form does not start
    with a brace, and neither starts as a pick-points document.  The
    command writes its blank lines and returns. *)
Theorem convert_own_output (points : PointSet) (text : str) :
  format_anyscript_pointcloud (as_dict points) = Ok text
  \/ format_anyscript (as_dict points) = Ok text ->
  Command.convert text "" = ([NL; NL] ++ [NL], Ok tt).
Proof.
  intros [H|H].
  - destruct points as [|kv points]; [discriminate|].
    rewrite format_pointcloud_nonempty in H by discriminate.
    apply Ok_inj in H. subst text. now apply convert_cloud_text.
  - unfold format_anyscript in H. rewrite format_anyscript_loop in H.
    apply Ok_inj in H. subst text. apply convert_values_text.
Qed.

Lemma convert_own_output_witness :
  Command.convert ("{1.0, 2.0, 3.0} // P1 " ++ [NL]) "" = ([NL; NL] ++ [NL], Ok tt).
Proof.
  apply (convert_own_output
           [("P1", (Finite false [d1] 1, Finite false [d2] 1,
                    Finite false [d3] 1))]).
  left. reflexivity.
Defined.

(** The two texts that [convert] hands to [click.echo] hold no escape
    character. *)
Lemma cloud_text_no_escape (points : PointSet) :
  existsb (Ascii.eqb "027"%char) (unlines (cloud_lines points)) = false.
Proof.
  apply (existsb_none _ cloud_char).
  - intros c. each_char c; vm_compute; congruence.
  - apply unlines_chars; [reflexivity|]. apply cloud_lines_all.
    intros comma name p Hc _. now apply cloud_line_chars.
Qed.

Lemma values_text_no_escape (points : PointSet) :
  existsb (Ascii.eqb "027"%char) (unlines (anyfloat_lines points)) = false.
Proof.
  apply (existsb_none _ (fun c => negb (Ascii.eqb "027"%char c))).
  - intros c. now destruct (Ascii.eqb "027"%char c).
  - apply unlines_chars; [reflexivity|]. unfold anyfloat_lines.
    apply Forall_map, Forall_forall. intros [name [[x y] z]] _.
    cbn [fst snd]. unfold anyfloat_line.
    assert (Hf : forall f, forallb (fun c => negb (Ascii.eqb "027"%char c))
                             (float_repr f) = true).
    { intros f. apply (forallb_impl repr_char); [|apply float_repr_chars].
      intros c. each_char c; vm_compute; congruence. }
    assert (Hn : forallb (fun c => negb (Ascii.eqb "027"%char c))
                   (sanitize name) = true).
    { apply (forallb_impl word); [|apply sanitize_word].
      intros c. each_char c; vm_compute; congruence. }
    now rewrite !forallb_app, !Hf, Hn.
Qed.

Lemma startswith_app (p s : str) : startswith p (p ++ s) = true.
Proof.
  induction p as [|c p IH]; [reflexivity|]. cbn [app startswith].
  now rewrite Ascii.eqb_refl, IH.
Qed.

(** X12.  On the pick-points document of a point set that is not empty
    [convert] writes, after its blank lines, the heading and the text of
    the point cloud and then the heading and the text of the value form,
    each text as its formatter gives it for the point set, and returns. *)
Theorem convert_pp_document (points : PointSet) :
  points <> [] ->
  NoDup (map fst points) ->
  Forall (fun kv => forallb attr_plain (fst kv) = true
                    /\ finite_point (snd kv)) points ->
  exists pp cloud values,
    format_ppfile (as_dict points) = Ok pp
    /\ format_anyscript_pointcloud (as_dict points) = Ok cloud
    /\ format_anyscript (as_dict points) = Ok values
    /\ Command.convert
         ("<!DOCTYPE PickedPoints>" ++ [NL] ++ "<PickedPoints>" ++ [NL] ++ pp
          ++ "</PickedPoints>" ++ [NL]) ""
       = ([NL; NL] ++ [NL]
          ++ [NL; NL] ++ " Point cloud:" ++ [NL]
          ++ "================================" ++ [NL]
          ++ cloud ++ [NL]
          ++ [NL; NL] ++ " Anyscript values:" ++ [NL]
          ++ "================================" ++ [NL]
          ++ values ++ [NL],
          Ok tt).
Proof.
  intros Hne Hnd H.
  exists (ppfile_text points), (unlines (cloud_lines points)),
    (unlines (anyfloat_lines points)).
  split; [apply format_ppfile_text|].
  split; [now apply format_pointcloud_nonempty|].
  split; [exact (format_anyscript_loop points "")|].
  unfold Command.convert, Command.io_bind, Command.lift, Command.echo,
    Command.print, Command.ruler.
  rewrite startswith_app.
  change (parse_pp_file _) with (parse_pp_file (pp_document (ppfile_text points))).
  rewrite (parse_pp_document points H), store_read_fresh by exact Hnd.
  cbn [app]. rewrite format_pointcloud_nonempty by exact Hne.
  rewrite cloud_text_no_escape.
  unfold format_anyscript. rewrite format_anyscript_loop.
  cbn [app]. rewrite values_text_no_escape.
  f_equal. repeat (rewrite <- ?app_assoc; cbn [app]). reflexivity.
Qed.

Lemma convert_pp_document_witness :
  exists pp cloud values,
    format_ppfile
      (as_dict [("P 1", (Finite false [d1] 1, Finite true [d2; d5] 1,
                         Finite false [d3] (-4)))]) = Ok pp
    /\ format_anyscript_pointcloud
         (as_dict [("P 1", (Finite false [d1] 1, Finite true [d2; d5] 1,
                            Finite false [d3] (-4)))]) = Ok cloud
    /\ format_anyscript
         (as_dict [("P 1", (Finite false [d1] 1, Finite true [d2; d5] 1,
                            Finite false [d3] (-4)))]) = Ok values
    /\ Command.convert
         ("<!DOCTYPE PickedPoints>" ++ [NL] ++ "<PickedPoints>" ++ [NL] ++ pp
          ++ "</PickedPoints>" ++ [NL]) ""
       = ([NL; NL] ++ [NL]
          ++ [NL; NL] ++ " Point cloud:" ++ [NL]
          ++ "================================" ++ [NL]
          ++ cloud ++ [NL]
          ++ [NL; NL] ++ " Anyscript values:" ++ [NL]
          ++ "================================" ++ [NL]
          ++ values ++ [NL],
          Ok tt).
Proof.
  apply (convert_pp_document
           [("P 1", (Finite false [d1] 1, Finite true [d2; d5] 1,
                     Finite false [d3] (-4)))]).
  - discriminate.
  - repeat constructor; cbn; intuition discriminate.
  - repeat constructor; cbn; (discriminate || lia).
Defined.

(* ================================================================== *)
(** * The literal parser on a list of floats *)
(* ================================================================== *)

Lemma floats_text_cons (x : pyfloat) (xs : list pyfloat) :
  floats_text (x :: xs)
  = float_repr x ++ match xs with
                    | [] => ""
                    | _ :: _ => ", " ++ floats_text xs
                    end.
Proof.
  unfold floats_text. destruct xs as [|y xs]; cbn [map Command.join].
  - now rewrite app_nil_r.
  - reflexivity.
Qed.

Lemma tokens_from_floats (xs : list pyfloat) (rest : str) :
  Forall (fun x => isfinite x = true /\ canonical x) xs ->
  tokens_from 0 (floats_text xs ++ "]"%char :: rest)
  = let* ts := tokens_from 0 rest in Ok (items_tokens xs ++ TRBrack :: ts).
Proof.
  induction 1 as [|x xs [Hf Hc] Hxs IH].
  - cbn. now destruct (tokens_from 0 rest).
  - rewrite floats_text_cons. destruct xs as [|y xs].
    + rewrite app_nil_r.
      rewrite (tokens_from_float x _ Hf Hc (after_number_bracket _)).
      change (tokens_from 0 ("]"%char :: rest))
        with (let* ts := tokens_from 0 rest in Ok (TRBrack :: ts)).
      cbn [items_tokens]. now destruct (tokens_from 0 rest).
    + rewrite <- !app_assoc. cbn [app].
      rewrite (tokens_from_float x _ Hf Hc (after_number_comma _)).
      change (tokens_from 0 (","%char :: " "%char :: ?s))
        with (let* ts := tokens_from 0 s in Ok (TComma :: ts)).
      rewrite IH. change (items_tokens (x :: y :: xs))
        with (float_tokens x ++ TComma :: items_tokens (y :: xs)).
      destruct (tokens_from 0 rest); cbn [bind]; [|reflexivity].
      now rewrite <- app_assoc.
Qed.

Lemma parse_sum_float (x : pyfloat) (g : nat) (rest : list token) :
  isfinite x = true ->
  parse_sum (4 + g) (float_tokens x ++ TComma :: rest)
  = Ok (float_expr x, TComma :: rest)
  /\ parse_sum (4 + g) (float_tokens x ++ TRBrack :: rest)
     = Ok (float_expr x, TRBrack :: rest).
Proof.
  destruct x as [[|] ds pt| |]; try discriminate; intros _; split; reflexivity.
Qed.

Lemma parse_items_step (f : nat) (ts ts1 : list token) (e : expr) :
  (forall r, ts <> TRBrack :: r) ->
  parse_sum f ts = Ok (e, ts1) ->
  parse_items (S f) ts
  = match ts1 with
    | TRBrack :: ts2 => Ok ([e], false, ts2)
    | TComma :: ts2 =>
        let* (es, _, ts3) := parse_items f ts2 in Ok (e :: es, true, ts3)
    | _ => Raise SyntaxError
    end.
Proof.
  intros Hne H. destruct ts as [|t ts]; [|destruct t];
    try (cbn [parse_items]; rewrite H; reflexivity).
  now destruct (Hne ts).
Qed.

Lemma float_tokens_not_bracket (x : pyfloat) (rest r : list token) :
  isfinite x = true -> float_tokens x ++ rest <> TRBrack :: r.
Proof. destruct x as [[|] ds pt| |]; discriminate. Qed.

Lemma parse_items_floats (xs : list pyfloat) (g : nat) (rest : list token) :
  Forall (fun x => isfinite x = true) xs ->
  exists comma,
    parse_items (length xs + 5 + g) (items_tokens xs ++ TRBrack :: rest)
    = Ok (map float_expr xs, comma, rest).
Proof.
  intros H. revert g. induction H as [|x xs Hx Hxs IH]; intros g.
  - exists false. reflexivity.
  - cbn [length]. replace (S (length xs) + 5 + g)%nat
      with (S (4 + (length xs + 1 + g)))%nat by lia.
    destruct xs as [|y xs].
    + exists false. cbn [items_tokens map].
      rewrite (parse_items_step _ _ _ _
                 (fun r => float_tokens_not_bracket x _ r Hx)
                 (proj2 (parse_sum_float x _ rest Hx))).
      reflexivity.
    + exists true.
      change (items_tokens (x :: y :: xs))
        with (float_tokens x ++ TComma :: items_tokens (y :: xs)).
      rewrite <- app_assoc. cbn [app].
      rewrite (parse_items_step _ _ _ _
                 (fun r => float_tokens_not_bracket x _ r Hx)
                 (proj1 (parse_sum_float x _ _ Hx))).
      destruct (IH g) as [comma IH'].
      replace (4 + (length (y :: xs) + 1 + g))%nat
        with (length (y :: xs) + 5 + g)%nat by lia.
      rewrite IH'. reflexivity.
Qed.

Lemma items_tokens_length (xs : list pyfloat) :
  Forall (fun x => isfinite x = true) xs ->
  (length xs <= length (items_tokens xs))%nat.
Proof.
  induction 1 as [|x xs Hx Hxs IH]; [reflexivity|].
  destruct x as [[|] ds pt| |]; try discriminate;
    destruct xs as [|y xs]; cbn [items_tokens float_tokens app length] in *;
    rewrite ?length_app; cbn [length]; lia.
Qed.

(** The parser on the tokens of a bracketed list of floats. *)
Lemma parse_float_list (xs : list pyfloat) :
  Forall (fun x => isfinite x = true) xs ->
  PyAst.parse (TLBrack :: items_tokens xs ++ [TRBrack])
  = Ok (EList (map float_expr xs)).
Proof.
  intros H. unfold PyAst.parse.
  pose proof (items_tokens_length xs H) as Hlen.
  set (ts := TLBrack :: items_tokens xs ++ [TRBrack]).
  assert (Hfuel : exists g, (5 * length ts + 5 = 3 + (length xs + 5 + g))%nat).
  { exists (5 * length ts + 5 - 3 - (length xs + 5))%nat.
    subst ts. cbn [length]. rewrite length_app. cbn [length]. lia. }
  destruct Hfuel as [g ->]. subst ts.
  destruct (parse_items_floats xs g [] H) as [comma Hitems].
  cbn [Nat.add parse_top parse_sum parse_factor parse_atom].
  rewrite Hitems. reflexivity.
Qed.

Lemma convert_float_expr (x : pyfloat) :
  isfinite x = true -> PyAst.convert (float_expr x) = Ok (VFloat x).
Proof. destruct x as [[|] ds pt| |]; try discriminate; reflexivity. Qed.

Lemma convert_float_list (xs : list pyfloat) :
  Forall (fun x => isfinite x = true) xs ->
  PyAst.convert (EList (map float_expr xs)) = Ok (VList (map VFloat xs)).
Proof.
  induction 1 as [|x xs Hx Hxs IH]; [reflexivity|].
  cbn [map]. cbn [PyAst.convert] in IH |- *.
  rewrite (convert_float_expr x Hx). cbn [bind].
  match type of IH with
  | bind ?m _ = _ => destruct m as [vs|e]; [|discriminate]
  end.
  cbn [bind] in IH |- *. apply Ok_inj in IH. injection IH as ->. reflexivity.
Qed.

Lemma literal_eval_float_list (xs : list pyfloat) :
  Forall (fun x => isfinite x = true /\ canonical x) xs ->
  literal_eval ("[" ++ floats_text xs ++ "]") = Ok (VList (map VFloat xs)).
Proof.
  intros H.
  assert (Hf : Forall (fun x => isfinite x = true) xs)
    by (apply (Forall_impl _ (fun x Hx => proj1 Hx) H)).
  unfold literal_eval. cbn [app head_is Ascii.eqb Bool.eqb orb].
  change (tokens_from 0 ("["%char :: ?s))
    with (let* ts := tokens_from 0 s in Ok (TLBrack :: ts)).
  rewrite (tokens_from_floats xs [] H). cbn [tokens_from bind].
  rewrite (parse_float_list xs Hf). cbn [bind].
  apply (convert_float_list xs Hf).
Qed.

Lemma floats_text_chars (xs : list pyfloat) :
  forallb (fun c => repr_char c || existsb (Ascii.eqb c) ", ") (floats_text xs)
  = true.
Proof.
  assert (Hf : forall f,
             forallb (fun c => repr_char c || existsb (Ascii.eqb c) ", ")
               (float_repr f) = true).
  { intros f. apply (forallb_impl repr_char); [|apply float_repr_chars].
    now intros c ->. }
  induction xs as [|x xs IH]; [reflexivity|].
  rewrite floats_text_cons. destruct xs as [|y xs].
  - now rewrite app_nil_r.
  - now rewrite !forallb_app, Hf, IH.
Qed.

Lemma list_char_no_brace (c : ascii) :
  repr_char c || existsb (Ascii.eqb c) ", " = true ->
  Ascii.eqb "{" c = false /\ Ascii.eqb "}" c = false.
Proof. each_char c; vm_compute; intuition congruence. Qed.

Lemma replace_braces_floats (xs : list pyfloat) :
  replace "}" "]" (replace "{" "[" ("{" ++ floats_text xs ++ "}"))
  = "[" ++ floats_text xs ++ "]".
Proof.
  assert (Hid : forall a b, a = "{"%char \/ a = "}"%char ->
            map (fun c => if Ascii.eqb a c then b else c) (floats_text xs)
            = floats_text xs).
  { intros a b Ha.
    apply (map_id_on _ (fun c => repr_char c || existsb (Ascii.eqb c) ", "));
      [|apply floats_text_chars].
    intros c Hc. destruct (list_char_no_brace c Hc) as [H1 H2].
    destruct Ha as [-> | ->]; [now rewrite H1|now rewrite H2]. }
  rewrite (replace_char "{" "["), !map_app, Hid by tauto.
  cbn [map Ascii.eqb Bool.eqb].
  rewrite (replace_char "}" "]"), !map_app, Hid by tauto.
  reflexivity.
Qed.

Lemma floats_text_not_ellipsis (xs : list pyfloat) :
  Forall (fun x => isfinite x = true /\ canonical x) xs ->
  str_eqb ("[" ++ floats_text xs ++ "]") "[...]" = false.
Proof.
  intros H. destruct H as [|x xs [Hf _] _]; [reflexivity|].
  rewrite floats_text_cons.
  destruct (float_repr_head x Hf) as (c & t & E & Hc). rewrite E.
  unfold str_eqb. destruct (list_eq_dec _ _ _) as [H|H]; [|reflexivity].
  cbn [app] in H. congruence.
Qed.

Lemma np_array_floats (xs : list pyfloat) :
  np_array (map VFloat xs) = Ok (VArray (map VFloat xs)).
Proof.
  unfold np_array. now rewrite (forallb_map_const is_float VFloat xs).
Qed.

(** X13.  The literal parser reads a list of finite floats, written as
    the formatters write floats and separated by a comma and a blank, as
    the array of these floats, between braces and between square brackets
    alike, for any number of floats, none included. *)
Theorem parse_anyscript_float_list (xs : list pyfloat) :
  Forall (fun x => isfinite x = true /\ canonical x) xs ->
  _parse_anyscript ("{" ++ floats_text xs ++ "}") = Ok (VArray (map VFloat xs))
  /\ _parse_anyscript ("[" ++ floats_text xs ++ "]")
     = Ok (VArray (map VFloat xs)).
Proof.
  intros H. split.
  - unfold _parse_anyscript.
    replace (startswith "{" ("{" ++ floats_text xs ++ "}")
             && endswith "}" ("{" ++ floats_text xs ++ "}")) with true.
    + rewrite replace_braces_floats, (floats_text_not_ellipsis xs H).
      rewrite (literal_eval_float_list xs H). cbn [try_except bind].
      apply np_array_floats.
    + symmetry. apply andb_true_iff. split; [reflexivity|].
      rewrite !app_assoc. apply endswith_app.
  - unfold _parse_anyscript.
    change (startswith "{" ("[" ++ floats_text xs ++ "]")) with false.
    cbn [andb]. rewrite (floats_text_not_ellipsis xs H).
    rewrite (literal_eval_float_list xs H). cbn [try_except bind].
    apply np_array_floats.
Qed.

Lemma parse_anyscript_float_list_witness :
  _parse_anyscript
    ("{" ++ floats_text [Finite false [d1] 1; Finite true [d2; d5] 1;
                         Finite false [d3] (-4); Finite false [d1] 17] ++ "}")
  = Ok (VArray (map VFloat [Finite false [d1] 1; Finite true [d2; d5] 1;
                            Finite false [d3] (-4); Finite false [d1] 17]))
  /\ _parse_anyscript
       ("[" ++ floats_text [Finite false [d1] 1; Finite true [d2; d5] 1;
                            Finite false [d3] (-4); Finite false [d1] 17] ++ "]")
     = Ok (VArray (map VFloat [Finite false [d1] 1; Finite true [d2; d5] 1;
                               Finite false [d3] (-4); Finite false [d1] 17])).
Proof.
  apply (parse_anyscript_float_list
           [Finite false [d1] 1; Finite true [d2; d5] 1;
            Finite false [d3] (-4); Finite false [d1] 17]).
  repeat constructor; cbn; (discriminate || lia).
Defined.

(* ================================================================== *)
(** * The literal parser on a bare word *)
(* ================================================================== *)

(** What the parts of the literal parser ask of a character of a word. *)
Lemma ident_char_plain (c : ascii) :
  is_ident_char c = true ->
  bare_char c = true
  /\ Ascii.eqb SQ c = false
  /\ Ascii.eqb c "\" || Ascii.eqb c "000" = false
  /\ Ascii.eqb "n" c && false = false.
Proof. each_char c; vm_compute; intuition congruence. Qed.

Lemma ident_start_lex (c : ascii) :
  is_ident_start c = true ->
  is_ident_char c = true
  /\ is_blank c = false /\ is_ascii_digit c = false /\ is_quote c = false
  /\ Ascii.eqb c "." = false
  /\ Ascii.eqb "{" c = false /\ Ascii.eqb "[" c = false
  /\ Ascii.eqb DQ c = false /\ Ascii.eqb "," c = false.
Proof. each_char c; vm_compute; intuition congruence. Qed.

Lemma span_all (p : ascii -> bool) (w : str) :
  forallb p w = true -> span p w = (w, []).
Proof.
  induction w as [|c w IH]; [reflexivity|]. cbn [forallb span].
  intros H. apply andb_true_iff in H as [-> Hw]. now rewrite (IH Hw).
Qed.

Lemma lex_name_word (w : str) :
  forallb is_ident_char w = true ->
  mem w keywords = false ->
  lex_name w = Ok (TName w, length w).
Proof.
  intros Hw Hk. unfold lex_name. now rewrite (span_all _ w Hw), Hk.
Qed.

Lemma tokens_from_word (c : ascii) (t : str) :
  is_ident_start c = true ->
  forallb is_ident_char t = true ->
  mem (c :: t) keywords = false ->
  tokens_from 0 (c :: t) = Ok [TName (c :: t)].
Proof.
  intros Hc Ht Hk.
  destruct (ident_start_lex c Hc) as (Hi & Hb & Hd & Hq & Hdot & _).
  rewrite <- (app_nil_r (c :: t)) at 1.
  rewrite (tokens_from_token (c :: t) [] (TName (c :: t))); [reflexivity| | |].
  - exact Hb.
  - discriminate.
  - rewrite app_nil_r. cbn [lex_one]. rewrite Hd, Hdot, Hq, Hc. cbn [andb].
    apply lex_name_word; [|exact Hk]. cbn [forallb]. now rewrite Hi, Ht.
Qed.

Lemma lex_string_body_word (w : str) :
  forallb is_ident_char w = true ->
  lex_string_body "'''" false (w ++ "'''") = Ok (w, length w).
Proof.
  induction w as [|c w IH]; [reflexivity|]. cbn [forallb].
  intros H. apply andb_true_iff in H as [Hc Hw].
  destruct (ident_char_plain c Hc) as (_ & Hsq & Hbs & _).
  cbn [app lex_string_body startswith]. change (Ascii.eqb "'" c) with (Ascii.eqb SQ c).
  rewrite Hsq, Hbs. cbn [andb]. now rewrite (IH Hw).
Qed.

Lemma literal_eval_quoted_word (w : str) :
  forallb is_ident_char w = true ->
  literal_eval ("'''" ++ w ++ "'''") = Ok (VStr w).
Proof.
  intros Hw. unfold literal_eval. cbn [app head_is Ascii.eqb Bool.eqb orb].
  set (s := "'"%char :: "'"%char :: "'"%char :: w ++ "'''").
  assert (Hlex : lex_one s = Ok (TStr w, length s)).
  { subst s. cbn [lex_one is_ascii_digit]. 
    change (is_ascii_digit "'") with false. cbn iota.
    change (Ascii.eqb "'" "." && _) with false. cbn iota.
    change (is_quote "'") with true. cbn iota.
    unfold lex_string. cbn [startswith Ascii.eqb Bool.eqb andb skipn].
    rewrite (lex_string_body_word w Hw). cbn [bind length].
    rewrite length_app. cbn [length]. do 2 f_equal. lia. }
  rewrite <- (app_nil_r s) at 1.
  rewrite (tokens_from_token s [] (TStr w)); [reflexivity| | |].
  - reflexivity.
  - discriminate.
  - now rewrite app_nil_r.
Qed.

Lemma sub_from_skip (r : regex) (repl : captures -> str) (t : str) :
  re_match r [] = None ->
  sub_from (length t) r repl t = Ok [].
Proof.
  intros H. induction t as [|c t IH]; [cbn; now rewrite H|exact IH].
Qed.

(** The pattern of line 198 on a word: the word is one match. *)
Lemma sub_word (c : ascii) (t : str) :
  forallb bare_char (c :: t) = true ->
  sub TRIPEL_QUOTE_WRAP triple_quoted (c :: t) = Ok ("'''" ++ (c :: t) ++ "'''").
Proof.
  cbn [forallb]. intros H. apply andb_true_iff in H as [Hc Ht].
  assert (Hm : re_match TRIPEL_QUOTE_WRAP (c :: t) = Some ([(1, c :: t)], [])).
  { unfold re_match, TRIPEL_QUOTE_WRAP. cbn [rmatch]. rewrite Hc.
    apply star_all; [exact Ht|].
    cbn [length]. rewrite Nat.sub_0_r.
    change (S (length t)) with (length (c :: t)). now rewrite firstn_all. }
  unfold sub. cbn [sub_from]. rewrite Hm. cbn [length]. rewrite Nat.sub_0_r.
  rewrite sub_from_skip by reflexivity.
  cbn [bind]. unfold triple_quoted. cbn [group Nat.eqb].
  now rewrite app_nil_r.
Qed.

Lemma startswith_needs_comma (p s : str) :
  forallb (fun c => negb (Ascii.eqb "," c)) s = true ->
  startswith (p ++ ",") s = false.
Proof.
  revert s. induction p as [|a p IH]; intros [|c s] H; try reflexivity;
    cbn [forallb] in H; apply andb_true_iff in H as [Hc Hs];
    cbn [app startswith].
  - apply negb_true_iff in Hc. now rewrite Hc.
  - rewrite (IH s Hs). apply andb_false_r.
Qed.

Lemma contains_needs_comma (p s : str) :
  forallb (fun c => negb (Ascii.eqb "," c)) s = true ->
  contains (p ++ ",") s = false.
Proof.
  induction s as [|c s IH]; intros H.
  - cbn [contains]. now rewrite (startswith_needs_comma p [] H).
  - cbn [contains]. rewrite (startswith_needs_comma p (c :: s) H).
    cbn [forallb] in H. apply andb_true_iff in H as [_ Hs]. exact (IH Hs).
Qed.

Lemma ident_char_no_comma (c : ascii) :
  is_ident_char c = true -> negb (Ascii.eqb "," c) = true.
Proof. each_char c; vm_compute; congruence. Qed.

Lemma literal_eval_word (c : ascii) (t : str) :
  is_ident_start c = true ->
  forallb is_ident_char t = true ->
  mem (c :: t) keywords = false ->
  ~ In (c :: t) ["None"; "True"; "False"] ->
  literal_eval (c :: t) = Raise malformed.
Proof.
  intros Hc Ht Hk Hn. unfold literal_eval.
  destruct (ident_start_lex c Hc) as (_ & Hb & _).
  cbn [head_is]. 
  replace (Ascii.eqb c " " || Ascii.eqb c "009") with false
    by (symmetry; exact Hb).
  rewrite (tokens_from_word c t Hc Ht Hk). cbn [bind].
  change (PyAst.parse [TName (c :: t)]) with (Ok (EName (c :: t))).
  cbn [bind PyAst.convert].
  rewrite !str_eqb_neq; [reflexivity| | |]; intros E; apply Hn; rewrite E;
    cbn; tauto.
Qed.

(** X14.  A text that is a word (letters, digits and underscores, not
    starting with a digit) and is none of [None], [True], [False] and no
    Python keyword is no Python literal: the literal parser wraps it in
    quotes and returns it as a string.  The empty text is read as
    [None]. *)
Theorem parse_anyscript_bare_word (w : str) :
  forallb is_ident_char w = true ->
  head_is is_ascii_digit w = false ->
  mem w keywords = false ->
  ~ In w ["None"; "True"; "False"] ->
  _parse_anyscript w
  = Ok (match w with
        | [] => VNone
        | _ :: _ => VStr w
        end).
Proof.
  intros Hw Hd Hk Hn. destruct w as [|c t]; [reflexivity|].
  cbn [forallb head_is] in Hw, Hd. apply andb_true_iff in Hw as [Hc Ht].
  assert (Hs : is_ident_start c = true).
  { revert Hc Hd. unfold is_ident_char, is_ident_start, is_ascii_alnum.
    intros Hc Hd. rewrite Hd in Hc. exact Hc. }
  destruct (ident_start_lex c Hs) as (_ & _ & _ & _ & _ & Hbrace & Hbrack & Hdq & _).
  assert (Hbare : forallb bare_char (c :: t) = true).
  { apply (forallb_impl is_ident_char).
    - intros a Ha. exact (proj1 (ident_char_plain a Ha)).
    - cbn [forallb]. now rewrite Hc, Ht. }
  assert (Hcomma : contains ("nan" ++ ",") (c :: t) = false).
  { apply contains_needs_comma. apply (forallb_impl is_ident_char).
    - exact ident_char_no_comma.
    - cbn [forallb]. now rewrite Hc, Ht. }
  unfold _parse_anyscript.
  replace (startswith "{" (c :: t)) with false
    by (cbn [startswith]; now rewrite Hbrace).
  cbn [andb].
  replace (str_eqb (c :: t) "[...]") with false.
  2:{ symmetry. apply str_eqb_neq. intros E. injection E as E _.
      subst c. discriminate. }
  rewrite (literal_eval_word c t Hs Ht Hk Hn).
  cbn [try_except malformed syntax_or_value_error].
  change (contains "nan," (c :: t)) with (contains ("nan" ++ ",") (c :: t)).
  rewrite Hcomma. cbn [try_except syntax_or_value_error].
  rewrite (sub_word c t Hbare). cbn [bind].
  change (str_eqb ("'''" ++ (c :: t) ++ "'''") "") with false. cbn iota.
  change (startswith [DQ] ("'''" ++ (c :: t) ++ "'''")) with false.
  cbn [andb]. cbn iota.
  rewrite (literal_eval_quoted_word (c :: t)); [reflexivity|].
  cbn [forallb]. now rewrite Hc, Ht.
Qed.

Lemma parse_anyscript_bare_word_witness :
  _parse_anyscript "P_1" = Ok (VStr "P_1").
Proof.
  apply (parse_anyscript_bare_word "P_1"); try reflexivity.
  cbn. intuition discriminate.
Defined.

(* ================================================================== *)
(** * The attribute [active] *)
(* ================================================================== *)

Lemma run_flagged_tag_inside (act x y z name rest : str) (n : str) (a : attrs)
    (kids : list element) (outer : list frame) (root : option element)
    (dt : bool) :
  forallb attr_plain act = true ->
  forallb attr_plain x = true ->
  forallb attr_plain y = true ->
  forallb attr_plain z = true ->
  forallb attr_plain name = true ->
  run (State (Text 0) ((n, a, kids) :: outer) root dt)
    (flagged_tag act x y z name ++ rest)
  = run (State (Text 0)
           ((n, a, Element "point"
                     [("x", x); ("y", y); ("z", z); ("active", act);
                      ("name", name)] [] :: kids)
            :: outer) root dt) rest.
Proof.
  intros Ha Hx Hy Hz Hn. unfold flagged_tag.
  repeat (rewrite <- ?app_assoc; cbn [app]).
  do 10 run_next. run_value Hx.
  do 4 run_next. run_value Hy.
  do 4 run_next. run_value Hz.
  do 9 run_next. run_value Ha.
  do 7 run_next. run_value Hn.
  do 4 run_next. reflexivity.
Qed.

Lemma run_flagged_inside (items : list (str * (str * point))) (rest : str)
    (n : str) (a : attrs) (kids : list element) (outer : list frame)
    (root : option element) (dt : bool) :
  Forall (fun item => forallb attr_plain (fst item) = true
                      /\ forallb attr_plain (fst (snd item)) = true) items ->
  run (State (Text 0) ((n, a, kids) :: outer) root dt)
    (flagged_text items ++ rest)
  = run (State (Text 0)
           ((n, a, rev (map flagged_element items) ++ kids) :: outer) root dt)
      rest.
Proof.
  intros H. revert kids.
  induction H as [|[act [name [[x y] z]]] items [Ha Hn] _ IH]; intros kids;
    [reflexivity|].
  unfold flagged_text. cbn [map concat flagged_point_text].
  rewrite <- app_assoc.
  rewrite run_flagged_tag_inside by (auto using float_repr_attr_plain).
  fold (flagged_text items). rewrite IH. cbn [rev flagged_element].
  now rewrite <- app_assoc.
Qed.

Lemma fromstring_flagged_document (items : list (str * (str * point))) :
  Forall (fun item => forallb attr_plain (fst item) = true
                      /\ forallb attr_plain (fst (snd item)) = true) items ->
  fromstring (pp_document (flagged_text items))
  = Ok (Element "PickedPoints" [] (map flagged_element items)).
Proof.
  intros H. unfold fromstring, pp_document, initial. cbn [app].
  repeat run_next. rewrite (run_flagged_inside items _ _ _ _ _ _ _ H).
  rewrite app_nil_r.
  remember (rev (map flagged_element items)) as kids eqn:E.
  repeat run_next. cbn [run bind finish st_mode st_stack st_root].
  do 2 f_equal.
  change (rev kids = map flagged_element items).
  rewrite E. apply rev_involutive.
Qed.

Lemma iter_flagged_document (items : list (str * (str * point))) :
  iter "point" (Element "PickedPoints" [] (map flagged_element items))
  = map flagged_element items.
Proof.
  unfold iter. cbn [descendants filter tag].
  change (str_eqb "PickedPoints" "point") with false. cbn iota.
  induction items as [|[act [name [[x y] z]]] items IH]; [reflexivity|].
  cbn [map flagged_element descendants app filter tag].
  change (str_eqb "point" "point") with true. cbn iota. f_equal. exact IH.
Qed.

Lemma parse_pp_point_flagged (allpoints : dict pyval)
    (item : str * (str * point)) :
  finite_point (snd (snd item)) ->
  parse_pp_point allpoints (flagged_element item)
  = Ok (store_read allpoints (snd item)).
Proof.
  destruct item as [act [name [[x y] z]]]. cbn [snd].
  intros ((Hfx & Hcx) & (Hfy & Hcy) & (Hfz & Hcz)).
  unfold parse_pp_point, flagged_element.
  rewrite (float_attr_repr _ "x" x), (float_attr_repr _ "y" y),
    (float_attr_repr _ "z" z) by (assumption || reflexivity).
  reflexivity.
Qed.

Lemma parse_pp_loop_flagged (items : list (str * (str * point)))
    (acc : dict pyval) :
  Forall (fun item => finite_point (snd (snd item))) items ->
  for_each parse_pp_point acc (map flagged_element items)
  = Ok (fold_left store_read (map snd items) acc).
Proof.
  intros H. revert acc. induction H as [|item items Hp _ IH]; intros acc;
    [reflexivity|].
  cbn [map for_each fold_left].
  rewrite parse_pp_point_flagged by exact Hp. cbn [bind]. apply IH.
Qed.

(** X15.  [parse_pp_file] does not look at the attribute [active]: in a
    pick-points document every point is read, whatever the attribute
    holds, the points whose [active] is 0 as the others. *)
Theorem parse_pp_file_ignores_active (items : list (str * (str * point))) :
  NoDup (map (fun item => fst (snd item)) items) ->
  Forall (fun item => forallb attr_plain (fst item) = true
                      /\ forallb attr_plain (fst (snd item)) = true
                      /\ finite_point (snd (snd item))) items ->
  parse_pp_file
    ("<!DOCTYPE PickedPoints>" ++ [NL] ++ "<PickedPoints>" ++ [NL]
     ++ flagged_text items ++ "</PickedPoints>" ++ [NL])
  = Ok (as_dict (map snd items)).
Proof.
  intros Hnd H.
  change (parse_pp_file (pp_document (flagged_text items))
          = Ok (as_dict (map snd items))).
  unfold parse_pp_file.
  rewrite fromstring_flagged_document.
  2:{ apply (Forall_impl _ (fun item Hi => conj (proj1 Hi) (proj1 (proj2 Hi))) H). }
  cbn [bind]. rewrite iter_flagged_document.
  rewrite parse_pp_loop_flagged.
  2:{ apply (Forall_impl _ (fun item Hi => proj2 (proj2 Hi)) H). }
  rewrite store_read_fresh; [reflexivity|].
  cbn [map app]. now rewrite map_map.
Qed.

Lemma parse_pp_file_ignores_active_witness :
  parse_pp_file
    ("<!DOCTYPE PickedPoints>" ++ [NL] ++ "<PickedPoints>" ++ [NL]
     ++ flagged_text
          [("1", ("P1", (Finite false [d1] 1, Finite false [d2] 1,
                         Finite false [d3] 1)));
           ("0", ("P2", (Finite false [d4] 1, Finite false [d5] 1,
                         Finite false [d6] 1)))]
     ++ "</PickedPoints>" ++ [NL])
  = Ok (as_dict (map snd
          [("1", ("P1", (Finite false [d1] 1, Finite false [d2] 1,
                         Finite false [d3] 1)));
           ("0", ("P2", (Finite false [d4] 1, Finite false [d5] 1,
                         Finite false [d6] 1)))])).
Proof.
  apply (parse_pp_file_ignores_active
           [("1", ("P1", (Finite false [d1] 1, Finite false [d2] 1,
                          Finite false [d3] 1)));
            ("0", ("P2", (Finite false [d4] 1, Finite false [d5] 1,
                          Finite false [d6] 1)))]).
  - repeat constructor; cbn; intuition discriminate.
  - repeat constructor; cbn; (discriminate || lia).
Defined.

(* ================================================================== *)
(** * The literal parser on a list with NaN items *)
(* ================================================================== *)

Lemma items_text_cons (i : item) (items : list item) :
  items_text (i :: items)
  = item_text i ++ match items with
                   | [] => ""
                   | _ :: _ => ", " ++ items_text items
                   end.
Proof.
  unfold items_text. destruct items as [|j items]; cbn [map Command.join].
  - now rewrite app_nil_r.
  - reflexivity.
Qed.

Lemma tokens_from_items (items : list item) (rest : str) :
  Forall item_ok items ->
  tokens_from 0 (items_text items ++ "]"%char :: rest)
  = let* ts := tokens_from 0 rest in Ok (items_tokens_of items ++ TRBrack :: ts).
Proof.
  induction 1 as [|i items (Htok & _) Hitems IH].
  - cbn. now destruct (tokens_from 0 rest).
  - rewrite items_text_cons. destruct items as [|j items].
    + rewrite app_nil_r. rewrite Htok by (exists rest; now right).
      change (tokens_from 0 ("]"%char :: rest))
        with (let* ts := tokens_from 0 rest in Ok (TRBrack :: ts)).
      cbn [items_tokens_of]. now destruct (tokens_from 0 rest).
    + rewrite <- !app_assoc. cbn [app].
      rewrite Htok by (eexists; now left).
      change (tokens_from 0 (","%char :: " "%char :: ?s))
        with (let* ts := tokens_from 0 s in Ok (TComma :: ts)).
      rewrite IH. change (items_tokens_of (i :: j :: items))
        with (item_tokens i ++ TComma :: items_tokens_of (j :: items)).
      destruct (tokens_from 0 rest); cbn [bind]; [|reflexivity].
      now rewrite <- app_assoc.
Qed.

Lemma parse_items_of (items : list item) (g : nat) (rest : list token) :
  Forall item_ok items ->
  exists comma,
    parse_items (length items + 5 + g) (items_tokens_of items ++ TRBrack :: rest)
    = Ok (map item_tree items, comma, rest).
Proof.
  intros H. revert g. induction H as [|i items (_ & Hsum & Hne) Hitems IH];
    intros g.
  - exists false. reflexivity.
  - cbn [length]. replace (S (length items) + 5 + g)%nat
      with (S (4 + (length items + 1 + g)))%nat by lia.
    destruct items as [|j items].
    + exists false. cbn [items_tokens_of map].
      rewrite (parse_items_step _ _ _ _ (Hne _) (proj2 (Hsum _ rest))).
      reflexivity.
    + exists true.
      change (items_tokens_of (i :: j :: items))
        with (item_tokens i ++ TComma :: items_tokens_of (j :: items)).
      rewrite <- app_assoc. cbn [app].
      rewrite (parse_items_step _ _ _ _ (Hne _) (proj1 (Hsum _ _))).
      destruct (IH g) as [comma IH'].
      replace (4 + (length (j :: items) + 1 + g))%nat
        with (length (j :: items) + 5 + g)%nat by lia.
      rewrite IH'. reflexivity.
Qed.

Lemma items_tokens_of_length (items : list item) :
  Forall item_ok items ->
  (length items <= length (items_tokens_of items))%nat.
Proof.
  induction 1 as [|i items (_ & _ & Hne) Hitems IH]; [reflexivity|].
  assert (Hi : (1 <= length (item_tokens i))%nat).
  { destruct (item_tokens i) as [|t ts] eqn:E; [|cbn; lia].
    exfalso. apply (Hne [TRBrack] []). rewrite ?E. reflexivity. }
  destruct items as [|j items]; cbn [items_tokens_of length] in *;
    rewrite ?length_app; cbn [length]; lia.
Qed.

Lemma parse_item_list (items : list item) :
  Forall item_ok items ->
  PyAst.parse (TLBrack :: items_tokens_of items ++ [TRBrack])
  = Ok (EList (map item_tree items)).
Proof.
  intros H. unfold PyAst.parse.
  pose proof (items_tokens_of_length items H) as Hlen.
  set (ts := TLBrack :: items_tokens_of items ++ [TRBrack]).
  assert (Hfuel : exists g, (5 * length ts + 5 = 3 + (length items + 5 + g))%nat).
  { exists (5 * length ts + 5 - 3 - (length items + 5))%nat.
    subst ts. cbn [length]. rewrite length_app. cbn [length]. lia. }
  destruct Hfuel as [g ->]. subst ts.
  destruct (parse_items_of items g [] H) as [comma Hitems].
  cbn [Nat.add parse_top parse_sum parse_factor parse_atom].
  rewrite Hitems. reflexivity.
Qed.

(** The literal of a list, from its items. *)
Lemma literal_eval_items (items : list item) :
  Forall item_ok items ->
  literal_eval ("[" ++ items_text items ++ "]")
  = PyAst.convert (EList (map item_tree items)).
Proof.
  intros H. unfold literal_eval. cbn [app head_is Ascii.eqb Bool.eqb orb].
  change (tokens_from 0 ("["%char :: ?s))
    with (let* ts := tokens_from 0 s in Ok (TLBrack :: ts)).
  rewrite (tokens_from_items items [] H). cbn [tokens_from bind].
  now rewrite (parse_item_list items H).
Qed.

Lemma float_item_ok (x : pyfloat) :
  isfinite x = true -> canonical x -> item_ok (float_item x).
Proof.
  intros Hf Hc. split; [|split].
  - intros rest [r [-> | ->]]; cbn [float_item item_text item_tokens].
    + apply tokens_from_float; auto using after_number_comma.
    + apply tokens_from_float; auto using after_number_bracket.
  - intros g rest. exact (parse_sum_float x g rest Hf).
  - intros rest r. exact (float_tokens_not_bracket x rest r Hf).
Qed.

Lemma named_item_ok (x : pyfloat) :
  (isfinite x = true /\ canonical x) \/ x = NaN -> item_ok (named_item x).
Proof.
  intros [[Hf Hc] | ->].
  - destruct x as [neg ds pt| |]; try discriminate. now apply float_item_ok.
  - split; [|split].
    + intros rest [r [-> | ->]]; reflexivity.
    + intros g rest. split; reflexivity.
    + intros rest r. discriminate.
Qed.

Lemma quoted_item_ok (x : pyfloat) :
  (isfinite x = true /\ canonical x) \/ x = NaN -> item_ok (quoted_item x).
Proof.
  intros [[Hf Hc] | ->].
  - destruct x as [neg ds pt| |]; try discriminate. now apply float_item_ok.
  - split; [|split].
    + intros rest [r [-> | ->]]; reflexivity.
    + intros g rest. split; reflexivity.
    + intros rest r. discriminate.
Qed.

Lemma convert_list_cons (e : expr) (es : list expr) :
  PyAst.convert (EList (e :: es))
  = let* v := PyAst.convert e in
    let* r := PyAst.convert (EList es) in
    match r with
    | VList vs => Ok (VList (v :: vs))
    | _ => Ok r
    end.
Proof.
  cbn [PyAst.convert]. destruct (PyAst.convert e) as [v|err]; [|reflexivity].
  cbn [bind].
  match goal with
  | |- context [bind (?f es) _] => destruct (f es) as [vs|err]; reflexivity
  end.
Qed.

Lemma named_item_text (x : pyfloat) : item_text (named_item x) = float_repr x.
Proof. now destruct x. Qed.

Lemma named_items_text (xs : list pyfloat) :
  items_text (map named_item xs) = floats_text xs.
Proof.
  unfold items_text, floats_text. rewrite map_map.
  f_equal. apply map_ext. exact named_item_text.
Qed.

(** With a NaN among the items the first literal is refused. *)
Lemma convert_named_items (xs : list pyfloat) :
  Forall finite_or_nan xs ->
  In NaN xs ->
  PyAst.convert (EList (map item_tree (map named_item xs))) = Raise malformed.
Proof.
  induction 1 as [|x xs Hx Hxs IH]; intros Hin; [now destruct Hin|].
  cbn [map]. rewrite convert_list_cons.
  destruct Hx as [[Hf Hc] | ->]; [|reflexivity].
  destruct Hin as [-> | Hin]; [discriminate|].
  destruct x as [neg ds pt| |]; try discriminate.
  cbn [named_item float_item item_tree].
  rewrite (convert_float_expr _ Hf). cbn [bind]. now rewrite (IH Hin).
Qed.

Lemma convert_quoted_items (xs : list pyfloat) :
  Forall finite_or_nan xs ->
  PyAst.convert (EList (map item_tree (map quoted_item xs)))
  = Ok (VList (map quoted_value xs)).
Proof.
  induction 1 as [|x xs Hx Hxs IH]; [reflexivity|].
  cbn [map]. rewrite convert_list_cons, IH.
  destruct Hx as [[Hf Hc] | ->]; [|reflexivity].
  destruct x as [neg ds pt| |]; try discriminate.
  cbn [quoted_item float_item item_tree quoted_value].
  now rewrite (convert_float_expr _ Hf).
Qed.

Lemma replace_elem_quoted (xs : list pyfloat) :
  map (replace_elem "nan" (VFloat NaN)) (map quoted_value xs) = map VFloat xs.
Proof.
  rewrite map_map. apply map_ext. intros x. now destruct x.
Qed.

Lemma digits_str_num (ds : list digit) : forallb num_char (digits_str ds) = true.
Proof. apply forallb_map_const. intros d. now destruct d. Qed.

Lemma exp_text_num (e : Z) : forallb num_char (exp_text e) = true.
Proof.
  unfold exp_text. rewrite forallb_app. apply andb_true_iff. split.
  - destruct (e <? 0)%Z; reflexivity.
  - destruct (digits_of_N (Z.abs_N e)) as [|d [|d' ds]];
      [reflexivity|apply digits_str_num|apply digits_str_num].
Qed.

Lemma repr_finite_num (ds : list digit) (pt : Z) :
  forallb num_char (repr_finite ds pt) = true.
Proof.
  unfold repr_finite, zeros. destruct ds as [|d rest]; [reflexivity|].
  destruct ((-4 <? pt)%Z && (pt <=? 16)%Z).
  - destruct (pt <=? 0)%Z; [|destruct (pt <? _)%Z];
      rewrite !forallb_app, ?digits_str_num, ?forallb_repeat by reflexivity;
      reflexivity.
  - rewrite !forallb_app, exp_text_num.
    assert (H : forallb num_char
                  match rest with
                  | [] => ""
                  | _ :: _ => "." ++ digits_str rest
                  end = true).
    { destruct rest; [reflexivity|]. now rewrite forallb_app, digits_str_num. }
    rewrite H. cbn [forallb app]. now destruct d.
Qed.

(** The text of a finite float is written without the letter [n]. *)
Lemma finite_repr_no_n (x : pyfloat) :
  isfinite x = true ->
  forallb (fun c => negb (Ascii.eqb "n" c)) (float_repr x) = true.
Proof.
  destruct x as [neg ds pt| |]; try discriminate. intros _.
  apply (forallb_impl num_char).
  - intros c. each_char c; vm_compute; congruence.
  - cbn [float_repr]. rewrite forallb_app, repr_finite_num. now destruct neg.
Qed.

Lemma replace_from_plain (new a s : str) :
  forallb (fun c => negb (Ascii.eqb "n" c)) a = true ->
  replace_from 0 "nan," new (a ++ s) = a ++ replace_from 0 "nan," new s.
Proof.
  induction a as [|c a IH]; [reflexivity|]. cbn [forallb].
  intros H. apply andb_true_iff in H as [Hc Ha]. apply negb_true_iff in Hc.
  cbn [app replace_from startswith]. rewrite Hc. cbn [andb].
  now rewrite (IH Ha).
Qed.

Lemma replace_nan_item (new s : str) :
  replace_from 0 "nan," new ("nan" ++ ", " ++ s)
  = new ++ " " ++ replace_from 0 "nan," new s.
Proof. reflexivity. Qed.

Lemma items_text_quoted_cons (x y : pyfloat) (xs : list pyfloat) :
  items_text (map quoted_item (x :: y :: xs))
  = item_text (quoted_item x) ++ ", " ++ items_text (map quoted_item (y :: xs)).
Proof. reflexivity. Qed.

(** The replacement of [nan,] in the text of the list. *)
Lemma replace_nan_floats (xs : list pyfloat) :
  Forall finite_or_nan xs ->
  isfinite (last xs NaN) = true ->
  replace_from 0 "nan," (" " ++ [DQ] ++ "nan" ++ [DQ] ++ ",")
    (floats_text xs ++ "]")
  = items_text (map quoted_item xs) ++ "]".
Proof.
  induction 1 as [|x xs Hx Hxs IH]; [discriminate|].
  destruct xs as [|y xs].
  - cbn [last]. intros Hf. rewrite floats_text_cons, app_nil_r.
    rewrite replace_from_plain by now apply finite_repr_no_n.
    destruct x as [neg ds pt| |]; try discriminate.
    unfold items_text. cbn [map Command.join quoted_item float_item item_text].
    reflexivity.
  - intros Hlast. change (last (x :: y :: xs) NaN) with (last (y :: xs) NaN) in Hlast.
    rewrite floats_text_cons, items_text_quoted_cons, <- !app_assoc.
    destruct Hx as [[Hf Hc] | ->].
    + rewrite replace_from_plain by now apply finite_repr_no_n.
      rewrite (replace_from_plain _ ", ") by reflexivity.
      rewrite (IH Hlast).
      destruct x as [neg ds pt| |]; try discriminate. reflexivity.
    + change (float_repr NaN) with "nan". rewrite replace_nan_item.
      rewrite (IH Hlast). reflexivity.
Qed.

Lemma contains_skip (sub a s : str) :
  contains sub s = true -> contains sub (a ++ s) = true.
Proof.
  intros H. induction a as [|c a IH]; [exact H|].
  cbn [app contains]. rewrite IH. apply orb_true_r.
Qed.

Lemma contains_nan_floats (xs : list pyfloat) :
  In NaN xs ->
  isfinite (last xs NaN) = true ->
  contains "nan," (floats_text xs ++ "]") = true.
Proof.
  induction xs as [|x xs IH]; intros Hin Hlast; [now destruct Hin|].
  destruct xs as [|y xs].
  - destruct Hin as [-> | []]. discriminate.
  - change (last (x :: y :: xs) NaN) with (last (y :: xs) NaN) in Hlast.
    rewrite floats_text_cons, <- !app_assoc.
    destruct Hin as [-> | Hin]; [reflexivity|].
    apply contains_skip, (contains_skip _ ", "). exact (IH Hin Hlast).
Qed.

Lemma all_finite (xs : list pyfloat) :
  Forall finite_or_nan xs -> ~ In NaN xs ->
  Forall (fun x => isfinite x = true /\ canonical x) xs.
Proof.
  induction 1 as [|x xs Hx Hxs IH]; intros Hn; constructor.
  - destruct Hx as [Hx | ->]; [exact Hx|]. exfalso. apply Hn. now left.
  - apply IH. intros Hin. apply Hn. now right.
Qed.

Lemma in_nan_dec (xs : list pyfloat) : In NaN xs \/ ~ In NaN xs.
Proof.
  induction xs as [|x xs [IH|IH]]; [now right|left; now right|].
  destruct x as [neg ds pt|neg|]; [right|right|left; now left];
    intros [H|H]; (discriminate || contradiction).
Qed.

(** X16.  The NaN items of a list are read as NaN floats when a comma
    follows each of them: for a list of finite floats and NaN items whose
    last item is a finite float, written as the formatters write floats,
    the literal parser returns the array of these floats, with a NaN at
    each place where the text has [nan]. *)
Theorem parse_anyscript_nan_list (xs : list pyfloat) :
  Forall finite_or_nan xs ->
  isfinite (last xs NaN) = true ->
  _parse_anyscript ("{" ++ floats_text xs ++ "}") = Ok (VArray (map VFloat xs)).
Proof.
  intros H Hlast. destruct (in_nan_dec xs) as [Hin|Hin].
  2:{ unfold _parse_anyscript.
      pose proof (all_finite xs H Hin) as Hall.
      replace (startswith "{" ("{" ++ floats_text xs ++ "}")
               && endswith "}" ("{" ++ floats_text xs ++ "}")) with true.
      - rewrite replace_braces_floats, (floats_text_not_ellipsis xs Hall).
        rewrite (literal_eval_float_list xs Hall). cbn [try_except bind].
        apply np_array_floats.
      - symmetry. apply andb_true_iff. split; [reflexivity|].
        rewrite !app_assoc. apply endswith_app. }
  unfold _parse_anyscript.
  replace (startswith "{" ("{" ++ floats_text xs ++ "}")
           && endswith "}" ("{" ++ floats_text xs ++ "}")) with true.
  2:{ symmetry. apply andb_true_iff. split; [reflexivity|].
      rewrite !app_assoc. apply endswith_app. }
  rewrite replace_braces_floats.
  assert (Hne : str_eqb ("[" ++ floats_text xs ++ "]") "[...]" = false).
  { apply str_eqb_neq. intros E.
    destruct H as [|x xs Hx Hxs]; [discriminate|]. rewrite floats_text_cons in E.
    destruct Hx as [[Hf _] | ->].
    - destruct (float_repr_head x Hf) as (c & t & Ex & Hc). rewrite Ex in E.
      cbn [app] in E. congruence.
    - discriminate. }
  rewrite Hne.
  assert (Hok1 : Forall item_ok (map named_item xs)).
  { apply Forall_map. apply (Forall_impl _ named_item_ok H). }
  assert (Hok2 : Forall item_ok (map quoted_item xs)).
  { apply Forall_map. apply (Forall_impl _ quoted_item_ok H). }
  rewrite <- named_items_text, (literal_eval_items _ Hok1).
  rewrite (convert_named_items xs H Hin).
  cbn [try_except malformed syntax_or_value_error].
  rewrite named_items_text.
  replace (contains "nan," ("[" ++ floats_text xs ++ "]")) with true
    by (symmetry; apply (contains_skip _ "["), (contains_nan_floats xs Hin Hlast)).
  unfold replace.
  change ("[" ++ floats_text xs ++ "]") with ("[" ++ (floats_text xs ++ "]")).
  rewrite (replace_from_plain _ "[") by reflexivity.
  rewrite (replace_nan_floats xs H Hlast).
  rewrite (literal_eval_items _ Hok2), (convert_quoted_items xs H).
  cbn [bind _recursive_replace try_except]. rewrite replace_elem_quoted.
  apply np_array_floats.
Qed.

Lemma parse_anyscript_nan_list_witness :
  _parse_anyscript
    ("{" ++ floats_text [NaN; Finite true [d2; d5] 1; NaN; Finite false [d3] 1]
     ++ "}")
  = Ok (VArray (map VFloat [NaN; Finite true [d2; d5] 1; NaN;
                            Finite false [d3] 1])).
Proof.
  apply (parse_anyscript_nan_list
           [NaN; Finite true [d2; d5] 1; NaN; Finite false [d3] 1]).
  - repeat apply Forall_cons; try apply Forall_nil; unfold finite_or_nan;
      try (now right); left; cbn; repeat split; (discriminate || lia).
  - reflexivity.
Defined.

(* ================================================================== *)
(** * The literal parser on a list that ends with a NaN *)
(* ================================================================== *)

Lemma half_quoted_ok (xs : list pyfloat) :
  Forall finite_or_nan xs -> Forall item_ok (half_quoted xs).
Proof.
  induction 1 as [|x xs Hx Hxs IH]; [constructor|].
  destruct xs as [|y xs].
  - constructor; [now apply named_item_ok|constructor].
  - change (half_quoted (x :: y :: xs))
      with (quoted_item x :: half_quoted (y :: xs)).
    constructor; [now apply quoted_item_ok|exact IH].
Qed.

(** The replacement of [nan,], whatever the last item is. *)
Lemma replace_nan_any (xs : list pyfloat) :
  Forall finite_or_nan xs ->
  replace_from 0 "nan," (" " ++ [DQ] ++ "nan" ++ [DQ] ++ ",")
    (floats_text xs ++ "]")
  = items_text (half_quoted xs) ++ "]".
Proof.
  induction 1 as [|x xs Hx Hxs IH]; [reflexivity|].
  destruct xs as [|y xs].
  - rewrite floats_text_cons, app_nil_r.
    destruct Hx as [[Hf Hc] | ->]; [|reflexivity].
    rewrite replace_from_plain by now apply finite_repr_no_n.
    destruct x as [neg ds pt| |]; try discriminate.
    unfold items_text.
    cbn [half_quoted map Command.join named_item float_item item_text].
    reflexivity.
  - change (half_quoted (x :: y :: xs))
      with (quoted_item x :: half_quoted (y :: xs)).
    rewrite floats_text_cons, items_text_cons.
    assert (Hm : match half_quoted (y :: xs) with
                 | [] => ""
                 | _ :: _ => ", " ++ items_text (half_quoted (y :: xs))
                 end = ", " ++ items_text (half_quoted (y :: xs)))
      by (destruct xs; reflexivity).
    rewrite Hm, <- !app_assoc.
    destruct Hx as [[Hf Hc] | ->].
    + rewrite replace_from_plain by now apply finite_repr_no_n.
      rewrite (replace_from_plain _ ", ") by reflexivity.
      rewrite IH. destruct x as [neg ds pt| |]; try discriminate.
      reflexivity.
    + change (float_repr NaN) with "nan". rewrite replace_nan_item, IH.
      reflexivity.
Qed.

Lemma convert_half_quoted (init : list pyfloat) :
  Forall finite_or_nan init ->
  PyAst.convert (EList (map item_tree (half_quoted (init ++ [NaN]))))
  = Raise malformed.
Proof.
  induction 1 as [|x xs Hx Hxs IH]; [reflexivity|].
  cbn [app]. destruct (xs ++ [NaN]) as [|y ys] eqn:E.
  - now destruct xs.
  - change (half_quoted (x :: y :: ys))
      with (quoted_item x :: half_quoted (y :: ys)).
    cbn [map]. rewrite convert_list_cons, IH.
    destruct Hx as [[Hf Hc] | ->]; [|reflexivity].
    destruct x as [neg ds pt| |]; try discriminate.
    cbn [quoted_item float_item item_tree].
    now rewrite (convert_float_expr _ Hf).
Qed.

(** The characters of the text of a float stand in a string literal as
    they are, and are characters of the pattern of line 198. *)
Lemma repr_char_bare (c : ascii) :
  repr_char c = true ->
  bare_char c = true
  /\ Ascii.eqb SQ c = false
  /\ Ascii.eqb c "\" || Ascii.eqb c "000" = false.
Proof. each_char c; vm_compute; intuition congruence. Qed.

Lemma lex_string_body_repr (w rest : str) :
  forallb repr_char w = true ->
  lex_string_body "'''" false (w ++ "'''" ++ rest) = Ok (w, length w).
Proof.
  induction w as [|c w IH]; [reflexivity|]. cbn [forallb].
  intros H. apply andb_true_iff in H as [Hc Hw].
  destruct (repr_char_bare c Hc) as (_ & Hsq & Hbs).
  rewrite <- app_comm_cons.
  cbn [lex_string_body startswith].
  change (Ascii.eqb "'" c) with (Ascii.eqb SQ c).
  rewrite Hsq, Hbs. cbn [andb]. now rewrite (IH Hw).
Qed.

Lemma string_item_ok (x : pyfloat) : item_ok (string_item x).
Proof.
  pose proof (float_repr_chars x) as Hw.
  split; [|split].
  - intros rest _. cbn [string_item item_text item_tokens].
    set (s := "'''" ++ float_repr x ++ "'''").
    assert (Hlex : lex_one (s ++ rest) = Ok (TStr (float_repr x), length s)).
    { subst s. rewrite <- !app_assoc. cbn [app lex_one].
      change (is_ascii_digit "'") with false. cbn iota.
      change (Ascii.eqb "'" "." && _) with false. cbn iota.
      change (is_quote "'") with true. cbn iota.
      unfold lex_string. cbn [startswith Ascii.eqb Bool.eqb andb skipn].
      pose proof (lex_string_body_repr _ rest Hw) as Hbody.
      cbn [app] in Hbody. rewrite Hbody. cbn [bind length].
      rewrite length_app. cbn [length]. do 2 f_equal. lia. }
    rewrite (tokens_from_token s rest (TStr (float_repr x))); try assumption.
    + reflexivity.
    + reflexivity.
    + discriminate.
  - intros g rest. split; reflexivity.
  - intros rest r. discriminate.
Qed.

Lemma re_match_bare (c : ascii) (w rest : str) :
  forallb bare_char (c :: w) = true ->
  head_is bare_char rest = false ->
  re_match TRIPEL_QUOTE_WRAP ((c :: w) ++ rest) = Some ([(1, c :: w)], rest).
Proof.
  cbn [forallb]. intros H Hr. apply andb_true_iff in H as [Hc Hw].
  unfold re_match, TRIPEL_QUOTE_WRAP. cbn [app rmatch]. rewrite Hc.
  apply star_greedy; [exact Hw|exact Hr|].
  change (c :: w ++ rest) with ((c :: w) ++ rest).
  rewrite length_app, Nat.add_sub, firstn_app, Nat.sub_diag, firstn_all.
  cbn [firstn]. now rewrite app_nil_r.
Qed.

Lemma sub_from_skip_app (r : regex) (repl : captures -> str) (w s : str) :
  re_match r [] = None ->
  sub_from (length w) r repl (w ++ s) = sub_from 0 r repl s.
Proof.
  intros H. induction w as [|c w IH]; [reflexivity|].
  cbn [length app sub_from]. destruct (w ++ s) eqn:E; [|exact IH].
  destruct w; [|discriminate]. cbn in E. subst s. exact IH.
Qed.

Lemma sub_bare_run (c : ascii) (w rest : str) :
  forallb bare_char (c :: w) = true ->
  head_is bare_char rest = false ->
  sub_from 0 TRIPEL_QUOTE_WRAP triple_quoted ((c :: w) ++ rest)
  = let* t := sub_from 0 TRIPEL_QUOTE_WRAP triple_quoted rest in
    Ok (("'''" ++ (c :: w) ++ "'''") ++ t).
Proof.
  intros Hw Hr. pose proof (re_match_bare c w rest Hw Hr) as Hm.
  cbn [app] in Hm |- *. cbn [sub_from]. rewrite Hm.
  cbn [length]. rewrite length_app.
  replace (S (length w + length rest) - length rest)%nat with (S (length w))
    by lia.
  rewrite sub_from_skip_app by reflexivity. reflexivity.
Qed.

Lemma sub_nonbare (c : ascii) (s : str) :
  bare_char c = false ->
  sub_from 0 TRIPEL_QUOTE_WRAP triple_quoted (c :: s)
  = let* t := sub_from 0 TRIPEL_QUOTE_WRAP triple_quoted s in Ok (c :: t).
Proof.
  intros Hc. cbn [sub_from]. unfold re_match, TRIPEL_QUOTE_WRAP.
  cbn [rmatch]. now rewrite Hc.
Qed.

Lemma float_repr_bare (x : pyfloat) :
  exists c w, float_repr x = c :: w /\ forallb bare_char (c :: w) = true.
Proof.
  assert (Hb : forallb bare_char (float_repr x) = true).
  { apply (forallb_impl repr_char); [|apply float_repr_chars].
    intros c Hc. exact (proj1 (repr_char_bare c Hc)). }
  destruct x as [neg ds pt|neg|].
  - destruct (repr_finite_head ds pt) as (d & t & E).
    cbn [float_repr] in *. rewrite E in *. destruct neg; cbn [app] in *;
      eexists; eexists; split; try reflexivity; exact Hb.
  - destruct neg; eexists; eexists; split; try reflexivity; exact Hb.
  - eexists; eexists; split; try reflexivity; exact Hb.
Qed.

(** The pattern of line 198 on the text of a list: every item comes to
    stand in triple quotes. *)
Lemma sub_floats (xs : list pyfloat) :
  sub_from 0 TRIPEL_QUOTE_WRAP triple_quoted (floats_text xs ++ "]")
  = Ok (items_text (map string_item xs) ++ "]").
Proof.
  induction xs as [|x xs IH]; [reflexivity|].
  destruct (float_repr_bare x) as (c & w & E & Hb).
  cbn [map]. rewrite floats_text_cons, items_text_cons.
  destruct xs as [|y xs].
  - cbn [map]. rewrite app_nil_r, E, (sub_bare_run c w "]" Hb eq_refl).
    cbn [string_item item_text]. rewrite E, app_nil_r. reflexivity.
  - rewrite <- !app_assoc, E.
    rewrite (sub_bare_run c w (", " ++ floats_text (y :: xs) ++ "]") Hb eq_refl).
    cbn [app]. rewrite (sub_nonbare "," _ eq_refl), (sub_nonbare " " _ eq_refl).
    rewrite IH. cbn [bind string_item item_text]. rewrite E.
    repeat (rewrite <- ?app_assoc; cbn [app]). reflexivity.
Qed.

Lemma convert_string_items (xs : list pyfloat) :
  PyAst.convert (EList (map item_tree (map string_item xs)))
  = Ok (VList (map (fun x => VStr (float_repr x)) xs)).
Proof.
  induction xs as [|x xs IH]; [reflexivity|].
  cbn [map]. now rewrite convert_list_cons, IH.
Qed.

Lemma np_array_strings (x : pyfloat) (xs : list pyfloat) :
  np_array (map (fun x => VStr (float_repr x)) (x :: xs))
  = Ok (VArray (map (fun x => VStr (float_repr x)) (x :: xs))).
Proof.
  unfold np_array. cbn [map forallb is_float is_int is_str andb].
  now rewrite (forallb_map_const is_str (fun x => VStr (float_repr x)) xs).
Qed.

Lemma floats_text_not_dots (xs : list pyfloat) :
  Forall finite_or_nan xs ->
  str_eqb ("[" ++ floats_text xs ++ "]") "[...]" = false.
Proof.
  intros H. apply str_eqb_neq. intros E.
  destruct H as [|x xs Hx Hxs]; [discriminate|]. rewrite floats_text_cons in E.
  destruct Hx as [[Hf _] | ->].
  - destruct (float_repr_head x Hf) as (c & t & Ex & Hc). rewrite Ex in E.
    cbn [app] in E. congruence.
  - discriminate.
Qed.

(** X17.  When the last item of a list is a NaN, no comma follows it and
    the text [nan,] does not cover it: the literal parser falls through to
    the pattern of line 198, which puts every item in quotes, and returns
    an array of strings, each float as its text, the finite ones too. *)
Theorem parse_anyscript_trailing_nan (init : list pyfloat) :
  Forall finite_or_nan init ->
  _parse_anyscript ("{" ++ floats_text (init ++ [NaN]) ++ "}")
  = Ok (VArray (map (fun x => VStr (float_repr x)) (init ++ [NaN]))).
Proof.
  intros Hinit.
  assert (H : Forall finite_or_nan (init ++ [NaN])).
  { apply Forall_app. split; [exact Hinit|]. constructor; [now right|constructor]. }
  assert (Hin : In NaN (init ++ [NaN])) by (apply in_or_app; right; now left).
  remember (init ++ [NaN]) as xs eqn:Exs.
  unfold _parse_anyscript.
  replace (startswith "{" ("{" ++ floats_text xs ++ "}")
           && endswith "}" ("{" ++ floats_text xs ++ "}")) with true.
  2:{ symmetry. apply andb_true_iff. split; [reflexivity|].
      rewrite !app_assoc. apply endswith_app. }
  rewrite replace_braces_floats, (floats_text_not_dots xs H).
  assert (Hok1 : Forall item_ok (map named_item xs)).
  { apply Forall_map. apply (Forall_impl _ named_item_ok H). }
  assert (Hok3 : Forall item_ok (map string_item xs)).
  { apply Forall_map. apply Forall_forall. intros x _. apply string_item_ok. }
  rewrite <- named_items_text at 1. rewrite (literal_eval_items _ Hok1).
  rewrite (convert_named_items xs H Hin).
  assert (Hsecond :
    try_except
      (if contains "nan," ("[" ++ floats_text xs ++ "]")
       then
         let val2 := replace "nan," (" " ++ [DQ] ++ "nan" ++ [DQ] ++ ",")
                       ("[" ++ floats_text xs ++ "]") in
         let* out := literal_eval val2 in
         _recursive_replace out "nan" (VFloat NaN)
       else Raise SyntaxError)
      syntax_or_value_error
      (fun _ =>
         let* val := sub TRIPEL_QUOTE_WRAP triple_quoted
                       ("[" ++ floats_text xs ++ "]") in
         let val := if str_eqb val "" then "None" else val in
         let val :=
           if startswith [DQ] val && endswith [DQ] val
           then "'''" ++ slice_1_m1 val ++ "'''"
           else val in
         literal_eval val)
    = Ok (VList (map (fun x => VStr (float_repr x)) xs))).
  { assert (Hthird :
      (let* val := sub TRIPEL_QUOTE_WRAP triple_quoted
                     ("[" ++ floats_text xs ++ "]") in
       let val := if str_eqb val "" then "None" else val in
       let val :=
         if startswith [DQ] val && endswith [DQ] val
         then "'''" ++ slice_1_m1 val ++ "'''"
         else val in
       literal_eval val)
      = Ok (VList (map (fun x => VStr (float_repr x)) xs))).
    { unfold sub. cbn [app]. rewrite (sub_nonbare "[" _ eq_refl), sub_floats.
      cbn [bind].
      change (str_eqb ("["%char :: items_text (map string_item xs) ++ "]") "")
        with false. cbn iota.
      change (startswith [DQ] ("["%char :: items_text (map string_item xs) ++ "]"))
        with false. cbn [andb]. cbn iota.
      change ("["%char :: items_text (map string_item xs) ++ "]")
        with ("[" ++ items_text (map string_item xs) ++ "]").
      rewrite (literal_eval_items _ Hok3). apply convert_string_items. }
    destruct (contains "nan," ("[" ++ floats_text xs ++ "]")).
    - unfold replace.
      change ("[" ++ floats_text xs ++ "]") with ("[" ++ (floats_text xs ++ "]")) at 1.
      rewrite (replace_from_plain _ "[") by reflexivity.
      rewrite (replace_nan_any xs H).
      rewrite (literal_eval_items _ (half_quoted_ok xs H)).
      rewrite Exs at 1. rewrite (convert_half_quoted init Hinit).
      cbn [bind try_except malformed syntax_or_value_error]. exact Hthird.
    - cbn [try_except syntax_or_value_error]. exact Hthird. }
  match goal with
  | |- bind ?m _ = _ =>
      assert (Hm : m = Ok (VList (map (fun x => VStr (float_repr x)) xs)))
        by exact Hsecond
  end.
  rewrite Hm. cbn [bind]. rewrite Exs.
  destruct init as [|x init]; apply np_array_strings.
Qed.

Lemma parse_anyscript_trailing_nan_witness :
  _parse_anyscript
    ("{" ++ floats_text ([Finite false [d1] 1; NaN; Finite true [d2; d5] 1]
                         ++ [NaN]) ++ "}")
  = Ok (VArray (map (fun x => VStr (float_repr x))
                  ([Finite false [d1] 1; NaN; Finite true [d2; d5] 1]
                   ++ [NaN]))).
Proof.
  apply (parse_anyscript_trailing_nan
           [Finite false [d1] 1; NaN; Finite true [d2; d5] 1]).
  repeat apply Forall_cons; try apply Forall_nil; unfold finite_or_nan;
    try (now right); left; cbn; repeat split; (discriminate || lia).
Defined.
